(** * Round-robin lead-threshold filter, organization onboarding finalizer,
      seat cancellation and member availability: a shallow embedding of the
      TypeScript sources.

    Conventions of the embedding.
    - A JavaScript [number] is a rational extended with [NaN], [+Infinity]
      and [-Infinity].  The sum, product and quotient of finite numbers are
      rounded as IEEE 754 binary64 does: to the nearest double, ties to the
      even significand, subnormal below [2^-1022], an infinity from [2^1024]
      on.  The special values follow IEEE 754; the sign of zero is not
      tracked.
    - A JavaScript object used as a dictionary keyed by user id is a [gmap Z].
      Reading a missing key yields [undefined], an [option] here.
    - An [async] function is a tree of calls to external collaborators
      ([Prog]); a collaborator answers with a value or throws.  Executions are
      described by their trace of calls, answers and error-level log entries.
      Debug-level diagnostics ([log.debug]) are not part of the model. *)

From Stdlib Require Import ZArith QArith Qround Qpower Lqa List Ascii String Bool Lia.
From stdpp Require Import base gmap strings list fin_maps sorting.

Local Open Scope string_scope.
Local Open Scope Z_scope.
Local Open Scope list_scope.

(** ** JavaScript numbers *)

Module JS.

Inductive number : Type :=
| NaN
| NegInf
| Fin (q : Q)
| PosInf.

Definition zero : number := Fin 0%Q.
Definition ofZ (z : Z) : number := Fin (inject_Z z).

Definition sgn (q : Q) : comparison := (q ?= 0)%Q.

Definition inf_of (c : comparison) : number :=
  match c with Gt => PosInf | Lt => NegInf | Eq => NaN end.

(** unary minus *)
Definition neg (x : number) : number :=
  match x with
  | NaN => NaN
  | NegInf => PosInf
  | PosInf => NegInf
  | Fin q => Fin (- q)%Q
  end.

(** *** Rounding to the nearest double *)

Definition pow2 (e : Z) : Q := (2 ^ e)%Q.

(** The binary exponent of a positive rational: [2^k <= q < 2^(k+1)]. *)
Definition ilog2 (q : Q) : Z :=
  let k := (Z.log2 (Qnum q) - Z.log2 (Zpos (Qden q)))%Z in
  if Qle_bool (pow2 k) q then k else (k - 1)%Z.

(** The exponent of the last place of the doubles around [q]: 53 bits of
    significand, and the fixed spacing [2^-1074] of the subnormal range. *)
Definition ulpExponent (q : Q) : Z := Z.max (ilog2 q - 52) (-1074).

(** The nearest integer, the even one of two that are equally near. *)
Definition nearestEven (x : Q) : Z :=
  let f := Qfloor x in
  match (x - inject_Z f ?= 1 # 2)%Q with
  | Lt => f
  | Gt => (f + 1)%Z
  | Eq => if Z.even f then f else (f + 1)%Z
  end.

Definition roundPositive (q : Q) : Q :=
  let e := ulpExponent q in
  (inject_Z (nearestEven (q / pow2 e)) * pow2 e)%Q.

Definition overflows (v : Q) : bool := Qle_bool (pow2 1024) v.

(** The double an exact result is rounded to, in lowest terms. *)
Definition round (q : Q) : number :=
  match sgn q with
  | Eq => Fin 0
  | Gt => let v := roundPositive q in if overflows v then PosInf else Fin (Qred v)
  | Lt => let v := roundPositive (- q) in if overflows v then NegInf else Fin (Qred (- v))
  end.

(** [q] is a double: rounding leaves its value as it is. *)
Definition isDouble (q : Q) : bool :=
  match round q with
  | Fin r => Qeq_bool r q
  | _ => false
  end.

(** [x + y] *)
Definition add (x y : number) : number :=
  match x, y with
  | NaN, _ | _, NaN => NaN
  | PosInf, NegInf | NegInf, PosInf => NaN
  | PosInf, _ | _, PosInf => PosInf
  | NegInf, _ | _, NegInf => NegInf
  | Fin a, Fin b => round (a + b)
  end.

(** [x * y] *)
Definition mul (x y : number) : number :=
  match x, y with
  | NaN, _ | _, NaN => NaN
  | Fin a, Fin b => round (a * b)
  | PosInf, Fin b | Fin b, PosInf => inf_of (sgn b)
  | NegInf, Fin b | Fin b, NegInf => inf_of (CompOpp (sgn b))
  | PosInf, PosInf | NegInf, NegInf => PosInf
  | PosInf, NegInf | NegInf, PosInf => NegInf
  end.

(** [x / y]; a zero divisor is [+0], the only zero a sum started at [0]
    can be. *)
Definition div (x y : number) : number :=
  match x, y with
  | NaN, _ | _, NaN => NaN
  | Fin a, Fin b => if Qeq_bool b 0 then inf_of (sgn a) else round (a / b)
  | Fin _, PosInf | Fin _, NegInf => Fin 0%Q
  | PosInf, Fin b => if Qle_bool 0 b then PosInf else NegInf
  | NegInf, Fin b => if Qle_bool 0 b then NegInf else PosInf
  | _, _ => NaN
  end.

(** [x <= y]; every comparison with [NaN] is false. *)
Definition le (x y : number) : bool :=
  match x, y with
  | NaN, _ | _, NaN => false
  | NegInf, _ | _, PosInf => true
  | _, NegInf | PosInf, _ => false
  | Fin a, Fin b => Qle_bool a b
  end.

(** [x < y] *)
Definition lt (x y : number) : bool :=
  match x, y with
  | NaN, _ | _, NaN => false
  | NegInf, NegInf | PosInf, PosInf => false
  | NegInf, _ | _, PosInf => true
  | _, NegInf | PosInf, _ => false
  | Fin a, Fin b => negb (Qle_bool b a)
  end.

(** [x > y] *)
Definition gt (x y : number) : bool := lt y x.

(** The value an arithmetic operator sees when it is handed [obj[key]]:
    [undefined] is coerced to [NaN]. *)
Definition toNumber (v : option number) : number :=
  match v with Some x => x | None => NaN end.

Definition min2 (x y : number) : number :=
  match x, y with
  | NaN, _ | _, NaN => NaN
  | _, _ => if lt y x then y else x
  end.

Definition max2 (x y : number) : number :=
  match x, y with
  | NaN, _ | _, NaN => NaN
  | _, _ => if lt x y then y else x
  end.

(** [Math.min(...l)]: [+Infinity] without arguments, [NaN] as soon as one
    argument is [NaN]. *)
Definition Math_min (l : list number) : number := fold_right min2 PosInf l.

(** [Math.max(...l)] *)
Definition Math_max (l : list number) : number := fold_right max2 NegInf l.

(** [Number.isFinite(x)]: neither [NaN] nor an infinity.  The finite
    numbers of the program are doubles. *)
Definition isFinite (x : number) : bool :=
  match x with Fin q => isDouble q | _ => false end.

End JS.

(** ** Thrown values and outcomes *)

Inductive JsError : Type :=
| TypeError (message : string)
| Error (message : string)
| HttpError (statusCode : Z) (message : string)
| ZodError (message : string)
| Rejected (reason : string).

Inductive result (A : Type) : Type :=
| Ok (a : A)
| Err (e : JsError).
Arguments Ok {A} a.
Arguments Err {A} e.

Definition isOk {A} (r : result A) : bool :=
  match r with Ok _ => true | Err _ => false end.

(** ** Programs over external collaborators *)

Section Programs.
Context {C : Type} {R : C -> Type} {L : Type}.

(** [Vis c k] awaits the external call [c] and hands its outcome to [k];
    [Emit l k] performs an effect that cannot fail: an error-level log
    entry or a write to an object of the caller. *)
Inductive Prog (A : Type) : Type :=
| Ret (a : A)
| Throw (e : JsError)
| Vis (c : C) (k : result (R c) -> Prog A)
| Emit (l : L) (k : Prog A).
Arguments Ret {A} a.
Arguments Throw {A} e.
Arguments Vis {A} c k.
Arguments Emit {A} l k.

Fixpoint bind {A B} (p : Prog A) (f : A -> Prog B) : Prog B :=
  match p with
  | Ret a => f a
  | Throw e => Throw e
  | Vis c k => Vis c (fun r => bind (k r) f)
  | Emit l k => Emit l (bind k f)
  end.

(** [await c]: a rejection is rethrown at the await. *)
Definition call (c : C) : Prog (R c) :=
  Vis c (fun r => match r with Ok x => Ret x | Err e => Throw e end).

(** [c] is started and its promise kept: the settled outcome is a value. *)
Definition start (c : C) : Prog (result (R c)) :=
  Vis c (fun r => Ret r).

(** [try { p } catch (e) { h e }] *)
Fixpoint tryCatch {A} (p : Prog A) (h : JsError -> Prog A) : Prog A :=
  match p with
  | Ret a => Ret a
  | Throw e => h e
  | Vis c k => Vis c (fun r => tryCatch (k r) h)
  | Emit l k => Emit l (tryCatch k h)
  end.

(** [await Promise.all(ps)] on promises that were started earlier: rejects
    with the first rejection in array order that is found. *)
Fixpoint awaitAll {X} (ps : list (result X)) : Prog (list X) :=
  match ps with
  | [] => Ret []
  | Ok x :: ps' => bind (awaitAll ps') (fun xs => Ret (x :: xs))
  | Err e :: _ => Throw e
  end.

Inductive Event : Type :=
| Called (c : C) (r : result (R c))
| Emitted (l : L).

(** [exec p tr out]: [p] can run with the collaborators answering as
    recorded in [tr], and then finishes with [out]. *)
Fixpoint exec {A} (p : Prog A) (tr : list Event) (out : result A) : Prop :=
  match p with
  | Ret a => tr = [] /\ out = Ok a
  | Throw e => tr = [] /\ out = Err e
  | Vis c k => exists r tr', tr = Called c r :: tr' /\ exec (k r) tr' out
  | Emit l k => exists tr', tr = Emitted l :: tr' /\ exec k tr' out
  end.

(** Running against a concrete environment with state [W]. *)
Fixpoint run {W A} (env : forall c : C, W -> result (R c) * W)
    (p : Prog A) (w : W) : (result A * list Event) * W :=
  match p with
  | Ret a => (Ok a, [], w)
  | Throw e => (Err e, [], w)
  | Vis c k =>
      let rw := env c w in
      let res := run env (k (fst rw)) (snd rw) in
      (fst (fst res), Called c (fst rw) :: snd (fst res), snd res)
  | Emit l k =>
      let res := run env k w in
      (fst (fst res), Emitted l :: snd (fst res), snd res)
  end.

Definition outcome {W A} (res : (result A * list Event) * W) : result A := fst (fst res).
Definition trace {W A} (res : (result A * list Event) * W) : list Event := snd (fst res).
Definition world {W A} (res : (result A * list Event) * W) : W := snd res.

End Programs.

Arguments Prog C R L A : clear implicits.
Arguments Event C R L : clear implicits.
Arguments Ret {C R L A} a.
Arguments Throw {C R L A} e.
Arguments Vis {C R L A} c k.
Arguments Emit {C R L A} l k.

Declare Scope prog_scope.
Delimit Scope prog_scope with prog.
Notation "x <- p ;; q" := (bind p (fun x => q))
  (at level 100, p at next level, right associativity) : prog_scope.
Notation "p ;;; q" := (bind p (fun _ => q))
  (at level 100, right associativity) : prog_scope.

(** ** Values shared by the handlers *)

(** Untyped JSON: request bodies and the serialized payloads stored on the
    onboarding record. *)
#[local] Set Warnings "-register-all".
Inductive Json : Type :=
| JNull
| JBool (b : bool)
| JNumber (n : JS.number)
| JString (s : string)
| JArray (items : list Json)
| JObject (fields : list (string * Json)).

(** The handle returned by [getTranslation]. *)
Definition TFunction : Type := string.

(** [s || fallback] on a nullable string: [null] and the empty string are
    falsy. *)
Definition orString (s : option string) (fallback : string) : string :=
  match s with
  | Some (String a rest) => String a rest
  | _ => fallback
  end.

(** [s ?? fallback] on a nullable string *)
Definition nullishString (s : option string) (fallback : string) : string :=
  match s with
  | Some x => x
  | None => fallback
  end.

(** [!s] on a nullable string *)
Definition falsyString (s : option string) : bool :=
  match s with
  | Some (String _ _) => false
  | _ => true
  end.

(** truthiness of a nullable numeric id: [null] and [0] are falsy *)
Definition truthyId (i : option Z) : option Z :=
  match i with
  | Some n => if Z.eqb n 0 then None else Some n
  | None => None
  end.

(** [s.split(sep)] for a one-character separator *)
Fixpoint split (sep : Ascii.ascii) (s : string) : list string :=
  match s with
  | EmptyString => [EmptyString]
  | String a rest =>
    if Ascii.eqb a sep then EmptyString :: split sep rest
    else match split sep rest with
         | first :: others => String a first :: others
         | [] => [String a EmptyString]
         end
  end.

(** [s.startsWith(sub)] and [s.includes(sub)] *)
Fixpoint startsWith (s sub : string) : bool :=
  match sub, s with
  | EmptyString, _ => true
  | String b sub', String a s' => Ascii.eqb a b && startsWith s' sub'
  | String _ _, EmptyString => false
  end.

Fixpoint includesString (s sub : string) : bool :=
  startsWith s sub ||
  match s with
  | EmptyString => false
  | String _ s' => includesString s' sub
  end.

(** ** Lead-threshold host filter (filterHostsByLeadThreshold) *)

Module LeadThreshold.
Import JS.

(** Imported types, kept as identifiers. *)
Definition CredentialPayload : Type := Z.
Definition SelectedCalendar : Type := string.

Record BaseUser : Type := {
  user_id : Z;
  user_email : string;
  credentials : list CredentialPayload;
  userLevelSelectedCalendars : list SelectedCalendar
}.

(** [priority], [weight] and [weightAdjustment] are optional and nullable:
    [None] stands for both [undefined] and [null]. *)
Record BaseHost : Type := {
  isFixed : bool;
  createdAt : Z;
  priority : option number;
  weight : option number;
  weightAdjustment : option number;
  user : BaseUser
}.

Record EventType : Type := {
  eventType_id : Z;
  isRRWeightsEnabled : bool;
  team : option (option Z)  (* [{ parentId }] or [null] *)
}.

(** [perUserData] of the ranking function. *)
Record PerUserData : Type := {
  bookingsCount : gmap Z number;
  weights : option (gmap Z number);
  calibrations : option (gmap Z number);
  bookingShortfalls : option (gmap Z number)
}.

Record WeightedPerUserData : Type := {
  w_bookingsCount : gmap Z number;
  w_bookingShortfalls : gmap Z number;
  w_calibrations : gmap Z number;
  w_weights : gmap Z number
}.

(** [{ ...host.user, weight: host.weight ?? null, priority: host.priority ?? null }] *)
Record AvailableUser : Type := {
  au_user : BaseUser;
  au_weight : option number;
  au_priority : option number
}.

Record LuckyUsersArgs : Type := {
  availableUsers : list AvailableUser;
  arg_eventType : EventType;
  allRRHosts : list BaseHost;
  routingFormResponse : option unit
}.

Record LuckyUsers : Type := { perUserData : PerUserData }.

(** The one external collaborator of the filter. *)
Inductive Call : Type :=
| getOrderedListOfLuckyUsers (args : LuckyUsersArgs).

Definition Resp (c : Call) : Type := LuckyUsers.

Abbreviation M := (Prog Call Resp Empty_set).
Abbreviation Ev := (Event Call Resp Empty_set).

(** The keys visited by [for (const k in o)]: user ids are non-negative
    integers, which JavaScript enumerates in ascending order, and
    [parseInt(k, 10)] gives back the numeric id the key was made of.
    [Object.values(o)] follows the same order. *)
Definition keys (o : gmap Z number) : list Z := merge_sort Z.le (map_to_list o).*1.
Definition values (o : gmap Z number) : list number := omap (fun k => o !! k) (keys o).

(** The total weight and the allowed lead of the weighted policy, named for
    the statements about it. *)
Definition totalWeightOf (ws : gmap Z number) : number :=
  fold_left (fun sum weight => add sum weight) (values ws) zero.

Definition allowedLeadOf (ws : gmap Z number) (maxLeadThreshold : number) (userId : Z) : number :=
  let weight := toNumber (ws !! userId) in
  let weightPercentage := div weight (totalWeightOf ws) in
  mul maxLeadThreshold weightPercentage.

Definition filterHostsByLeadThresholdWithWeights
    (perUserData : WeightedPerUserData) (maxLeadThreshold : number) : list Z :=
  let totalWeight :=
    fold_left (fun sum weight => add sum weight) (values (w_weights perUserData)) zero in
  fold_left
    (fun filteredUserIds userId =>
       let shortfall := toNumber (w_bookingShortfalls perUserData !! userId) in
       let weight := toNumber (w_weights perUserData !! userId) in
       let weightPercentage := div weight totalWeight in
       let allowedLead := mul maxLeadThreshold weightPercentage in
       if gt (neg shortfall) allowedLead
       then filteredUserIds
       else filteredUserIds ++ [userId])
    (keys (w_bookingsCount perUserData)) [].

Definition filterHostsByLeadThresholdWithoutWeights
    (perUserData : PerUserData) (maxLeadThreshold : number) : list Z :=
  let bookingsArray := values (bookingsCount perUserData) in
  let minBookings := Math_min bookingsArray in
  let maxBookings := Math_max bookingsArray in
  fold_left
    (fun filteredUserIds userId =>
       let bookingsCount := toNumber (bookingsCount perUserData !! userId) in
       if le bookingsCount (add minBookings maxLeadThreshold)
       then filteredUserIds ++ [userId]
       else filteredUserIds)
    (keys (bookingsCount perUserData)) [].

Definition toAvailableUser (host : BaseHost) : AvailableUser :=
  {| au_user := user host; au_weight := weight host; au_priority := priority host |}.

(** [ids.includes(x)] *)
Definition includes (ids : list Z) (x : Z) : bool := existsb (Z.eqb x) ids.

Definition nullFieldsError : JsError :=
  Error "Calibrations, weights, or booking shortfalls are null".

Definition filterHostsByLeadThreshold
    (hosts : list BaseHost) (maxLeadThreshold : option number) (eventType : EventType)
    : M (list BaseHost) :=
  match maxLeadThreshold with
  | None => Ret hosts
  | Some maxLeadThreshold =>
    match hosts !! 0%nat with
    | None => Throw (TypeError "Cannot read properties of undefined (reading 'user')")
    | Some host0 =>
      (orderedLuckyUsers <-
         call (getOrderedListOfLuckyUsers
                 {| availableUsers :=
                      toAvailableUser host0 :: List.map toAvailableUser (drop 1 hosts);
                    arg_eventType := eventType;
                    allRRHosts := hosts;
                    routingFormResponse := None |}) ;;
       let perUserData := perUserData orderedLuckyUsers in
       filteredUserIds <-
         (if isRRWeightsEnabled eventType then
            match calibrations perUserData, weights perUserData,
                  bookingShortfalls perUserData with
            | Some cs, Some ws, Some sfs =>
                Ret (filterHostsByLeadThresholdWithWeights
                       {| w_bookingsCount := bookingsCount perUserData;
                          w_bookingShortfalls := sfs;
                          w_calibrations := cs;
                          w_weights := ws |}
                       maxLeadThreshold)
            | _, _, _ => Throw nullFieldsError
            end
          else
            Ret (filterHostsByLeadThresholdWithoutWeights perUserData maxLeadThreshold)) ;;
       let filteredHosts :=
         List.filter (fun host => includes filteredUserIds (user_id (user host))) hosts in
       Ret filteredHosts)%prog
    end
  end.

(** *** Vocabulary of the statements *)

(** The answers of the ranking function recorded in a trace. *)
Definition answer (ev : Ev) : option (result LuckyUsers) :=
  match ev with
  | Called c r => Some r
  | Emitted l => None
  end.
Definition answers (tr : list Ev) : list (result LuckyUsers) := omap answer tr.

(** The argument the ranking function is called with. *)
Definition luckyUsersArgs (hosts : list BaseHost) (eventType : EventType) : LuckyUsersArgs :=
  {| availableUsers := List.map toAvailableUser hosts;
     arg_eventType := eventType;
     allRRHosts := hosts;
     routingFormResponse := None |}.

(** [-shortfall > allowedLead] for one user *)
Definition exceedsLead (ws sfs : gmap Z number) (m : number) (userId : Z) : bool :=
  gt (neg (toNumber (sfs !! userId))) (allowedLeadOf ws m userId).

(** [bookingsCount <= minBookings + maxLeadThreshold] for one user *)
Definition withinLead (counts : gmap Z number) (m : number) (userId : Z) : bool :=
  le (toNumber (counts !! userId)) (add (Math_min (values counts)) m).

Definition isMinimumOf (x : number) (l : list number) : Prop :=
  In x l /\ forall y, In y l -> le x y = true.

(** What the filter returns once the ranking function has answered [r]. *)
Definition afterRanking (hosts : list BaseHost) (m : number) (et : EventType)
    (r : result LuckyUsers) : result (list BaseHost) :=
  match r with
  | Err e => Err e
  | Ok lucky =>
    let pud := perUserData lucky in
    if isRRWeightsEnabled et then
      match calibrations pud, weights pud, bookingShortfalls pud with
      | Some cs, Some ws, Some sfs =>
        Ok (List.filter (fun host =>
              match bookingsCount pud !! user_id (user host) with
              | Some _ => negb (exceedsLead ws sfs m (user_id (user host)))
              | None => false
              end) hosts)
      | _, _, _ => Err nullFieldsError
      end
    else
      Ok (List.filter (fun host =>
            match bookingsCount pud !! user_id (user host) with
            | Some _ => withinLead (bookingsCount pud) m (user_id (user host))
            | None => false
            end) hosts)
  end.


(** *** Sample data *)

Definition mkUser (i : Z) : BaseUser :=
  {| user_id := i; user_email := ""; credentials := []; userLevelSelectedCalendars := [] |}.
Definition mkHost (i : Z) : BaseHost :=
  {| isFixed := false; createdAt := 0; priority := None; weight := None;
     weightAdjustment := None; user := mkUser i |}.
Definition mkEventType (rr : bool) : EventType :=
  {| eventType_id := 1; isRRWeightsEnabled := rr; team := None |}.
Definition numMap (l : list (Z * Z)) : gmap Z number :=
  list_to_map (List.map (fun kv => (fst kv, ofZ (snd kv))) l).

(** Modelled from the spec: the ranking function is an external
    collaborator whose code is not part of the sources; here it is a function
    of its arguments, and the state of the environment counts its calls. *)
Definition rankingEnv (rank : LuckyUsersArgs -> result LuckyUsers)
    (c : Call) (n : nat) : result (Resp c) * nat :=
  match c with getOrderedListOfLuckyUsers args => (rank args, S n) end.

(** Two hosts of weight 100 each; with [maxLeadThreshold = 6] the allowed
    lead of each is [6 * (100 / 200) = 3]. *)
Definition weightedData : LuckyUsers :=
  {| perUserData :=
       {| bookingsCount := numMap [(1, 7); (2, 4)];
          weights := Some (numMap [(1, 100); (2, 100)]);
          calibrations := Some (numMap [(1, 0); (2, 0)]);
          bookingShortfalls := Some (numMap [(1, -5); (2, -2)]) |} |}.

(** Booking counts [{1: 2, 2: 5, 3: 8}]. *)
Definition unweightedData : LuckyUsers :=
  {| perUserData :=
       {| bookingsCount := numMap [(1, 2); (2, 5); (3, 8)];
          weights := None;
          calibrations := None;
          bookingShortfalls := None |} |}.

(** A ranking without weights although the event type asks for them. *)
Definition missingWeightsData : LuckyUsers :=
  {| perUserData :=
       {| bookingsCount := numMap [(1, 7); (2, 4)];
          weights := None;
          calibrations := Some (numMap [(1, 0); (2, 0)]);
          bookingShortfalls := Some (numMap [(1, -5); (2, -2)]) |} |}.

Definition filterWith (lucky : LuckyUsers) (hosts : list BaseHost) (m : Z) (rr : bool)
    (n : nat) :=
  run (rankingEnv (fun _ => Ok lucky))
      (filterHostsByLeadThreshold hosts (Some (ofZ m)) (mkEventType rr)) n.

(** Three hosts of weight 100 each, the third with a shortfall but without
    a bookings count; with [maxLeadThreshold = 6] the allowed lead of each
    is [6 * (100 / 300) = 2]. *)
Definition partlyCountedData : LuckyUsers :=
  {| perUserData :=
       {| bookingsCount := numMap [(1, 7); (2, 4)];
          weights := Some (numMap [(1, 100); (2, 100); (3, 100)]);
          calibrations := Some (numMap [(1, 0); (2, 0); (3, 0)]);
          bookingShortfalls := Some (numMap [(1, -5); (2, -2); (3, -1)]) |} |}.

(** Weights 1 and 48 under a threshold of 49: the share [1 / 49] is a
    rounded quotient, and [49 * (1 / 49)] falls short of 1. *)
Definition unevenWeightsData : LuckyUsers :=
  {| perUserData :=
       {| bookingsCount := numMap [(1, 1); (2, 0)];
          weights := Some (numMap [(1, 1); (2, 48)]);
          calibrations := Some (numMap [(1, 0); (2, 0)]);
          bookingShortfalls := Some (numMap [(1, -1); (2, 0)]) |} |}.

(** Booking counts beyond [2^53], where the doubles are two apart. *)
Definition largeCountsData : LuckyUsers :=
  {| perUserData :=
       {| bookingsCount := numMap [(1, 9007199254740994); (2, 9007199254740996)];
          weights := None;
          calibrations := None;
          bookingShortfalls := None |} |}.

Definition weightedRun := filterWith weightedData [mkHost 1; mkHost 2] 6 true 0.
Definition partlyCountedRun :=
  filterWith partlyCountedData [mkHost 1; mkHost 2; mkHost 3] 6 true 0.
Definition unevenWeightsRun := filterWith unevenWeightsData [mkHost 1; mkHost 2] 49 true 0.
Definition largeCountsRun := filterWith largeCountsData [mkHost 1; mkHost 2] 1 false 0.
Definition unweightedRun := filterWith unweightedData [mkHost 1; mkHost 2; mkHost 3] 3 false 0.
Definition missingWeightsRun := filterWith missingWeightsData [mkHost 1; mkHost 2] 6 true 0.

End LeadThreshold.

(** ** The call of the filter, as its caller sees it *)

Module LeadThresholdCall.
Import JS LeadThreshold.

(** The argument object [{ hosts, maxLeadThreshold, eventType }], which the
    caller owns and may hand to a later call. *)
Record Arguments : Type := {
  hosts : list BaseHost;
  maxLeadThreshold : option number;
  eventType : EventType
}.

(** A computation that may read and write the argument object of its
    caller. *)
Definition OnArguments (A : Type) : Type := Arguments -> M (A * Arguments).

Definition andThen {A B} (p : OnArguments A) (k : A -> OnArguments B) : OnArguments B :=
  fun args => (r <- p args ;; k (fst r) (snd r))%prog.

Definition read {A} (property : Arguments -> A) : OnArguments A :=
  fun args => Ret (property args, args).

Definition write_maxLeadThreshold (v : option number) : OnArguments unit :=
  fun args =>
    Ret (tt, {| hosts := hosts args; maxLeadThreshold := v; eventType := eventType args |}).

(** A body that has no name for the argument object. *)
Definition body {A} (p : M A) : OnArguments A :=
  fun args => (x <- p ;; Ret (x, args))%prog.

(** The call [filterHostsByLeadThreshold(args)].  The parameter of the
    arrow function is the pattern [{ hosts, maxLeadThreshold, eventType }]:
    the three properties are read once, into bindings of the callee; the
    body has no name for the object itself, assigns to none of the three
    bindings, and hands the ranking function the hosts and the event type
    but not the threshold. *)
Definition filterHostsByLeadThresholdOf : OnArguments (list BaseHost) :=
  andThen (read hosts) (fun hosts =>
  andThen (read maxLeadThreshold) (fun maxLeadThreshold =>
  andThen (read eventType) (fun eventType =>
  body (filterHostsByLeadThreshold hosts maxLeadThreshold eventType)))).

(** Two successive calls that are handed the same argument object. *)
Definition twice (call : OnArguments (list BaseHost))
    : OnArguments (list BaseHost * list BaseHost) :=
  andThen call (fun first =>
  andThen call (fun second =>
  fun args => Ret ((first, second), args))).

Definition successiveCalls : OnArguments (list BaseHost * list BaseHost) :=
  twice filterHostsByLeadThresholdOf.

(** Modelled from the spec: a filter under the one-shot contract of the
    specification, which consumes the threshold of its caller: once read, it
    is invalidated ([null]) for later use. *)
Definition oneShotFilter : OnArguments (list BaseHost) :=
  andThen (read hosts) (fun hosts =>
  andThen (read maxLeadThreshold) (fun maxLeadThreshold =>
  andThen (read eventType) (fun eventType =>
  andThen (write_maxLeadThreshold None) (fun _ =>
  body (filterHostsByLeadThreshold hosts maxLeadThreshold eventType))))).

(** The ranking data is the same at both calls. *)
Definition sameRankingData (tr : list Ev) : Prop :=
  forall a b, answers tr = [a; b] -> a = b.

Definition sampleArguments : Arguments :=
  {| hosts := [mkHost 1; mkHost 2; mkHost 3];
     maxLeadThreshold := Some (ofZ 3);
     eventType := mkEventType false |}.

Definition sampleCalls :=
  run (rankingEnv (fun _ => Ok unweightedData)) (successiveCalls sampleArguments) 0%nat.
Definition sampleOneShotCalls :=
  run (rankingEnv (fun _ => Ok unweightedData)) (twice oneShotFilter sampleArguments) 0%nat.

End LeadThresholdCall.

(** ** Organization onboarding finalizer (createOrganizationFromOnboarding) *)

Module Onboarding.

Inductive BillingPeriod : Type := MONTHLY | ANNUALLY.
Inductive MembershipRole : Type := MEMBER | ADMIN | OWNER.
Inductive CreationSource : Type := WEBAPP | API_V1 | API_V2.

(** The fields of the user found by [findUserToBeOrgOwner] that are read. *)
Record Owner : Type := {
  owner_id : Z;
  owner_email : string;
  owner_username : option string;
  owner_locale : option string
}.

(** The fields of an organization (a [Team]) that are read. *)
Record Team : Type := {
  team_id : Z;
  team_name : string;
  team_slug : option string
}.

Record OrganizationOnboarding : Type := {
  ob_id : Z;
  ob_organizationId : option Z;
  ob_name : string;
  ob_slug : string;
  orgOwnerEmail : string;
  ob_seats : option JS.number;
  ob_pricePerSeat : option JS.number;
  ob_billingPeriod : option BillingPeriod;
  invitedMembers : Json;
  teams : Json;
  ob_isPlatform : bool;
  logo : option string;
  bio : option string
}.

Record OrganizationData : Type := {
  od_id : option Z;
  od_name : string;
  od_slug : string;
  isOrganizationConfigured : bool;
  isOrganizationAdminReviewed : bool;
  autoAcceptEmail : option string;  (* [split("@")[1]], [undefined] without an [@] *)
  od_seats : option JS.number;
  od_pricePerSeat : option JS.number;
  od_isPlatform : bool;
  logoUrl : option string;
  od_bio : option string;
  od_billingPeriod : option BillingPeriod;
  paymentSubscriptionId : string
}.

Record TeamData : Type := {
  td_id : Z;
  td_name : string;
  isBeingMigrated : bool;
  td_slug : string
}.

Record InvitedMember : Type := {
  im_email : string;
  im_name : option string
}.

(** [getOrgFullOrigin(slug, { protocol })] is kept as a term standing for
    its result. *)
Inductive OrgOrigin : Type :=
| getOrgFullOrigin (slug : string) (protocol : bool).

Record CreationEmail : Type := {
  language : TFunction;
  from : string;
  to : string;
  ownerNewUsername : string;
  ownerOldUsername : string;
  orgDomain : OrgOrigin;
  orgName : string;
  prevLink : OrgOrigin * string;  (* [`${origin}/${path}`] *)
  newLink : OrgOrigin * string
}.

Record OrgCreationResult : Type := {
  created_organization : Team;
  ownerProfile_username : string
}.

Record MoveTeam : Type := {
  mt_id : Z;
  newSlug : string;
  shouldMove : bool
}.

Record Invitation : Type := {
  usernameOrEmail : string;
  role : MembershipRole
}.

(** External collaborators. *)
Inductive Call : Type :=
| findUserToBeOrgOwner (email : string)
| getTranslation (locale ns : string)
| setupDomain (slug : string) (isPlatform : bool) (ownerEmail : string)
    (orgOwnerTranslation : TFunction)
| OrganizationRepository_findById (id : Z)
| OrganizationRepository_findBySlug (slug : string)
| assertCanCreateOrg (slug : string) (isPlatform : bool) (orgOwner : Owner)
    (errorOnUserAlreadyPartOfOrg restrictBasedOnMinimumPublishedTeams : bool)
    (* [orgData] with its [slug] replaced by [slug] *)
| OrganizationRepository_createWithExistingUserAsOwner
    (orgData : OrganizationData) (slug : option string)
    (ownerId : Z) (ownerEmail nonOrgUsername : string)
| sendOrganizationCreationEmail (mail : CreationEmail)
    (* one row per entry of [getAvailabilityFromSchedule(DEFAULT_SCHEDULE)] *)
| prisma_availability_createMany (userId : Z)
| OrganizationOnboardingRepository_setOrganizationId (id organizationId : Z)
| parseInvitedMembers (raw : Json)
| parseTeams (raw : Json)
| inviteMembersWithNoInviterPermissionCheck
    (inviterName : option string) (teamId : Z) (lang : string)
    (creationSource : CreationSource) (orgSlug : option string)
    (invitations : list Invitation)
| createTeamsHandler (ctxUser : Owner) (ctxOrganizationId : Z)
    (teamNames : list string) (orgId : Z) (moveTeams : list MoveTeam)
    (creationSource : CreationSource)
| OrganizationRepository_setSlug (id : Z) (slug : string).

Definition Resp (c : Call) : Type :=
  match c with
  | findUserToBeOrgOwner _ => option Owner
  | getTranslation _ _ => TFunction
  | OrganizationRepository_findById _ => option Team
  | OrganizationRepository_findBySlug _ => option Team
  | assertCanCreateOrg _ _ _ _ _ => option string  (* [slugConflictType] *)
  | OrganizationRepository_createWithExistingUserAsOwner _ _ _ _ _ => OrgCreationResult
  | parseInvitedMembers _ => list InvitedMember
  | parseTeams _ => list TeamData
  | _ => unit
  end.

(** [log.error(message, safeStringify(error))] *)
Record LogEntry : Type := {
  log_message : string;
  log_error : JsError
}.

Abbreviation M := (Prog Call Resp LogEntry).
Abbreviation Ev := (Event Call Resp LogEntry).

Definition await (c : Call) : M (Resp c) := call c.

Definition createOrganizationWithOwner
    (owner : Owner) (organizationOnboardingId : Z) (orgData : OrganizationData)
    : M Team :=
  (orgOwnerTranslation <- await (getTranslation (orString (owner_locale owner) "en") "common") ;;
   organization <-
     match truthyId (od_id orgData) with
     | Some id => await (OrganizationRepository_findById id)
     | None => await (OrganizationRepository_findBySlug (od_slug orgData))
     end ;;
   match organization with
   | Some organization => Ret organization
   | None =>
     slugConflictType <-
       await (assertCanCreateOrg (od_slug orgData) (od_isPlatform orgData) owner false false) ;;
     let canSetSlug :=
       match slugConflictType with
       | Some t => if String.eqb t "teamUserIsMemberOfExists" then false else true
       | None => true
       end in
     organization <-
       tryCatch
         (let nonOrgUsername := orString (owner_username owner) "" in
          orgCreationResult <-
            await (OrganizationRepository_createWithExistingUserAsOwner
                    orgData (if canSetSlug then Some (od_slug orgData) else None)
                    (owner_id owner) (owner_email owner) nonOrgUsername) ;;
          let organization := created_organization orgCreationResult in
          (if negb (od_isPlatform orgData) then
             await (sendOrganizationCreationEmail
                     {| language := orgOwnerTranslation;
                        from := team_name organization ++ "'s admin";
                        to := owner_email owner;
                        ownerNewUsername := ownerProfile_username orgCreationResult;
                        ownerOldUsername := nonOrgUsername;
                        orgDomain := getOrgFullOrigin (od_slug orgData) false;
                        orgName := team_name organization;
                        prevLink := (getOrgFullOrigin "" true,
                                     orString (owner_username owner) "");
                        newLink := (getOrgFullOrigin (od_slug orgData) true,
                                    ownerProfile_username orgCreationResult) |})
           else Ret tt) ;;;
          await (prisma_availability_createMany (owner_id owner)) ;;;
          Ret organization)
         (fun error =>
            Emit {| log_message :=
                     "RecoverableError: Error creating organization for owner "
                     ++ owner_email owner ++ ".";
                   log_error := error |}
                (Throw error)) ;;
     await (OrganizationOnboardingRepository_setOrganizationId
             organizationOnboardingId (team_id organization)) ;;;
     Ret organization
   end)%prog.

Definition createOrMoveTeamsToOrganization
    (teams : list TeamData) (owner : Owner) (organizationId : Z) : M unit :=
  match teams with
  | [] => Ret tt
  | _ =>
    let teamsToCreate :=
      List.map td_name (List.filter (fun team => negb (isBeingMigrated team)) teams) in
    let teamsToMove :=
      List.map (fun team => {| mt_id := td_id team; newSlug := td_slug team; shouldMove := true |})
               (List.filter (fun team => isBeingMigrated team) teams) in
    await (createTeamsHandler owner organizationId teamsToCreate organizationId teamsToMove WEBAPP)
  end.

Definition inviteMembers (invitedMembers : list InvitedMember) (organization : Team) : M unit :=
  match invitedMembers with
  | [] => Ret tt
  | _ =>
    await (inviteMembersWithNoInviterPermissionCheck
            None (team_id organization) "en" WEBAPP
            (match team_slug organization with
             | Some (String a rest) => Some (String a rest)
             | _ => None
             end)
            (List.map (fun member => {| usernameOrEmail := im_email member; role := MEMBER |})
                      invitedMembers))
  end.

Definition createOrganizationFromOnboarding
    (organizationOnboarding : OrganizationOnboarding) (paymentSubscriptionId : string)
    : M (Team * Owner) :=
  (owner <- await (findUserToBeOrgOwner (orgOwnerEmail organizationOnboarding)) ;;
   match owner with
   | None =>
     Throw (Error ("Owner not found with email: " ++ orgOwnerEmail organizationOnboarding))
   | Some owner =>
     orgOwnerTranslation <-
       await (getTranslation (orString (owner_locale owner) "en") "common") ;;
     await (setupDomain (ob_slug organizationOnboarding)
                       (ob_isPlatform organizationOnboarding)
                       (orgOwnerEmail organizationOnboarding)
                       orgOwnerTranslation) ;;;
     organization <-
       createOrganizationWithOwner owner (ob_id organizationOnboarding)
         {| od_id := ob_organizationId organizationOnboarding;
            od_name := ob_name organizationOnboarding;
            od_slug := ob_slug organizationOnboarding;
            isOrganizationConfigured := true;
            isOrganizationAdminReviewed := true;
            autoAcceptEmail :=
              split "@"%char (orgOwnerEmail organizationOnboarding) !! 1%nat;
            od_seats := ob_seats organizationOnboarding;
            od_pricePerSeat := ob_pricePerSeat organizationOnboarding;
            od_isPlatform := false;
            od_billingPeriod := ob_billingPeriod organizationOnboarding;
            logoUrl := logo organizationOnboarding;
            od_bio := bio organizationOnboarding;
            paymentSubscriptionId := paymentSubscriptionId |} ;;
     invitedMembers <- await (parseInvitedMembers (invitedMembers organizationOnboarding)) ;;
     teams <- await (parseTeams (teams organizationOnboarding)) ;;
     inviteMembers invitedMembers organization ;;;
     createOrMoveTeamsToOrganization teams owner (team_id organization) ;;;
     (if falsyString (team_slug organization) then
        await (OrganizationRepository_setSlug (team_id organization)
                                             (ob_slug organizationOnboarding))
      else Ret tt) ;;;
     Ret (organization, owner)
   end)%prog.

(** *** Vocabulary of the statements *)

Definition callOf (ev : Ev) : option Call :=
  match ev with
  | Called c _ => Some c
  | Emitted _ => None
  end.
Definition calls (tr : list Ev) : list Call := omap callOf tr.

Definition answeredOk (ev : Ev) : bool :=
  match ev with
  | Called _ r => isOk r
  | Emitted _ => true
  end.

(** What the existence lookup of the create-or-reuse step answered. *)
Definition lookupAnswer (ev : Ev) : option (option Team) :=
  match ev with
  | Called (OrganizationRepository_findById _) (Ok o) => Some o
  | Called (OrganizationRepository_findBySlug _) (Ok o) => Some o
  | _ => None
  end.
Definition lookups (tr : list Ev) : list (option Team) := omap lookupAnswer tr.

Definition isCreation (c : Call) : bool :=
  match c with
  | OrganizationRepository_createWithExistingUserAsOwner _ _ _ _ _ => true
  | _ => false
  end.

Definition isCreationEmail (c : Call) : bool :=
  match c with
  | sendOrganizationCreationEmail _ => true
  | _ => false
  end.

Definition isSetSlug (c : Call) : bool :=
  match c with
  | OrganizationRepository_setSlug _ _ => true
  | _ => false
  end.

(** The organizations created during a run. *)
Definition createdBy (ev : Ev) : option Team :=
  match ev with
  | Called (OrganizationRepository_createWithExistingUserAsOwner _ _ _ _ _) (Ok res) =>
      Some (created_organization res)
  | _ => None
  end.
Definition creations (tr : list Ev) : list Team := omap createdBy tr.

(** What [assertCanCreateOrg] answered, and the slug an organization was
    created with. *)
Definition conflictOf (ev : Ev) : option (option string) :=
  match ev with
  | Called (assertCanCreateOrg _ _ _ _ _) (Ok t) => Some t
  | _ => None
  end.
Definition conflicts (tr : list Ev) : list (option string) := omap conflictOf tr.

Definition creationSlugOf (c : Call) : option (option string) :=
  match c with
  | OrganizationRepository_createWithExistingUserAsOwner _ slug _ _ _ => Some slug
  | _ => None
  end.
Definition creationSlugs (tr : list Ev) : list (option string) :=
  omap creationSlugOf (calls tr).

(** The platform flag as the collaborators of the create-or-reuse step see
    it. *)
Definition platformFlagOf (c : Call) : option bool :=
  match c with
  | assertCanCreateOrg _ isPlatform _ _ _ => Some isPlatform
  | OrganizationRepository_createWithExistingUserAsOwner orgData _ _ _ _ =>
      Some (od_isPlatform orgData)
  | _ => None
  end.
Definition platformFlags (tr : list Ev) : list bool := omap platformFlagOf (calls tr).

(** The lookup the onboarding record asks for. *)
Definition lookupFor (ob : OrganizationOnboarding) : Call :=
  match truthyId (ob_organizationId ob) with
  | Some id => OrganizationRepository_findById id
  | None => OrganizationRepository_findBySlug (ob_slug ob)
  end.

(** The lookup the onboarding record asks for was made, and answered. *)
Definition lookedUp (ob : OrganizationOnboarding) (answer : option Team) (ev : Ev) : Prop :=
  callOf ev = Some (lookupFor ob) /\ lookupAnswer ev = Some answer.

(** A creation was attempted. *)
Definition attemptsCreation (ev : Ev) : bool :=
  match ev with
  | Called c _ => isCreation c
  | Emitted _ => false
  end.

(** Every [target] event of the trace comes after a [guard] event ([seen]:
    one has come already). *)
Fixpoint guarded (guard : Ev -> Prop) (target : Ev -> bool) (seen : Prop) (tr : list Ev)
    : Prop :=
  match tr with
  | [] => True
  | ev :: rest =>
    (target ev = true -> seen) /\ guarded guard target (seen \/ guard ev) rest
  end.

(** A failure inside the [try] block of the creation. *)
Definition creationFailure (ev : Ev) : option JsError :=
  match ev with
  | Called (OrganizationRepository_createWithExistingUserAsOwner _ _ _ _ _) (Err e) => Some e
  | Called (sendOrganizationCreationEmail _) (Err e) => Some e
  | Called (prisma_availability_createMany _) (Err e) => Some e
  | _ => None
  end.
Definition creationFailures (tr : list Ev) : list JsError := omap creationFailure tr.

(** The recordings of an organization id on an onboarding record that were
    attempted. *)
Definition recordingOf (c : Call) : option (Z * Z) :=
  match c with
  | OrganizationOnboardingRepository_setOrganizationId id organizationId =>
      Some (id, organizationId)
  | _ => None
  end.
Definition recordings (tr : list Ev) : list (Z * Z) := omap recordingOf (calls tr).

End Onboarding.

(** ** Seat cancellation (cancelAttendeeSeat) *)

Module SeatCancellation.

(** Imported types, kept as identifiers. *)
Definition Credential : Type := Z.
Definition Calendar : Type := Z.
Definition EventTypeInfo : Type := string.
Definition EventTypeMetadata : Type := string.

Inductive WebhookTriggerEvents : Type := BOOKING_CANCELLED.

(** The fields that are read, record by record. *)
Record Attendee : Type := {
  attendee_id : Z;
  attendee_email : string;
  attendee_name : string;
  attendee_locale : option string
}.

Record SeatReference : Type := {
  referenceUid : string;
  attendeeId : Z
}.

Record BookingReference : Type := {
  ref_type : string;
  ref_uid : string;
  credentialId : option Z;
  externalCalendarId : option string
}.

Record WorkflowReminder : Type := {
  reminder_id : Z;
  seatReferenceId : option string
}.

Record Booking : Type := {
  userId : option Z;
  attendees : list Attendee;
  seatsReferences : list SeatReference;
  references : list BookingReference;
  workflowReminders : list WorkflowReminder;
  smsReminderNumber : option string
}.

(** An attendee of a calendar event: [{ ...attendee, language: { translate, locale } }] *)
Record Person : Type := {
  person_email : string;
  person_name : string;
  person_translate : TFunction;
  person_locale : string
}.

Record CalendarEvent : Type := {
  evt_attendees : list Person;
  evt_bookingId : option Z;
  evt_uid : option string;
  evt_title : string
}.

Record Webhook : Type := {
  webhook_id : string;
  subscriberUrl : string;
  payloadTemplate : option string;
  appId : option string;
  secret : option string
}.

Record DataForWebhooks : Type := {
  webhooks : list Webhook;
  evt : CalendarEvent;
  eventTypeInfo : EventTypeInfo
}.

Record CustomRequest : Type := {
  appDirRequestBody : option Json;
  body : Json;
  bookingToDelete : option Booking
}.

(** [{ ...evt, ...eventTypeInfo, status: "CANCELLED", smsReminderNumber }] *)
Record EventPayloadType : Type := {
  payload_evt : CalendarEvent;
  payload_eventTypeInfo : EventTypeInfo;
  status : string;
  payload_smsReminderNumber : option string
}.

Record CancelResult : Type := { success : bool }.

(** External collaborators. *)
Inductive Call : Type :=
| bookingCancelAttendeeSeatSchema_safeParse (body : Json)
| prisma_bookingSeat_delete (referenceUid : string)
| prisma_attendee_delete (id : Z)
| prisma_credential_findUnique (id : Z)
| updateMeeting (credential : Credential) (updatedEvt : CalendarEvent)
    (reference : BookingReference)
| getCalendar (credential : Credential)
| calendar_updateEvent (calendar : Calendar) (uid : string)
    (updatedEvt : CalendarEvent) (externalCalendarId : option string)
| getTranslation (locale ns : string)
| sendCancelledSeatEmailsAndSMS (evt : CalendarEvent) (attendee : Person)
    (eventTypeMetadata : EventTypeMetadata)
| Date_toISOString
| sendPayload (secret : option string) (trigger : WebhookTriggerEvents)
    (createdAt : string) (webhook : Webhook) (payload : EventPayloadType)
| WorkflowRepository_deleteAllWorkflowReminders (reminders : list WorkflowReminder).

Definition Resp (c : Call) : Type :=
  match c with
  | bookingCancelAttendeeSeatSchema_safeParse _ => option string  (* [data.seatReferenceUid] on success *)
  | prisma_credential_findUnique _ => option Credential
  | getCalendar _ => option Calendar
  | getTranslation _ _ => TFunction
  | Date_toISOString => string
  | _ => unit
  end.

(** Effects that cannot fail: the [logger.error] of the webhook [catch], and
    the two writes to objects owned by the caller. *)
Inductive Output : Type :=
| logger_error (trigger : WebhookTriggerEvents) (URL : string)
    (bookingId : option Z) (bookingUid : option string) (e : JsError)
| req_statusCode (code : Z)
| evt_attendees_assign (attendees : list Person).

Abbreviation M := (Prog Call Resp Output).
Abbreviation Ev := (Event Call Resp Output).

Definition await (c : Call) : M (Resp c) := call c.

(** A call that is started and not awaited on the spot: the promise is kept
    as the outcome it settles with, and the trace records the call where it
    is started.  When a promise settles, and whether a handler is attached
    by then, is not part of the model: a rejection that arrives while the
    loop over the references still awaits a later lookup has no handler yet,
    and what the runtime does with it is outside these traces.  The
    statements below are about what the handler calls and logs, which does
    not depend on it. *)
Definition begin (c : Call) : M (result (Resp c)) := start c.

Definition withAttendees (e : CalendarEvent) (l : list Person) : CalendarEvent :=
  {| evt_attendees := l;
     evt_bookingId := evt_bookingId e;
     evt_uid := evt_uid e;
     evt_title := evt_title e |}.

(** The body of [for (const reference of bookingToDelete.references)]:
    the promises pushed onto [integrationsToUpdate] are kept with the outcome
    they settle with. *)
Fixpoint updateReferences (evt : CalendarEvent) (attendee : Attendee)
    (references : list BookingReference) (integrationsToUpdate : list (result unit))
    : M (list (result unit)) :=
  match references with
  | [] => Ret integrationsToUpdate
  | reference :: rest =>
    (integrationsToUpdate <-
       match truthyId (credentialId reference) with
       | None => Ret integrationsToUpdate
       | Some credentialId =>
         credential <- await (prisma_credential_findUnique credentialId) ;;
         match credential with
         | None => Ret integrationsToUpdate
         | Some credential =>
           let updatedEvt :=
             withAttendees evt
               (List.filter
                  (fun evtAttendee =>
                     negb (String.eqb (attendee_email attendee) (person_email evtAttendee)))
                  (evt_attendees evt)) in
           integrationsToUpdate <-
             (if includesString (ref_type reference) "_video" then
                p <- (begin (updateMeeting credential updatedEvt reference)
                      : M (result unit)) ;;
                Ret (integrationsToUpdate ++ [p])
              else Ret integrationsToUpdate) ;;
           if includesString (ref_type reference) "_calendar" then
             calendar <- await (getCalendar credential) ;;
             match calendar with
             | Some calendar =>
               p <- (begin (calendar_updateEvent calendar (ref_uid reference) updatedEvt
                                                 (externalCalendarId reference))
                     : M (result unit)) ;;
               Ret (integrationsToUpdate ++ [p])
             | None => Ret integrationsToUpdate
             end
           else Ret integrationsToUpdate
         end
       end ;;
     updateReferences evt attendee rest integrationsToUpdate)%prog
  end.

(** [webhooks.map((webhook) => sendPayload(...))]: every delivery is started
    before any of them is awaited. *)
Fixpoint startDeliveries (webhooks : list Webhook) (payload : EventPayloadType)
    : M (list (Webhook * result unit)) :=
  match webhooks with
  | [] => Ret []
  | webhook :: rest =>
    (createdAt <- await Date_toISOString ;;
     p <- (begin (sendPayload (secret webhook) BOOKING_CANCELLED createdAt webhook payload)
           : M (result unit)) ;;
     ps <- startDeliveries rest payload ;;
     Ret ((webhook, p) :: ps))%prog
  end.

(** The [.catch((e) => logger.error(...))] handlers; each one turns its
    promise into a fulfilled one. *)
Fixpoint catchDeliveries (evt : CalendarEvent) (ps : list (Webhook * result unit))
    : M (list (result unit)) :=
  match ps with
  | [] => Ret []
  | (webhook, p) :: rest =>
    match p with
    | Ok v => (qs <- catchDeliveries evt rest ;; Ret (Ok v :: qs))%prog
    | Err e =>
      Emit (logger_error BOOKING_CANCELLED (subscriberUrl webhook)
                         (evt_bookingId evt) (evt_uid evt) e)
           (qs <- catchDeliveries evt rest ;; Ret (Ok tt :: qs))%prog
    end
  end.

Definition toPerson (attendee : Attendee) (translate : TFunction) : Person :=
  {| person_email := attendee_email attendee;
     person_name := attendee_name attendee;
     person_translate := translate;
     person_locale := nullishString (attendee_locale attendee) "en" |}.

Definition cancelAttendeeSeat (req : CustomRequest) (dataForWebhooks : DataForWebhooks)
    (eventTypeMetadata : EventTypeMetadata) : M (option CancelResult) :=
  let body := match appDirRequestBody req with Some b => b | None => body req end in
  (input <- await (bookingCancelAttendeeSeatSchema_safeParse body) ;;
   let webhooks := webhooks dataForWebhooks in
   let evt := evt dataForWebhooks in
   let eventTypeInfo := eventTypeInfo dataForWebhooks in
   match input with
   | None => Ret None
   | Some seatReferenceUid =>
     match bookingToDelete req with
     | None => Ret None
     | Some bookingToDelete =>
       if (length (attendees bookingToDelete) <? 2)%nat then Ret None
       else
         match truthyId (userId bookingToDelete) with
         | None => Throw (HttpError 400 "User not found")
         | Some _ =>
           match List.find (fun reference => String.eqb (referenceUid reference) seatReferenceUid)
                           (seatsReferences bookingToDelete) with
           | None => Throw (HttpError 400 "User not a part of this booking")
           | Some seatReference =>
             d1 <- (begin (prisma_bookingSeat_delete seatReferenceUid) : M (result unit)) ;;
             d2 <- (begin (prisma_attendee_delete (attendeeId seatReference))
                    : M (result unit)) ;;
             awaitAll [d1; d2] ;;;
             Emit (req_statusCode 200)
             (let attendee :=
                List.find (fun attendee => Z.eqb (attendee_id attendee) (attendeeId seatReference))
                          (attendees bookingToDelete) in
              match attendee with
              | Some attendee =>
                integrationsToUpdate <-
                  updateReferences evt attendee (references bookingToDelete) [] ;;
                tryCatch (awaitAll integrationsToUpdate ;;; Ret tt) (fun error => Ret tt) ;;;
                tAttendees <-
                  await (getTranslation (nullishString (attendee_locale attendee) "en") "common") ;;
                await (sendCancelledSeatEmailsAndSMS evt (toPerson attendee tAttendees)
                                                     eventTypeMetadata)
              | None => Ret tt
              end ;;;
              newAttendees <-
                match attendee with
                | Some attendee =>
                  translate <-
                    await (getTranslation (nullishString (attendee_locale attendee) "en") "common") ;;
                  Ret [toPerson attendee translate]
                | None => Ret []
                end ;;
              Emit (evt_attendees_assign newAttendees)
              (let evt := withAttendees evt newAttendees in
               let payload :=
                 {| payload_evt := evt;
                    payload_eventTypeInfo := eventTypeInfo;
                    status := "CANCELLED";
                    payload_smsReminderNumber :=
                      match smsReminderNumber bookingToDelete with
                      | Some (String a s) => Some (String a s)
                      | _ => None
                      end |} in
               started <- startDeliveries webhooks payload ;;
               promises <- catchDeliveries evt started ;;
               awaitAll promises ;;;
               let workflowRemindersForAttendee :=
                 List.filter
                   (fun reminder =>
                      match seatReferenceId reminder with
                      | Some s => String.eqb s seatReferenceUid
                      | None => false
                      end)
                   (workflowReminders bookingToDelete) in
               await (WorkflowRepository_deleteAllWorkflowReminders workflowRemindersForAttendee) ;;;
               Ret (Some {| success := true |})))
           end
         end
     end
   end)%prog.

(** *** Vocabulary of the statements *)

(** The updates of the external calendar and video integrations. *)
Definition isIntegrationUpdate (c : Call) : bool :=
  match c with
  | updateMeeting _ _ _ | calendar_updateEvent _ _ _ _ => true
  | _ => false
  end.

(** An integration update that was rejected. *)
Definition failedIntegration (ev : Ev) : bool :=
  match ev with
  | Called c (Err _) => isIntegrationUpdate c
  | _ => false
  end.

(** Deliveries in the order they were started, with their outcome. *)
Definition deliveryOf (ev : Ev) : option (Webhook * bool) :=
  match ev with
  | Called (sendPayload _ _ _ webhook _) r => Some (webhook, isOk r)
  | _ => None
  end.
Definition deliveries (tr : list Ev) : list (Webhook * bool) := omap deliveryOf tr.

(** The subscriber URLs named by error-level log entries. *)
Definition loggedUrl (ev : Ev) : option string :=
  match ev with
  | Emitted (logger_error _ URL _ _ _) => Some URL
  | _ => None
  end.
Definition loggedUrls (tr : list Ev) : list string := omap loggedUrl tr.

Definition failedUrls (ds : list (Webhook * bool)) : list string :=
  List.map (fun d => subscriberUrl (fst d)) (List.filter (fun d => negb (snd d)) ds).

End SeatCancellation.

(** ** Sample environments *)

(** [fields[k]] of a JSON object *)
Definition jsonField (k : string) (fields : list (string * Json)) : option Json :=
  match List.find (fun kv => String.eqb (fst kv) k) fields with
  | Some kv => Some (snd kv)
  | None => None
  end.

(** A schema check over an array, item by item. *)
Definition parseArray {A} (item : Json -> option A) (raw : Json) : result (list A) :=
  match raw with
  | JArray items =>
    match mapM item items with
    | Some l => Ok l
    | None => Err (ZodError "Invalid input")
    end
  | _ => Err (ZodError "Expected array")
  end.

Module OnboardingWorld.
Import Onboarding.

(** Modelled from the spec: the repository layer, domain provisioning, mail
    delivery, schema validation, member invitation and team creation are
    collaborators whose code is not part of the sources.  This store keeps
    what sections 3, 4.2 and 6 of the specification say about them: users
    are found by e-mail, organizations by id or by slug, a slug conflicts
    while the owner is a member of a team that has it, moving that team
    into the organization lifts the conflict, and the onboarding record
    remembers the organization attached to it. *)
Record World : Type := {
  users : list Owner;
  organizations : list Team;
  onboardingOrganization : gmap Z Z;
  memberTeamSlugs : list string;
  outbox : list CreationEmail;
  mailDown : bool
}.

Definition withOrganizations (w : World) (l : list Team) : World :=
  {| users := users w; organizations := l;
     onboardingOrganization := onboardingOrganization w;
     memberTeamSlugs := memberTeamSlugs w; outbox := outbox w; mailDown := mailDown w |}.

Definition withOnboardingOrganization (w : World) (m : gmap Z Z) : World :=
  {| users := users w; organizations := organizations w;
     onboardingOrganization := m;
     memberTeamSlugs := memberTeamSlugs w; outbox := outbox w; mailDown := mailDown w |}.

Definition withMemberTeamSlugs (w : World) (l : list string) : World :=
  {| users := users w; organizations := organizations w;
     onboardingOrganization := onboardingOrganization w;
     memberTeamSlugs := l; outbox := outbox w; mailDown := mailDown w |}.

Definition withOutbox (w : World) (l : list CreationEmail) : World :=
  {| users := users w; organizations := organizations w;
     onboardingOrganization := onboardingOrganization w;
     memberTeamSlugs := memberTeamSlugs w; outbox := l; mailDown := mailDown w |}.

Definition withMailDown (w : World) (b : bool) : World :=
  {| users := users w; organizations := organizations w;
     onboardingOrganization := onboardingOrganization w;
     memberTeamSlugs := memberTeamSlugs w; outbox := outbox w; mailDown := b |}.

Definition hasSlug (slug : string) (o : Team) : bool :=
  match team_slug o with
  | Some s => String.eqb s slug
  | None => false
  end.

Definition withSlug (slug : string) (o : Team) : Team :=
  {| team_id := team_id o; team_name := team_name o; team_slug := Some slug |}.

Definition parseMember (j : Json) : option InvitedMember :=
  match j with
  | JObject fields =>
    match jsonField "email" fields with
    | Some (JString e) =>
      if includesString e "@" then
        match jsonField "name" fields with
        | None => Some {| im_email := e; im_name := None |}
        | Some (JString n) => Some {| im_email := e; im_name := Some n |}
        | Some _ => None
        end
      else None
    | _ => None
    end
  | _ => None
  end.

Definition parseTeam (j : Json) : option TeamData :=
  match j with
  | JObject fields =>
    match jsonField "id" fields, jsonField "name" fields,
          jsonField "isBeingMigrated" fields, jsonField "slug" fields with
    | Some (JNumber (JS.Fin q)), Some (JString n), Some (JBool b), Some (JString s) =>
      Some {| td_id := Qfloor q; td_name := n; isBeingMigrated := b; td_slug := s |}
    | _, _, _, _ => None
    end
  | _ => None
  end.

Definition env (c : Call) : World -> result (Resp c) * World :=
  match c as c' return World -> result (Resp c') * World with
  | findUserToBeOrgOwner email => fun w =>
      (Ok (List.find (fun u => String.eqb (owner_email u) email) (users w)), w)
  | getTranslation locale _ => fun w => (Ok locale, w)
  | setupDomain _ _ _ _ => fun w => (Ok tt, w)
  | OrganizationRepository_findById id => fun w =>
      (Ok (List.find (fun o => Z.eqb (team_id o) id) (organizations w)), w)
  | OrganizationRepository_findBySlug slug => fun w =>
      (Ok (List.find (hasSlug slug) (organizations w)), w)
  | assertCanCreateOrg slug _ _ _ _ => fun w =>
      (Ok (if existsb (String.eqb slug) (memberTeamSlugs w)
           then Some "teamUserIsMemberOfExists" else None), w)
  | OrganizationRepository_createWithExistingUserAsOwner orgData slug _ _ nonOrgUsername =>
      fun w =>
      let org := {| team_id := Z.of_nat (length (organizations w)) + 1;
                    team_name := od_name orgData;
                    team_slug := slug |} in
      (Ok {| created_organization := org; ownerProfile_username := nonOrgUsername |},
       withOrganizations w (organizations w ++ [org]))
  | sendOrganizationCreationEmail mail => fun w =>
      if mailDown w then (Err (Rejected "mail service unavailable"), w)
      else (Ok tt, withOutbox w (outbox w ++ [mail]))
  | prisma_availability_createMany _ => fun w => (Ok tt, w)
  | OrganizationOnboardingRepository_setOrganizationId id organizationId => fun w =>
      (Ok tt, withOnboardingOrganization w (<[id := organizationId]> (onboardingOrganization w)))
  | parseInvitedMembers raw => fun w => (parseArray parseMember raw, w)
  | parseTeams raw => fun w => (parseArray parseTeam raw, w)
  | inviteMembersWithNoInviterPermissionCheck _ _ _ _ _ _ => fun w => (Ok tt, w)
  | createTeamsHandler _ _ _ _ moveTeams _ => fun w =>
      (Ok tt,
       withMemberTeamSlugs w
         (List.filter
            (fun s => negb (existsb (fun m => String.eqb (newSlug m) s) moveTeams))
            (memberTeamSlugs w)))
  | OrganizationRepository_setSlug id slug => fun w =>
      (Ok tt,
       withOrganizations w
         (List.map (fun o => if Z.eqb (team_id o) id then withSlug slug o else o)
                   (organizations w)))
  end.

(** The onboarding record as the caller reads it back before a retry. *)
Definition reread (w : World) (ob : OrganizationOnboarding) : OrganizationOnboarding :=
  {| ob_id := ob_id ob;
     ob_organizationId := onboardingOrganization w !! ob_id ob;
     ob_name := ob_name ob;
     ob_slug := ob_slug ob;
     orgOwnerEmail := orgOwnerEmail ob;
     ob_seats := ob_seats ob;
     ob_pricePerSeat := ob_pricePerSeat ob;
     ob_billingPeriod := ob_billingPeriod ob;
     invitedMembers := invitedMembers ob;
     teams := teams ob;
     ob_isPlatform := ob_isPlatform ob;
     logo := logo ob;
     bio := bio ob |}.

Definition ada : Owner :=
  {| owner_id := 7; owner_email := "ada@acme.test";
     owner_username := Some "ada"; owner_locale := None |}.

Definition initial : World :=
  {| users := [ada]; organizations := []; onboardingOrganization := ∅;
     memberTeamSlugs := []; outbox := []; mailDown := false |}.

(** The owner is a member of a team that already has the slug [acme]. *)
Definition conflicting : World := withMemberTeamSlugs initial ["acme"].

Definition onboardingOf (isPlatform : bool) (teams : Json) : OrganizationOnboarding :=
  {| ob_id := 1;
     ob_organizationId := None;
     ob_name := "Acme";
     ob_slug := "acme";
     orgOwnerEmail := "ada@acme.test";
     ob_seats := Some (JS.ofZ 5);
     ob_pricePerSeat := Some (JS.ofZ 20);
     ob_billingPeriod := Some MONTHLY;
     invitedMembers := JArray [JObject [("email", JString "bob@acme.test")]];
     teams := teams;
     ob_isPlatform := isPlatform;
     logo := None;
     bio := None |}.

Definition acmeOnboarding : OrganizationOnboarding := onboardingOf false (JArray []).
Definition platformOnboarding : OrganizationOnboarding := onboardingOf true (JArray []).
Definition migratingOnboarding : OrganizationOnboarding :=
  onboardingOf false
    (JArray [JObject [("id", JNumber (JS.ofZ 3)); ("name", JString "Acme");
                      ("isBeingMigrated", JBool true); ("slug", JString "acme")]]).

Definition finalize (ob : OrganizationOnboarding) (w : World) :=
  run env (createOrganizationFromOnboarding ob "sub_1") w.

(** A first delivery of the payment webhook, and its redelivery. *)
Definition firstRun := finalize acmeOnboarding initial.
Definition secondRun := finalize (reread (world firstRun) acmeOnboarding) (world firstRun).

Definition platformRun := finalize platformOnboarding initial.
Definition migratingRun := finalize migratingOnboarding conflicting.

(** A first delivery during which the mail service is down, for an owner
    whose team still holds the slug, and the redelivery once mail works
    again. *)
Definition failedDelivery := finalize migratingOnboarding (withMailDown conflicting true).
Definition redelivery :=
  finalize (reread (world failedDelivery) migratingOnboarding)
           (withMailDown (world failedDelivery) false).

(** The organization of the sample runs, with its slug and before it has one. *)
Definition acme : Team :=
  {| team_id := 1; team_name := "Acme"; team_slug := Some "acme" |}.
Definition acmePending : Team :=
  {| team_id := 1; team_name := "Acme"; team_slug := None |}.

End OnboardingWorld.

Module SeatCancellationWorld.
Import SeatCancellation.

(** Providers that are down and subscribers that cannot be reached. *)
Record World : Type := {
  failingCredentials : list Z;
  failingUrls : list string
}.

Definition parseBody (raw : Json) : option string :=
  match raw with
  | JObject fields =>
    match jsonField "seatReferenceUid" fields with
    | Some (JString s) => Some s
    | _ => None
    end
  | _ => None
  end.

Definition settle (down : bool) (reason : string) : result unit :=
  if down then Err (Rejected reason) else Ok tt.

(** Modelled from the spec: the database, the schema check, the calendar
    and video integrations, the mailer, the clock and the webhook sender are
    collaborators whose code is not part of the sources; here every one of
    them answers, except the integrations and the subscribers that are
    listed as down. *)

Definition env (c : Call) : World -> result (Resp c) * World :=
  match c as c' return World -> result (Resp c') * World with
  | bookingCancelAttendeeSeatSchema_safeParse raw => fun w => (Ok (parseBody raw), w)
  | prisma_bookingSeat_delete _ => fun w => (Ok tt, w)
  | prisma_attendee_delete _ => fun w => (Ok tt, w)
  | prisma_credential_findUnique id => fun w => (Ok (Some id), w)
  | updateMeeting credential _ _ => fun w =>
      (settle (existsb (Z.eqb credential) (failingCredentials w)) "video provider unavailable", w)
  | getCalendar credential => fun w => (Ok (Some credential), w)
  | calendar_updateEvent calendar _ _ _ => fun w =>
      (settle (existsb (Z.eqb calendar) (failingCredentials w)) "calendar provider unavailable", w)
  | getTranslation locale _ => fun w => (Ok locale, w)
  | sendCancelledSeatEmailsAndSMS _ _ _ => fun w => (Ok tt, w)
  | Date_toISOString => fun w => (Ok "2024-01-01T00:00:00.000Z", w)
  | sendPayload _ _ _ webhook _ => fun w =>
      (settle (existsb (String.eqb (subscriberUrl webhook)) (failingUrls w))
              "subscriber unreachable", w)
  | WorkflowRepository_deleteAllWorkflowReminders _ => fun w => (Ok tt, w)
  end.

Definition seatRequest : CustomRequest :=
  {| appDirRequestBody := None;
     body := JObject [("seatReferenceUid", JString "seat-2")];
     bookingToDelete :=
       Some {| userId := Some 7;
               attendees :=
                 [ {| attendee_id := 1; attendee_email := "ann@x.test";
                      attendee_name := "Ann"; attendee_locale := None |};
                   {| attendee_id := 2; attendee_email := "ben@x.test";
                      attendee_name := "Ben"; attendee_locale := Some "fr" |} ];
               seatsReferences :=
                 [ {| referenceUid := "seat-1"; attendeeId := 1 |};
                   {| referenceUid := "seat-2"; attendeeId := 2 |} ];
               references :=
                 [ {| ref_type := "daily_video"; ref_uid := "v1";
                      credentialId := Some 11; externalCalendarId := None |};
                   {| ref_type := "google_calendar"; ref_uid := "c1";
                      credentialId := Some 12; externalCalendarId := Some "primary" |} ];
               workflowReminders := [ {| reminder_id := 1; seatReferenceId := Some "seat-2" |} ];
               smsReminderNumber := None |} |}.

Definition hookA : Webhook :=
  {| webhook_id := "a"; subscriberUrl := "https://a.test/hook";
     payloadTemplate := None; appId := None; secret := None |}.
Definition hookB : Webhook :=
  {| webhook_id := "b"; subscriberUrl := "https://b.test/hook";
     payloadTemplate := None; appId := None; secret := Some "s" |}.

Definition seatData : DataForWebhooks :=
  {| webhooks := [hookA; hookB];
     evt := {| evt_attendees :=
                 [ {| person_email := "ann@x.test"; person_name := "Ann";
                      person_translate := "en"; person_locale := "en" |};
                   {| person_email := "ben@x.test"; person_name := "Ben";
                      person_translate := "fr"; person_locale := "fr" |} ];
               evt_bookingId := Some 42;
               evt_uid := Some "bk-42";
               evt_title := "Workshop" |};
     eventTypeInfo := "workshop" |}.

Definition cancel (w : World) :=
  run env (cancelAttendeeSeat seatRequest seatData "{}") w.

(** The calendar provider is down; every subscriber is reachable.  The
    update of the calendar event is the last promise pushed by the loop,
    with no [await] between the push and [Promise.all]. *)
Definition calendarDownRun := cancel {| failingCredentials := [12]; failingUrls := [] |}.

(** The calendar provider and the first subscriber are down. *)
Definition degradedRun :=
  cancel {| failingCredentials := [12]; failingUrls := ["https://a.test/hook"] |}.

End SeatCancellationWorld.

(** ** More runs of the lead-threshold filter *)

Module LeadThresholdCases.
Import JS LeadThreshold.

(** Two hosts that share one user, and a host the ranking does not know. *)
Definition mkHostAt (i created : Z) : BaseHost :=
  {| isFixed := false; createdAt := created; priority := None; weight := None;
     weightAdjustment := None; user := mkUser i |}.

(** The ranking function is down. *)
Definition rankingDownRun :=
  run (rankingEnv (fun _ => Err (Rejected "ranking unavailable")))
      (filterHostsByLeadThreshold [mkHost 1; mkHost 2] (Some (ofZ 3)) (mkEventType false))
      0%nat.

(** The unweighted sample with a zero threshold and with a wider one. *)
Definition zeroThresholdRun :=
  filterWith unweightedData [mkHost 1; mkHost 2; mkHost 3] 0 false 0.
Definition wideThresholdRun :=
  filterWith unweightedData [mkHost 1; mkHost 2; mkHost 3] 6 false 0.

(** The unweighted sample asked about a fourth host, and about the second
    user twice. *)
Definition strangerRun :=
  filterWith unweightedData [mkHost 1; mkHost 4; mkHost 2] 3 false 0.
Definition sharedUserRun :=
  filterWith unweightedData [mkHostAt 2 10; mkHost 3; mkHostAt 2 20] 3 false 0.

(** The weighted sample with twice the threshold. *)
Definition weightedWideRun := filterWith weightedData [mkHost 1; mkHost 2] 12 true 0.

(** A weighted ranking that has lost the shortfall of the first user and the
    weight of the second. *)
Definition patchyData : LuckyUsers :=
  {| perUserData :=
       {| bookingsCount := numMap [(1, 7); (2, 4)];
          weights := Some (numMap [(1, 100)]);
          calibrations := Some (numMap [(1, 0); (2, 0)]);
          bookingShortfalls := Some (numMap [(2, -50)]) |} |}.
Definition patchyRun := filterWith patchyData [mkHost 1; mkHost 2] 6 true 0.

(** A weighted ranking whose weights are all zero. *)
Definition weightlessData : LuckyUsers :=
  {| perUserData :=
       {| bookingsCount := numMap [(1, 7); (2, 4)];
          weights := Some (numMap [(1, 0); (2, 0)]);
          calibrations := Some (numMap [(1, 0); (2, 0)]);
          bookingShortfalls := Some (numMap [(1, -5); (2, -2)]) |} |}.
Definition weightlessRun := filterWith weightlessData [mkHost 1; mkHost 2] 6 true 0.

(** [x] is a finite number that is not negative. *)
Definition nonNegative (x : number) : bool :=
  match x with
  | Fin q => Qle_bool 0 q
  | _ => false
  end.

(** [x] is zero. *)
Definition isZero (x : number) : bool :=
  match x with
  | Fin q => Qeq_bool q 0
  | _ => false
  end.

(** What a share of a total weight can be when no weight is negative: not
    a negative number. *)
Definition shareLike (p : number) : bool :=
  match p with
  | NaN | PosInf => true
  | Fin q => Qle_bool 0 q
  | NegInf => false
  end.

End LeadThresholdCases.

(** ** More about the traces of the onboarding finalizer *)

Module OnboardingTraces.
Import Onboarding OnboardingWorld.

(** What [findUserToBeOrgOwner] answered. *)
Definition ownerAnswer (ev : Ev) : option (option Owner) :=
  match ev with
  | Called (findUserToBeOrgOwner _) (Ok o) => Some o
  | _ => None
  end.
Definition ownerAnswers (tr : list Ev) : list (option Owner) := omap ownerAnswer tr.

(** Every call but the search for the owner, the translations and the set-up
    of the domain. *)
Definition touchesOrganization (c : Call) : bool :=
  match c with
  | findUserToBeOrgOwner _ | getTranslation _ _ | setupDomain _ _ _ _ => false
  | _ => true
  end.

(** The error-level log. *)
Definition errorLogOf (ev : Ev) : option LogEntry :=
  match ev with
  | Emitted l => Some l
  | Called _ _ => None
  end.
Definition errorLogs (tr : list Ev) : list LogEntry := omap errorLogOf tr.

(** What comes after the create-or-reuse step. *)
Definition followsCreation (c : Call) : bool :=
  match c with
  | OrganizationOnboardingRepository_setOrganizationId _ _
  | parseInvitedMembers _ | parseTeams _
  | inviteMembersWithNoInviterPermissionCheck _ _ _ _ _ _
  | createTeamsHandler _ _ _ _ _ _
  | OrganizationRepository_setSlug _ _ => true
  | _ => false
  end.

(** The schema checks of the stored payloads. *)
Definition parsedMembersOf (ev : Ev) : option (list InvitedMember) :=
  match ev with
  | Called (parseInvitedMembers _) (Ok l) => Some l
  | _ => None
  end.
Definition parsedMembers (tr : list Ev) : list (list InvitedMember) := omap parsedMembersOf tr.

Definition parsedTeamsOf (ev : Ev) : option (list TeamData) :=
  match ev with
  | Called (parseTeams _) (Ok l) => Some l
  | _ => None
  end.
Definition parsedTeams (tr : list Ev) : list (list TeamData) := omap parsedTeamsOf tr.

Definition parseFailure (ev : Ev) : option JsError :=
  match ev with
  | Called (parseInvitedMembers _) (Err e) => Some e
  | Called (parseTeams _) (Err e) => Some e
  | _ => None
  end.
Definition parseFailures (tr : list Ev) : list JsError := omap parseFailure tr.

(** What the payloads are used for. *)
Definition usesPayload (c : Call) : bool :=
  match c with
  | inviteMembersWithNoInviterPermissionCheck _ _ _ _ _ _
  | createTeamsHandler _ _ _ _ _ _
  | OrganizationRepository_setSlug _ _ => true
  | _ => false
  end.

(** The invitations sent: inviter, team and invitations. *)
Definition inviteOf (c : Call) : option (option string * Z * list Invitation) :=
  match c with
  | inviteMembersWithNoInviterPermissionCheck inviterName teamId _ _ _ invitations =>
      Some (inviterName, teamId, invitations)
  | _ => None
  end.
Definition invites (tr : list Ev) : list (option string * Z * list Invitation) :=
  omap inviteOf (calls tr).

Definition invitationOf (member : InvitedMember) : Invitation :=
  {| usernameOrEmail := im_email member; role := MEMBER |}.

(** The team requests sent: names to create, organization and teams to move. *)
Definition teamsRequestOf (c : Call) : option (list string * Z * list MoveTeam) :=
  match c with
  | createTeamsHandler _ _ teamNames orgId moveTeams _ => Some (teamNames, orgId, moveTeams)
  | _ => None
  end.
Definition teamsRequests (tr : list Ev) : list (list string * Z * list MoveTeam) :=
  omap teamsRequestOf (calls tr).

Definition moveOf (team : TeamData) : MoveTeam :=
  {| mt_id := td_id team; newSlug := td_slug team; shouldMove := true |}.

(** The organization data handed to the creation. *)
Definition creationDataOf (c : Call) : option OrganizationData :=
  match c with
  | OrganizationRepository_createWithExistingUserAsOwner orgData _ _ _ _ => Some orgData
  | _ => None
  end.
Definition creationData (tr : list Ev) : list OrganizationData :=
  omap creationDataOf (calls tr).

(** Whether a character occurs in a string. *)
Fixpoint occurs (sep : Ascii.ascii) (s : string) : bool :=
  match s with
  | EmptyString => false
  | String a rest => if Ascii.eqb a sep then true else occurs sep rest
  end.

(** Nothing, or something that starts with the separator. *)
Definition separated (sep : Ascii.ascii) (rest : string) : bool :=
  match rest with
  | EmptyString => true
  | String a _ => Ascii.eqb a sep
  end.

(** *** More runs *)

Definition strangerOnboarding : OrganizationOnboarding :=
  {| ob_id := 2;
     ob_organizationId := None;
     ob_name := "Nobody";
     ob_slug := "nobody";
     orgOwnerEmail := "nobody";
     ob_seats := None;
     ob_pricePerSeat := None;
     ob_billingPeriod := None;
     invitedMembers := JArray [];
     teams := JArray [];
     ob_isPlatform := false;
     logo := None;
     bio := None |}.

(** The owner of the record is unknown. *)
Definition unknownOwnerRun := finalize strangerOnboarding initial.

(** The mail service is down during the first delivery. *)
Definition mailDownRun := finalize acmeOnboarding (withMailDown initial true).

(** The stored teams payload is not an array. *)
Definition brokenTeamsRun := finalize (onboardingOf false (JString "teams")) initial.

(** One team to create and one to move. *)
Definition mixedTeamsOnboarding : OrganizationOnboarding :=
  onboardingOf false
    (JArray [JObject [("id", JNumber (JS.ofZ 0)); ("name", JString "Sales");
                      ("isBeingMigrated", JBool false); ("slug", JString "sales")];
             JObject [("id", JNumber (JS.ofZ 3)); ("name", JString "Support");
                      ("isBeingMigrated", JBool true); ("slug", JString "support")]]).
Definition mixedTeamsRun := finalize mixedTeamsOnboarding initial.

Definition bob : InvitedMember := {| im_email := "bob@acme.test"; im_name := None |}.

End OnboardingTraces.

(** ** More about the traces of the seat cancellation *)

Module SeatCancellationTraces.
Import SeatCancellation SeatCancellationWorld.

Definition callOf (ev : Ev) : option Call :=
  match ev with
  | Called c _ => Some c
  | Emitted _ => None
  end.
Definition calls (tr : list Ev) : list Call := omap callOf tr.

Definition outputOf (ev : Ev) : option Output :=
  match ev with
  | Emitted o => Some o
  | Called _ _ => None
  end.
Definition outputs (tr : list Ev) : list Output := omap outputOf tr.

(** The two deletes. *)
Definition isWrite (c : Call) : bool :=
  match c with
  | prisma_bookingSeat_delete _ | prisma_attendee_delete _ => true
  | _ => false
  end.

Definition deleteOutcomeOf (ev : Ev) : option bool :=
  match ev with
  | Called (prisma_bookingSeat_delete _) r => Some (isOk r)
  | Called (prisma_attendee_delete _) r => Some (isOk r)
  | _ => None
  end.
Definition deleteOutcomes (tr : list Ev) : list bool := omap deleteOutcomeOf tr.

(** What the schema check answered: the [seatReferenceUid] of the body, or
    nothing for a body that does not parse. *)
Definition parsedOf (ev : Ev) : option (option string) :=
  match ev with
  | Called (bookingCancelAttendeeSeatSchema_safeParse _) (Ok input) => Some input
  | _ => None
  end.
Definition parsed (tr : list Ev) : list (option string) := omap parsedOf tr.

(** The credentials and calendars that were found. *)
Definition foundCredentialOf (ev : Ev) : option (Z * Credential) :=
  match ev with
  | Called (prisma_credential_findUnique id) (Ok (Some credential)) => Some (id, credential)
  | _ => None
  end.
Definition foundCredentials (tr : list Ev) : list (Z * Credential) := omap foundCredentialOf tr.

Definition foundCalendarOf (ev : Ev) : option (Credential * Calendar) :=
  match ev with
  | Called (getCalendar credential) (Ok (Some calendar)) => Some (credential, calendar)
  | _ => None
  end.
Definition foundCalendars (tr : list Ev) : list (Credential * Calendar) := omap foundCalendarOf tr.

(** The event handed to an integration. *)
Definition updatedEventOf (c : Call) : option CalendarEvent :=
  match c with
  | updateMeeting _ updatedEvt _ => Some updatedEvt
  | calendar_updateEvent _ _ updatedEvt _ => Some updatedEvt
  | _ => None
  end.
Definition updatedEvents (tr : list Ev) : list CalendarEvent := omap updatedEventOf (calls tr).

(** The calls that are made for the attendee who leaves. *)
Definition reachesAttendee (c : Call) : bool :=
  match c with
  | prisma_credential_findUnique _ | updateMeeting _ _ _ | getCalendar _
  | calendar_updateEvent _ _ _ _ | getTranslation _ _
  | sendCancelledSeatEmailsAndSMS _ _ _ => true
  | _ => false
  end.

Definition isErrorLog (o : Output) : bool :=
  match o with
  | logger_error _ _ _ _ _ => true
  | _ => false
  end.

(** The body that is parsed, and the two look-ups of the handler. *)
Definition bodyOf (req : CustomRequest) : Json :=
  match appDirRequestBody req with Some b => b | None => body req end.

Definition attendeeCount (req : CustomRequest) : nat :=
  match bookingToDelete req with
  | Some booking => length (attendees booking)
  | None => 0
  end.

Definition seatOf (booking : Booking) (seatReferenceUid : string) : option SeatReference :=
  List.find (fun reference => String.eqb (referenceUid reference) seatReferenceUid)
            (seatsReferences booking).

Definition attendeeOf (booking : Booking) (seatReference : SeatReference) : option Attendee :=
  List.find (fun attendee => Z.eqb (attendee_id attendee) (attendeeId seatReference))
            (attendees booking).

(** [{ ...evt, attendees: evt.attendees.filter(...) }] *)
Definition withoutAttendee (evt : CalendarEvent) (attendee : Attendee) : CalendarEvent :=
  withAttendees evt
    (List.filter
       (fun evtAttendee => negb (String.eqb (attendee_email attendee) (person_email evtAttendee)))
       (evt_attendees evt)).

(** What the loop over the references may call. *)
Definition loopCall (evt : CalendarEvent) (attendee : Attendee)
    (references : list BookingReference) (tr : list Ev) (c : Call) : Prop :=
  match c with
  | prisma_credential_findUnique id =>
      exists reference, In reference references /\ truthyId (credentialId reference) = Some id
  | updateMeeting credential updatedEvt reference =>
      In reference references /\
      includesString (ref_type reference) "_video" = true /\
      updatedEvt = withoutAttendee evt attendee /\
      exists id, truthyId (credentialId reference) = Some id /\
                 In (id, credential) (foundCredentials tr)
  | getCalendar credential =>
      exists reference id,
        In reference references /\
        includesString (ref_type reference) "_calendar" = true /\
        truthyId (credentialId reference) = Some id /\
        In (id, credential) (foundCredentials tr)
  | calendar_updateEvent calendar uid updatedEvt externalId =>
      exists reference id credential,
        In reference references /\
        includesString (ref_type reference) "_calendar" = true /\
        uid = ref_uid reference /\ externalId = externalCalendarId reference /\
        updatedEvt = withoutAttendee evt attendee /\
        truthyId (credentialId reference) = Some id /\
        In (id, credential) (foundCredentials tr) /\
        In (credential, calendar) (foundCalendars tr)
  | _ => False
  end.

(** What the delivery of the webhooks and the end of the handler may call. *)
Definition deliveryCall (hooks : list Webhook) (payload : EventPayloadType)
    (reminders : list WorkflowReminder) (c : Call) : Prop :=
  match c with
  | Date_toISOString => True
  | sendPayload secret' _ _ webhook payload' =>
      In webhook hooks /\ secret' = secret webhook /\ payload' = payload
  | WorkflowRepository_deleteAllWorkflowReminders reminders' => reminders' = reminders
  | _ => False
  end.

(** The payload of the webhooks, once [evt.attendees] is overwritten. *)
Definition payloadOf (data : DataForWebhooks) (booking : Booking) (newAttendees : list Person)
    : EventPayloadType :=
  {| payload_evt := withAttendees (evt data) newAttendees;
     payload_eventTypeInfo := eventTypeInfo data;
     status := "CANCELLED";
     payload_smsReminderNumber :=
       match smsReminderNumber booking with
       | Some (String a s) => Some (String a s)
       | _ => None
       end |}.

Definition remindersOf (booking : Booking) (seatReferenceUid : string) : list WorkflowReminder :=
  List.filter
    (fun reminder =>
       match seatReferenceId reminder with
       | Some s => String.eqb s seatReferenceUid
       | None => false
       end)
    (workflowReminders booking).

(** What is called for the attendee between the loop and the webhooks. *)
Definition attendeeCall (evt : CalendarEvent) (meta : EventTypeMetadata) (attendee : Attendee)
    (c : Call) : Prop :=
  match c with
  | getTranslation locale ns =>
      locale = nullishString (attendee_locale attendee) "en" /\ ns = "common"
  | sendCancelledSeatEmailsAndSMS evt' person meta' =>
      evt' = evt /\ meta' = meta /\ exists translate, person = toPerson attendee translate
  | _ => False
  end.

(** What may be called once the seat and the attendee are deleted. *)
Definition tailCall (data : DataForWebhooks) (meta : EventTypeMetadata) (booking : Booking)
    (seatReferenceUid : string) (attendee : option Attendee) (tr : list Ev) (c : Call) : Prop :=
  match attendee with
  | Some attendee =>
      loopCall (evt data) attendee (references booking) tr c \/
      attendeeCall (evt data) meta attendee c \/
      exists translate,
        deliveryCall (webhooks data) (payloadOf data booking [toPerson attendee translate])
                     (remindersOf booking seatReferenceUid) c
  | None =>
      deliveryCall (webhooks data) (payloadOf data booking [])
                   (remindersOf booking seatReferenceUid) c
  end.

(** What may be written once the seat and the attendee are deleted. *)
Definition tailOutput (attendee : option Attendee) (o : Output) : Prop :=
  match o with
  | logger_error _ _ _ _ _ => True
  | evt_attendees_assign newAttendees =>
      match attendee with
      | Some attendee => exists translate, newAttendees = [toPerson attendee translate]
      | None => newAttendees = []
      end
  | req_statusCode _ => False
  end.

(** The seat the request names, and the attendee who leaves. *)
Definition requested (tr : list Ev) : option string :=
  match tr with
  | Called (bookingCancelAttendeeSeatSchema_safeParse _) (Ok (Some seatReferenceUid)) :: _ =>
      Some seatReferenceUid
  | _ => None
  end.

Definition cancelled (req : CustomRequest) (tr : list Ev) : option Attendee :=
  match requested tr, bookingToDelete req with
  | Some seatReferenceUid, Some booking =>
      match seatOf booking seatReferenceUid with
      | Some seatReference => attendeeOf booking seatReference
      | None => None
      end
  | _, _ => None
  end.

(** *** More runs *)

(** The seat table is down as well. *)
Record Outage : Type := {
  seatTableDown : bool;
  services : World
}.

(** As the sample environment of the cancellation, except for the delete of
    the seat, which is rejected while the seat table is down. *)
Definition envDuring (c : Call) : Outage -> result (Resp c) * Outage :=
  match c as c' return Outage -> result (Resp c') * Outage with
  | prisma_bookingSeat_delete _ => fun o =>
      (settle (seatTableDown o) "seat table unavailable", o)
  | c' => fun o =>
      let (r, w) := env c' (services o) in
      (r, {| seatTableDown := seatTableDown o; services := w |})
  end.

Definition allUp : World := {| failingCredentials := []; failingUrls := [] |}.

Definition seatTableDownRun :=
  run envDuring (cancelAttendeeSeat seatRequest seatData "{}")
      {| seatTableDown := true; services := allUp |}.

Definition withBooking (req : CustomRequest) (booking : Booking) : CustomRequest :=
  {| appDirRequestBody := appDirRequestBody req;
     body := body req;
     bookingToDelete := Some booking |}.

Definition ann : Attendee :=
  {| attendee_id := 1; attendee_email := "ann@x.test";
     attendee_name := "Ann"; attendee_locale := None |}.
Definition ben : Attendee :=
  {| attendee_id := 2; attendee_email := "ben@x.test";
     attendee_name := "Ben"; attendee_locale := Some "fr" |}.

Definition bookingOf (userId : option Z) (attendees : list Attendee)
    (seats : list SeatReference) : Booking :=
  {| userId := userId;
     attendees := attendees;
     seatsReferences := seats;
     references :=
       [ {| ref_type := "daily_video"; ref_uid := "v1";
            credentialId := Some 11; externalCalendarId := None |};
         {| ref_type := "google_calendar"; ref_uid := "c1";
            credentialId := Some 12; externalCalendarId := Some "primary" |};
         {| ref_type := "zoom_video"; ref_uid := "v2";
            credentialId := None; externalCalendarId := None |} ];
     workflowReminders :=
       [ {| reminder_id := 1; seatReferenceId := Some "seat-2" |};
         {| reminder_id := 2; seatReferenceId := Some "seat-1" |};
         {| reminder_id := 3; seatReferenceId := None |} ];
     smsReminderNumber := Some "" |}.

Definition seats : list SeatReference :=
  [ {| referenceUid := "seat-1"; attendeeId := 1 |};
    {| referenceUid := "seat-2"; attendeeId := 2 |} ].

Definition cancelOf (booking : Booking) :=
  run env (cancelAttendeeSeat (withBooking seatRequest booking) seatData "{}") allUp.

(** Ben leaves a booking of two. *)
Definition benLeavesRun := cancelOf (bookingOf (Some 7) [ann; ben] seats).

(** A booking of one, without a user. *)
Definition soloRun := cancelOf (bookingOf None [ben] seats).

(** A booking of two without a user. *)
Definition ownerlessRun := cancelOf (bookingOf None [ann; ben] seats).

(** The seat of the request is not one of the booking. *)
Definition foreignSeatRun :=
  cancelOf (bookingOf (Some 7) [ann; ben] [ {| referenceUid := "seat-1"; attendeeId := 1 |} ]).

(** The seat of the request belongs to an attendee who is no longer there. *)
Definition danglingSeatRun :=
  cancelOf (bookingOf (Some 7) [ann; ben]
              [ {| referenceUid := "seat-2"; attendeeId := 9 |} ]).

End SeatCancellationTraces.

(** ** The availability of a team member

    [getMemberAvailabilityHandler].  A [TRPCError] thrown by the handler is
    the left summand of its result; a rejection of a collaborator is
    rethrown as it is. *)

Module MemberAvailability.

Inductive TRPCErrorCode : Type := UNAUTHORIZED | NOT_FOUND | BAD_REQUEST.

Record TRPCError : Type := {
  code : TRPCErrorCode;
  message : option string
}.

(** Imported types, kept as identifiers. *)
Definition EnrichedUser : Type := Z.
Definition Availability : Type := string.

Record MemberUser : Type := {
  user_id : Z;
  username : option string
}.

Record Member : Type := {
  userId : Z;
  user : MemberUser
}.

Record Input : Type := {
  teamId : Z;
  memberId : Z;
  dateFrom : string;
  dateTo : string
}.

Record AvailabilityQuery : Type := {
  query_username : string;
  query_dateFrom : string;
  query_dateTo : string;
  returnDateOverrides : bool;
  bypassBusyCalendarTimes : bool
}.

Record InitialData : Type := {
  initial_user : EnrichedUser;
  busyTimesFromLimitsBookings : list Z
}.

(** External collaborators; of the answer of [isTeamMember] only the
    truthiness is read. *)
Inductive Call : Type :=
| isTeamMember (userId teamId : Z)
| MembershipRepository_findByTeamIdForAvailability (teamId : Z)
| enrichUserWithDwdCredentialsWithoutOrgId (user : MemberUser)
| getUserAvailability (query : AvailabilityQuery) (initialData : InitialData).

Definition Resp (c : Call) : Type :=
  match c with
  | isTeamMember _ _ => bool
  | MembershipRepository_findByTeamIdForAvailability _ => option (list Member)
  | enrichUserWithDwdCredentialsWithoutOrgId _ => EnrichedUser
  | getUserAvailability _ _ => Availability
  end.

Abbreviation M := (Prog Call Resp Empty_set).
Abbreviation Ev := (Event Call Resp Empty_set).

Definition await (c : Call) : M (Resp c) := call c.

Definition throwTRPC {A} (code : TRPCErrorCode) (message : option string) : M (TRPCError + A) :=
  Ret (inl {| code := code; message := message |}).

Definition getMemberAvailabilityHandler (ctx_user_id : Z) (input : Input)
    : M (TRPCError + Availability) :=
  (team <- await (isTeamMember ctx_user_id (teamId input)) ;;
   if negb team then throwTRPC UNAUTHORIZED None
   else
     members <- await (MembershipRepository_findByTeamIdForAvailability (teamId input)) ;;
     let member :=
       match members with
       | Some members => List.find (fun m => Z.eqb (userId m) (memberId input)) members
       | None => None
       end in
     match member with
     | None => throwTRPC NOT_FOUND (Some "Member not found")
     | Some member =>
       match username (user member) with
       | Some (String a rest) =>
         let username := String a rest in
         user <- await (enrichUserWithDwdCredentialsWithoutOrgId (user member)) ;;
         availability <-
           (await (getUserAvailability
                    {| query_username := username;
                       query_dateFrom := dateFrom input;
                       query_dateTo := dateTo input;
                       returnDateOverrides := true;
                       bypassBusyCalendarTimes := false |}
                    {| initial_user := user; busyTimesFromLimitsBookings := [] |})
            : M Availability) ;;
         (Ret (inr availability) : M (TRPCError + Availability))
       | _ => throwTRPC BAD_REQUEST (Some "Member doesn't have a username")
       end
     end)%prog.

(** *** Vocabulary of the statements *)

Definition callOf (ev : Ev) : option Call :=
  match ev with
  | Called c _ => Some c
  | Emitted _ => None
  end.
Definition calls (tr : list Ev) : list Call := omap callOf tr.

Definition answered (ev : Ev) : bool :=
  match ev with
  | Called _ r => isOk r
  | Emitted _ => true
  end.

(** What [isTeamMember] answered about a user and a team. *)
Definition membershipOf (ev : Ev) : option (Z * Z * bool) :=
  match ev with
  | Called (isTeamMember userId teamId) (Ok team) => Some (userId, teamId, team)
  | _ => None
  end.
Definition memberships (tr : list Ev) : list (Z * Z * bool) := omap membershipOf tr.

(** The members that were found for a team. *)
Definition membersOf (ev : Ev) : option (Z * option (list Member)) :=
  match ev with
  | Called (MembershipRepository_findByTeamIdForAvailability teamId) (Ok members) =>
      Some (teamId, members)
  | _ => None
  end.
Definition memberLists (tr : list Ev) : list (Z * option (list Member)) := omap membersOf tr.

Definition enrichedOf (ev : Ev) : option (MemberUser * EnrichedUser) :=
  match ev with
  | Called (enrichUserWithDwdCredentialsWithoutOrgId user) (Ok enriched) => Some (user, enriched)
  | _ => None
  end.
Definition enrichedUsers (tr : list Ev) : list (MemberUser * EnrichedUser) := omap enrichedOf tr.

Definition isAvailabilityQuery (c : Call) : bool :=
  match c with
  | getUserAvailability _ _ => true
  | _ => false
  end.

Definition thrown (out : result (TRPCError + Availability)) : option TRPCErrorCode :=
  match out with
  | Ok (inl e) => Some (code e)
  | _ => None
  end.

(** *** A team *)

Record World : Type := {
  teamsOf : list (Z * list Member)
}.

Definition membersIn (w : World) (teamId : Z) : option (list Member) :=
  match List.find (fun t => Z.eqb (fst t) teamId) (teamsOf w) with
  | Some t => Some (snd t)
  | None => None
  end.

(** The collaborators are not part of the sources: in the statements their
    answers are arbitrary.  In the sample runs they answer from the list of
    teams; the enrichment answers with the id of the user and the
    availability with the username it is asked about. *)
Definition env (c : Call) : World -> result (Resp c) * World :=
  match c as c' return World -> result (Resp c') * World with
  | isTeamMember userId teamId => fun w =>
      (Ok (match membersIn w teamId with
           | Some members => existsb (fun m => Z.eqb (MemberAvailability.userId m) userId) members
           | None => false
           end), w)
  | MembershipRepository_findByTeamIdForAvailability teamId => fun w =>
      (Ok (membersIn w teamId), w)
  | enrichUserWithDwdCredentialsWithoutOrgId user => fun w => (Ok (user_id user), w)
  | getUserAvailability query _ => fun w => (Ok (query_username query), w)
  end.

Definition memberOf (id : Z) (name : option string) : Member :=
  {| userId := id; user := {| user_id := id; username := name |} |}.

Definition team : World :=
  {| teamsOf := [(5, [memberOf 1 (Some "ada"); memberOf 2 (Some "bob"); memberOf 3 None;
                      memberOf 4 (Some "")])] |}.

Definition ask (caller member : Z) :=
  run env (getMemberAvailabilityHandler caller
             {| teamId := 5; memberId := member;
                dateFrom := "2024-01-01"; dateTo := "2024-01-31" |}) team.

Definition colleagueRun := ask 1 2.
Definition outsiderRun := ask 9 2.
Definition strangerMemberRun := ask 1 9.
Definition namelessRun := ask 1 3.
Definition emptyNameRun := ask 1 4.

End MemberAvailability.

(** * Verification *)

(** ** Facts about numbers *)

Module JSFacts.
Import JS.
Local Open Scope Q_scope.

Lemma pow2_pos e : 0 < pow2 e.
Proof. apply Qpower_0_lt. reflexivity. Qed.

Lemma pow2_plus a b : pow2 (a + b) == pow2 a * pow2 b.
Proof. apply Qpower_plus. discriminate. Qed.

Lemma pow2_Z e : (0 <= e)%Z -> pow2 e == inject_Z (2 ^ e).
Proof. intros H. unfold pow2. symmetry. apply (Zpower_Qpower 2 e H). Qed.

Lemma pow2_le a b : (a <= b)%Z -> pow2 a <= pow2 b.
Proof.
  intros H. replace b with (a + (b - a))%Z by lia. rewrite pow2_plus.
  assert (H1 : 1 <= pow2 (b - a)).
  { apply Qpower_1_le; [discriminate|lia]. }
  pose proof (pow2_pos a). nra.
Qed.

Lemma pow2_succ a : pow2 (a + 1) == 2 * pow2 a.
Proof. rewrite pow2_plus. change (pow2 1) with 2. ring. Qed.


(** *** The nearest integer *)

Lemma nearestEven_cases x :
  nearestEven x = Qfloor x \/ nearestEven x = (Qfloor x + 1)%Z.
Proof.
  unfold nearestEven. destruct (x - inject_Z (Qfloor x) ?= 1 # 2); auto.
  destruct (Z.even (Qfloor x)); auto.
Qed.

Lemma nearestEven_mono x y : x <= y -> (nearestEven x <= nearestEven y)%Z.
Proof.
  intros Hxy.
  pose proof (Qfloor_resp_le x y Hxy) as Hf.
  destruct (Z.eq_dec (Qfloor x) (Qfloor y)) as [E|Hne].
  - unfold nearestEven. rewrite <- E.
    destruct (Qcompare_spec (x - inject_Z (Qfloor x)) (1 # 2)) as [Cx|Cx|Cx];
      destruct (Qcompare_spec (y - inject_Z (Qfloor x)) (1 # 2)) as [Cy|Cy|Cy];
      try lia; try (destruct (Z.even (Qfloor x)); lia).
    all: exfalso; lra.
  - destruct (nearestEven_cases x) as [-> | ->], (nearestEven_cases y) as [-> | ->]; lia.
Qed.

Lemma nearestEven_Z n : nearestEven (inject_Z n) = n.
Proof.
  unfold nearestEven. rewrite Qfloor_Z.
  assert (C : (inject_Z n - inject_Z n ?= 1 # 2) = Lt).
  { apply Qlt_alt.
    setoid_replace (inject_Z n - inject_Z n) with 0 using relation Qeq by ring.
    reflexivity. }
  rewrite C. reflexivity.
Qed.


(** *** The binary exponent *)

Lemma Q_num_den q : q * inject_Z (Zpos (Qden q)) == inject_Z (Qnum q).
Proof. destruct q as [n d]. unfold Qeq. simpl. rewrite Pos.mul_1_r. lia. Qed.

Lemma ilog2_spec q : 0 < q -> pow2 (ilog2 q) <= q /\ q < pow2 (ilog2 q + 1).
Proof.
  intros Hq.
  assert (Hn : (0 < Qnum q)%Z).
  { destruct q as [n d]. unfold Qlt in Hq. simpl in *. lia. }
  pose proof (Z.log2_spec (Qnum q) Hn) as [Ha1 Ha2].
  pose proof (Z.log2_spec (Zpos (Qden q)) (Pos2Z.is_pos _)) as [Hb1 Hb2].
  pose proof (Z.log2_nonneg (Qnum q)) as Ha0.
  pose proof (Z.log2_nonneg (Zpos (Qden q))) as Hb0.
  set (a := Z.log2 (Qnum q)) in *. set (b := Z.log2 (Zpos (Qden q))) in *.
  pose proof (Q_num_den q) as Hnd.
  set (n := inject_Z (Qnum q)) in *. set (d := inject_Z (Zpos (Qden q))) in *.
  assert (Hd : 0 < d) by (unfold d; change 0 with (inject_Z 0); rewrite <- Zlt_Qlt; lia).
  assert (Ea : pow2 a <= n) by (rewrite (pow2_Z a Ha0); unfold n; rewrite <- Zle_Qle; exact Ha1).
  assert (Ea' : n < pow2 (a + 1)).
  { rewrite (pow2_Z (a + 1)) by lia. unfold n. rewrite <- Zlt_Qlt.
    replace (a + 1)%Z with (Z.succ a) by lia. exact Ha2. }
  assert (Eb : pow2 b <= d) by (rewrite (pow2_Z b Hb0); unfold d; rewrite <- Zle_Qle; exact Hb1).
  assert (Eb' : d < pow2 (b + 1)).
  { rewrite (pow2_Z (b + 1)) by lia. unfold d. rewrite <- Zlt_Qlt.
    replace (b + 1)%Z with (Z.succ b) by lia. exact Hb2. }
  pose proof (pow2_pos b) as Pb. pose proof (pow2_pos (a - b)) as Pk.
  pose proof (pow2_pos (a - b - 1)) as Pk1.
  assert (Ek : pow2 a == pow2 (a - b) * pow2 b).
  { rewrite <- pow2_plus. replace (a - b + b)%Z with a by lia. reflexivity. }
  assert (Ek1 : pow2 (a - b) == 2 * pow2 (a - b - 1)).
  { rewrite <- pow2_succ. replace (a - b - 1 + 1)%Z with (a - b)%Z by lia. reflexivity. }
  rewrite pow2_succ in Ea', Eb'.
  unfold ilog2. fold a b.
  destruct (Qle_bool (pow2 (a - b)) q) eqn:C.
  - apply Qle_bool_iff in C. split; [exact C|].
    rewrite pow2_succ.
    apply Qnot_le_lt. intros Hge.
    assert (2 * pow2 (a - b) * d <= q * d) by nra.
    nra.
  - assert (C' : q < pow2 (a - b)).
    { apply Qnot_le_lt. intros Hle. apply Qle_bool_iff in Hle. congruence. }
    split.
    + apply Qnot_lt_le. intros Hlt.
      assert (q * d < pow2 (a - b - 1) * d) by nra.
      nra.
    + replace (a - b - 1 + 1)%Z with (a - b)%Z by lia. exact C'.
Qed.

Lemma ilog2_mono x y : 0 < x -> x <= y -> (ilog2 x <= ilog2 y)%Z.
Proof.
  intros Hx Hxy.
  destruct (ilog2_spec x Hx) as [Lx _].
  destruct (ilog2_spec y ltac:(lra)) as [_ Uy].
  destruct (Z_le_gt_dec (ilog2 x) (ilog2 y)) as [H|H]; [exact H|exfalso].
  pose proof (pow2_le (ilog2 y + 1) (ilog2 x) ltac:(lia)). lra.
Qed.

(** *** Rounding is monotone *)

Lemma ulpExponent_mono x y : 0 < x -> x <= y -> (ulpExponent x <= ulpExponent y)%Z.
Proof. intros Hx Hxy. unfold ulpExponent. pose proof (ilog2_mono x y Hx Hxy). lia. Qed.

Lemma scaled_mono x y e : x <= y -> x / pow2 e <= y / pow2 e.
Proof.
  intros H. unfold Qdiv. apply Qmult_le_compat_r; [exact H|].
  apply Qlt_le_weak, Qinv_lt_0_compat, pow2_pos.
Qed.

Lemma roundPositive_nonneg q : 0 <= q -> 0 <= roundPositive q.
Proof.
  intros Hq. unfold roundPositive.
  assert (H0 : (0 <= nearestEven (q / pow2 (ulpExponent q)))%Z).
  { rewrite <- (nearestEven_Z 0). apply nearestEven_mono.
    apply Qle_shift_div_l; [apply pow2_pos|]. change (inject_Z 0) with 0. lra. }
  apply Qmult_le_0_compat; [|apply Qlt_le_weak, pow2_pos].
  change 0 with (inject_Z 0). rewrite <- Zle_Qle. exact H0.
Qed.

(** Below the next power of two a positive number is rounded up to that
    power at most. *)
Lemma roundPositive_upper q : 0 < q -> roundPositive q <= pow2 (ulpExponent q + 53).
Proof.
  intros Hq. unfold roundPositive. set (e := ulpExponent q).
  destruct (ilog2_spec q Hq) as [_ U].
  assert (Hle : q <= pow2 53 * pow2 e).
  { rewrite <- pow2_plus. apply Qlt_le_weak. eapply Qlt_le_trans; [exact U|].
    apply pow2_le. unfold e, ulpExponent. lia. }
  assert (Hn : (nearestEven (q / pow2 e) <= 2 ^ 53)%Z).
  { rewrite <- (nearestEven_Z (2 ^ 53)). apply nearestEven_mono.
    rewrite <- (pow2_Z 53) by lia.
    apply Qle_shift_div_r; [apply pow2_pos|exact Hle]. }
  rewrite (Z.add_comm e 53), pow2_plus, (pow2_Z 53) by lia.
  apply Qmult_le_compat_r; [|apply Qlt_le_weak, pow2_pos].
  rewrite <- Zle_Qle. exact Hn.
Qed.

(** A normal number is rounded to its own power of two at least. *)
Lemma roundPositive_lower q :
  0 < q -> (-1074 < ulpExponent q)%Z -> pow2 (ulpExponent q + 52) <= roundPositive q.
Proof.
  intros Hq He. unfold roundPositive. set (e := ulpExponent q) in *.
  destruct (ilog2_spec q Hq) as [L _].
  assert (Ee : e = (ilog2 q - 52)%Z) by (unfold e, ulpExponent in *; lia).
  assert (Hle : pow2 52 * pow2 e <= q).
  { rewrite <- pow2_plus. replace (52 + e)%Z with (ilog2 q) by lia. exact L. }
  assert (Hn : (2 ^ 52 <= nearestEven (q / pow2 e))%Z).
  { rewrite <- (nearestEven_Z (2 ^ 52)). apply nearestEven_mono.
    rewrite <- (pow2_Z 52) by lia.
    apply Qle_shift_div_l; [apply pow2_pos|exact Hle]. }
  rewrite (Z.add_comm e 52), pow2_plus, (pow2_Z 52) by lia.
  apply Qmult_le_compat_r; [|apply Qlt_le_weak, pow2_pos].
  rewrite <- Zle_Qle. exact Hn.
Qed.

Lemma roundPositive_mono x y : 0 < x -> x <= y -> roundPositive x <= roundPositive y.
Proof.
  intros Hx Hxy.
  assert (Hy : 0 < y) by lra.
  pose proof (ulpExponent_mono x y Hx Hxy) as He.
  destruct (Z.eq_dec (ulpExponent x) (ulpExponent y)) as [E|Hne].
  - unfold roundPositive. rewrite E.
    apply Qmult_le_compat_r; [|apply Qlt_le_weak, pow2_pos].
    rewrite <- Zle_Qle. apply nearestEven_mono, scaled_mono, Hxy.
  - apply Qle_trans with (pow2 (ulpExponent x + 53)); [apply roundPositive_upper, Hx|].
    apply Qle_trans with (pow2 (ulpExponent y + 52)).
    + apply pow2_le. lia.
    + apply roundPositive_lower; [exact Hy|].
      assert ((-1074 <= ulpExponent x)%Z) by (unfold ulpExponent; lia). lia.
Qed.

Lemma overflows_mono v v' : v <= v' -> overflows v = true -> overflows v' = true.
Proof.
  unfold overflows. rewrite !Qle_bool_iff. intros H1 H2. lra.
Qed.

Lemma sgn_Gt q : sgn q = Gt <-> 0 < q.
Proof. unfold sgn. rewrite <- Qgt_alt. reflexivity. Qed.

Lemma sgn_Lt q : sgn q = Lt <-> q < 0.
Proof. unfold sgn. rewrite <- Qlt_alt. reflexivity. Qed.

Lemma sgn_Eq q : sgn q = Eq <-> q == 0.
Proof. unfold sgn. rewrite <- Qeq_alt. reflexivity. Qed.

(** The shape of a rounded number. *)
Lemma round_cases q :
  (q == 0 /\ round q = Fin 0) \/
  (0 < q /\ ((overflows (roundPositive q) = true /\ round q = PosInf) \/
             (overflows (roundPositive q) = false /\ round q = Fin (Qred (roundPositive q))))) \/
  (q < 0 /\ ((overflows (roundPositive (- q)) = true /\ round q = NegInf) \/
             (overflows (roundPositive (- q)) = false /\
              round q = Fin (Qred (- roundPositive (- q)))))).
Proof.
  unfold round. destruct (sgn q) eqn:S.
  - left. apply sgn_Eq in S. auto.
  - right. right. apply sgn_Lt in S. split; [exact S|].
    destruct (overflows (roundPositive (- q))); auto.
  - right. left. apply sgn_Gt in S. split; [exact S|].
    destruct (overflows (roundPositive q)); auto.
Qed.

(** Rounding keeps the order of the exact results. *)
Lemma round_mono x y : x <= y -> le (round x) (round y) = true.
Proof.
  intros Hxy.
  destruct (round_cases x) as [[Hx ->]|[[Hx [[Ox ->]|[Ox ->]]]|[Hx [[Ox ->]|[Ox ->]]]]];
    destruct (round_cases y) as [[Hy ->]|[[Hy [[Oy ->]|[Oy ->]]]|[Hy [[Oy ->]|[Oy ->]]]]];
    cbn [le]; try reflexivity; try (exfalso; lra).
  all: rewrite ?Qle_bool_iff, ?Qred_correct.
  all: try (pose proof (roundPositive_nonneg x ltac:(lra)));
       try (pose proof (roundPositive_nonneg y ltac:(lra)));
       try (pose proof (roundPositive_nonneg (- x) ltac:(lra)));
       try (pose proof (roundPositive_nonneg (- y) ltac:(lra))).
  all: try lra.
  - pose proof (overflows_mono _ _ (roundPositive_mono x y Hx Hxy) Ox). congruence.
  - pose proof (roundPositive_mono x y Hx Hxy). lra.
  - pose proof (overflows_mono _ _ (roundPositive_mono (- y) (- x) ltac:(lra) ltac:(lra)) Oy).
    congruence.
  - pose proof (roundPositive_mono (- y) (- x) ltac:(lra) ltac:(lra)). lra.
Qed.


(** A result that is not negative is rounded to a number that is not
    negative, or to [+Infinity]. *)
Lemma round_nonneg q :
  0 <= q -> round q = PosInf \/ exists r, round q = Fin r /\ 0 <= r.
Proof.
  intros Hq.
  destruct (round_cases q) as [[_ ->]|[[Hx [[_ ->]|[_ ->]]]|[Hx _]]].
  - right. exists 0. split; [reflexivity|lra].
  - left. reflexivity.
  - right. eexists. split; [reflexivity|].
    rewrite Qred_correct. apply roundPositive_nonneg. lra.
  - exfalso. lra.
Qed.

Lemma round_zero q : q == 0 -> round q = Fin 0.
Proof. intros E. unfold round. apply sgn_Eq in E. rewrite E. reflexivity. Qed.

(** *** Integers up to [2^53] are doubles *)







(** *** Comparisons *)

Lemma le_trans x y z : le x y = true -> le y z = true -> le x z = true.
Proof.
  destruct x, y, z; simpl; try (intros; congruence); try reflexivity.
  rewrite !Qle_bool_iff. apply Qle_trans.
Qed.

Lemma le_lt_trans x y z : le x y = true -> lt y z = true -> lt x z = true.
Proof.
  destruct x, y, z; simpl; try (intros; congruence); try reflexivity.
  rewrite !negb_true_iff, Qle_bool_iff. intros H1 H2.
  destruct (Qle_bool q1 q) eqn:E; [|reflexivity].
  apply Qle_bool_iff in E.
  assert (Qle_bool q1 q0 = true) by (apply Qle_bool_iff; lra). congruence.
Qed.

Lemma le_double q y : isDouble q = true -> le (round q) y = le (Fin q) y.
Proof.
  unfold isDouble. destruct (round q) as [| |r|]; try discriminate.
  intros E. apply Qeq_bool_iff in E.
  destruct y as [| |v|]; simpl; try reflexivity.
  destruct (Qle_bool r v) eqn:C; symmetry.
  - apply Qle_bool_iff. apply Qle_bool_iff in C. lra.
  - destruct (Qle_bool q v) eqn:C'; [|reflexivity].
    apply Qle_bool_iff in C'.
    assert (Qle_bool r v = true) by (apply Qle_bool_iff; lra). congruence.
Qed.

End JSFacts.

(** ** Facts about programs *)

Section ProgramFacts.
Context {C : Type} {R : C -> Type} {L : Type}.

(** A run against an environment is one of the executions. *)
Lemma run_exec {W A} (env : forall c : C, W -> result (R c) * W) (p : Prog C R L A) :
  forall w, exec p (trace (run env p w)) (outcome (run env p w)).
Proof.
  induction p as [a|e|c k IH|l k IH]; intros w; simpl.
  - split; reflexivity.
  - split; reflexivity.
  - exists (fst (env c w)), (trace (run env (k (fst (env c w))) (snd (env c w)))).
    split; [reflexivity|]. apply IH.
  - exists (trace (run env k w)). split; [reflexivity|]. apply IH.
Qed.

(** An execution of [p ;; f] is one of [p] followed by one of [f], or a
    failing one of [p]. *)
Lemma exec_bind {A B} (p : Prog C R L A) (f : A -> Prog C R L B) tr out :
  exec (bind p f) tr out <->
  (exists tr1 a tr2, exec p tr1 (Ok a) /\ exec (f a) tr2 out /\ tr = tr1 ++ tr2)
  \/ (exists e, exec p tr (Err e) /\ out = Err e).
Proof.
  revert tr. induction p as [a|e|c k IH|l k IH]; intros tr; simpl.
  - split.
    + intros H. left. exists [], a, tr. auto.
    + intros [(tr1 & a' & tr2 & [-> Ha] & H & ->)|(e & [_ He] & _)]; [|discriminate].
      injection Ha as ->. exact H.
  - split.
    + intros [-> ->]. right. exists e. auto.
    + intros [(tr1 & a' & tr2 & [_ Ha] & _)|(e' & [-> He] & ->)]; [discriminate|].
      injection He as ->. auto.
  - split.
    + intros (r & tr' & -> & H). apply IH in H.
      destruct H as [(tr1 & a & tr2 & H1 & H2 & ->)|(e & H1 & ->)].
      * left. exists (Called c r :: tr1), a, tr2. repeat split; eauto.
      * right. exists e. split; eauto.
    + intros [(tr1 & a & tr2 & (r & tr' & -> & H1) & H2 & ->)|(e & (r & tr' & -> & H1) & ->)].
      * exists r, (tr' ++ tr2). split; [reflexivity|]. apply IH. left. eauto 10.
      * exists r, tr'. split; [reflexivity|]. apply IH. right. eauto.
  - split.
    + intros (tr' & -> & H). apply IH in H.
      destruct H as [(tr1 & a & tr2 & H1 & H2 & ->)|(e & H1 & ->)].
      * left. exists (Emitted l :: tr1), a, tr2. repeat split; eauto.
      * right. exists e. split; eauto.
    + intros [(tr1 & a & tr2 & (tr' & -> & H1) & H2 & ->)|(e & (tr' & -> & H1) & ->)].
      * exists (tr' ++ tr2). split; [reflexivity|]. apply IH. left. eauto 10.
      * exists tr'. split; [reflexivity|]. apply IH. right. eauto.
Qed.

(** Awaiting promises that have settled calls nobody. *)
Lemma awaitAll_shape {X} (ps : list (result X)) :
  (exists xs, @awaitAll C R L X ps = Ret xs) \/ (exists e, @awaitAll C R L X ps = Throw e).
Proof.
  induction ps as [|[x|e] ps IH]; simpl.
  - left. eauto.
  - destruct IH as [[xs ->]|[e ->]]; simpl; [left|right]; eauto.
  - right. eauto.
Qed.

Lemma awaitAll_fulfilled {X} (ps : list (result X)) :
  forallb isOk ps = true -> exists xs, @awaitAll C R L X ps = Ret xs.
Proof.
  induction ps as [|[x|e] ps IH]; simpl; intros H.
  - eauto.
  - destruct (IH H) as [xs ->]. simpl. eauto.
  - discriminate.
Qed.

(** [try { await Promise.all(ps) } catch (error) {}] always goes on. *)
Lemma swallowed_rejections {X} (ps : list (result X)) :
  tryCatch (bind (@awaitAll C R L X ps) (fun _ => Ret tt)) (fun _ => Ret tt) = Ret tt.
Proof. destruct (awaitAll_shape ps) as [[xs ->]|[e ->]]; reflexivity. Qed.

End ProgramFacts.

(** Symbolic execution of a hypothesis [H : exec p tr out]: one call, one
    emitted effect or one branch at a time. *)
Ltac exec_end H :=
  destruct H as [-> H]; try discriminate H; try (injection H as H); subst.

Ltac exec_call H :=
  let r := fresh "r" in
  let tr' := fresh "tr" in
  destruct H as (r & tr' & -> & H); destruct r; cbn in H.

Ltac exec_emit H :=
  let tr' := fresh "tr" in
  destruct H as (tr' & -> & H); cbn in H.

(** Branches on the scrutinee at the head of the program only. *)
Ltac exec_head H :=
  lazymatch type of H with
  | _ = [] /\ _ = _ => exec_end H
  | exists (_ : result _) (_ : list _), _ => exec_call H
  | exists (_ : list _), _ => exec_emit H
  | exec (match ?x with _ => _ end) _ _ => destruct x eqn:?; cbn in H
  | exec (bind (match ?x with _ => _ end) _) _ _ => destruct x eqn:?; cbn in H
  | exec (bind (bind (match ?x with _ => _ end) _) _) _ _ => destruct x eqn:?; cbn in H
  end.

(** Branches on any closed scrutinee that blocks the program. *)
Ltac exec_step H :=
  lazymatch type of H with
  | _ = [] /\ _ = _ => exec_end H
  | exists (_ : result _) (_ : list _), _ => exec_call H
  | exists (_ : list _), _ => exec_emit H
  | exec ?p _ _ =>
      match p with
      | context [match ?x with _ => _ end] => destruct x eqn:?; cbn in H
      end
  end.

Ltac absurd_leaf :=
  match goal with
  | H : False |- _ => destruct H
  | H : _ \/ False |- _ => destruct H as [H|[]]
  | H : Some _ = None |- _ => discriminate H
  | H : None = Some _ |- _ => discriminate H
  | H : Ok _ = Err _ |- _ => discriminate H
  | H : Err _ = Ok _ |- _ => discriminate H
  | H : true = false |- _ => discriminate H
  | H : false = true |- _ => discriminate H
  end.

(** ** The lead-threshold filter *)

Module LeadThresholdProofs.
Import JS LeadThreshold.

Lemma fold_left_push {A} (keep : A -> bool) (l : list A) (acc : list A) :
  fold_left (fun ids x => if keep x then ids ++ [x] else ids) l acc
  = acc ++ List.filter keep l.
Proof.
  revert acc. induction l as [|x l IH]; intros acc; simpl.
  - symmetry. apply app_nil_r.
  - rewrite IH. destruct (keep x); [rewrite <- app_assoc|]; reflexivity.
Qed.

Lemma fold_left_skip {A} (skip : A -> bool) (l : list A) (acc : list A) :
  fold_left (fun ids x => if skip x then ids else ids ++ [x]) l acc
  = acc ++ List.filter (fun x => negb (skip x)) l.
Proof.
  revert acc. induction l as [|x l IH]; intros acc; simpl.
  - symmetry. apply app_nil_r.
  - rewrite IH. destruct (skip x); simpl; [|rewrite <- app_assoc]; reflexivity.
Qed.

Lemma elem_of_keys (o : gmap Z number) (k : Z) : In k (keys o) <-> is_Some (o !! k).
Proof.
  unfold keys. rewrite <- list_elem_of_In, merge_sort_Permutation.
  rewrite list_elem_of_fmap. split.
  - intros [[k' v] [-> H]]. apply elem_of_map_to_list in H. eauto.
  - intros [v H]. exists (k, v). split; [reflexivity|]. by apply elem_of_map_to_list.
Qed.

Lemma elem_of_values (o : gmap Z number) (v : number) :
  In v (values o) <-> exists k, o !! k = Some v.
Proof.
  unfold values. rewrite <- list_elem_of_In, list_elem_of_omap. split.
  - intros (k & _ & H). eauto.
  - intros [k H]. exists k. split; [|done]. apply list_elem_of_In, elem_of_keys. eauto.
Qed.

Lemma includes_In ids x : includes ids x = true <-> In x ids.
Proof.
  unfold includes. rewrite existsb_exists. split.
  - intros (y & Hy & E). apply Z.eqb_eq in E. by subst.
  - intros H. exists x. split; [done|]. apply Z.eqb_refl.
Qed.

(** The weighted policy keeps exactly the ranked users that do not exceed
    their allowed lead. *)
Lemma withWeights_spec pud m userId :
  In userId (filterHostsByLeadThresholdWithWeights pud m) <->
  is_Some (w_bookingsCount pud !! userId) /\
  exceedsLead (w_weights pud) (w_bookingShortfalls pud) m userId = false.
Proof.
  unfold filterHostsByLeadThresholdWithWeights.
  rewrite (fold_left_skip (exceedsLead (w_weights pud) (w_bookingShortfalls pud) m)).
  simpl. rewrite filter_In, negb_true_iff, elem_of_keys. reflexivity.
Qed.

(** The unweighted policy keeps exactly the ranked users within the lead. *)
Lemma withoutWeights_spec pud m userId :
  In userId (filterHostsByLeadThresholdWithoutWeights pud m) <->
  is_Some (bookingsCount pud !! userId) /\ withinLead (bookingsCount pud) m userId = true.
Proof.
  unfold filterHostsByLeadThresholdWithoutWeights.
  rewrite (fold_left_push (withinLead (bookingsCount pud) m)).
  simpl. rewrite filter_In, elem_of_keys. reflexivity.
Qed.

Lemma filter_ext_bool {A} (f g : A -> bool) l :
  (forall x, f x = g x) -> List.filter f l = List.filter g l.
Proof. intros H. induction l as [|x l IH]; simpl; [done|]. rewrite H, IH. done. Qed.

Lemma bool_eq_iff (a b : bool) : (a = true <-> b = true) -> a = b.
Proof. destruct a, b; intuition congruence. Qed.

(** Every execution of the enabled filter: either there is no first host and
    nothing is called, or the ranking function is called once, on all
    hosts, and its answer decides. *)
Lemma filter_exec hosts m et tr out :
  exec (filterHostsByLeadThreshold hosts (Some m) et) tr out ->
  (hosts = [] /\ tr = [] /\
   out = Err (TypeError "Cannot read properties of undefined (reading 'user')")) \/
  (hosts <> [] /\ exists r,
     tr = [Called (getOrderedListOfLuckyUsers (luckyUsersArgs hosts et)) r] /\
     out = afterRanking hosts m et r).
Proof.
  unfold filterHostsByLeadThreshold.
  destruct (hosts !! 0%nat) as [host0|] eqn:E0.
  - assert (Hargs : toAvailableUser host0 :: List.map toAvailableUser (drop 1 hosts)
                    = List.map toAvailableUser hosts).
    { destruct hosts as [|h rest]; [discriminate|]. simpl in E0. injection E0 as ->.
      simpl. by rewrite drop_0. }
    assert (Hne : hosts <> []) by (intros ->; discriminate).
    rewrite Hargs. fold (luckyUsersArgs hosts et).
    cbn [exec bind call]. intros (r & tr' & -> & H). right. split; [done|]. exists r.
    destruct r as [lucky|e]; cbn [exec bind afterRanking] in *.
    + destruct (isRRWeightsEnabled et) eqn:Hrr.
      * destruct (calibrations (perUserData lucky)) as [cs|],
                 (weights (perUserData lucky)) as [ws|],
                 (bookingShortfalls (perUserData lucky)) as [sfs|];
          cbn [exec bind] in H; destruct H as [-> ->]; try done.
        split; [done|]. f_equal. apply filter_ext_bool. intros host.
        apply bool_eq_iff. rewrite includes_In, withWeights_spec. cbn.
        destruct (bookingsCount (perUserData lucky) !! user_id (user host)) eqn:E.
        -- rewrite negb_true_iff. split; [tauto|]. split; [eauto|done].
        -- split; [intros [[? ?] _]; done|done].
      * cbn [exec bind] in H. destruct H as [-> ->]. split; [done|]. f_equal.
        apply filter_ext_bool. intros host.
        apply bool_eq_iff. rewrite includes_In, withoutWeights_spec.
        destruct (bookingsCount (perUserData lucky) !! user_id (user host)) eqn:E.
        -- split; [tauto|]. split; [eauto|done].
        -- split; [intros [[? ?] _]; done|done].
    + destruct H as [-> ->]. done.
  - cbn [exec]. intros [-> ->]. left. destruct hosts; [done|discriminate].
Qed.

Lemma answers_singleton c r : answers [Called c r] = [r].
Proof. reflexivity. Qed.

(** *** [Math.min] on finite numbers *)

Lemma le_refl_fin x : isFinite x = true -> le x x = true.
Proof. destruct x; try discriminate. intros _. simpl. apply Qle_bool_iff, Qle_refl. Qed.

Lemma le_trans_num x y z : le x y = true -> le y z = true -> le x z = true.
Proof.
  destruct x, y, z; simpl; try done.
  rewrite !Qle_bool_iff. apply Qle_trans.
Qed.

Lemma lt_le_num x y : lt x y = true -> le x y = true.
Proof.
  destruct x, y; simpl; try done.
  rewrite negb_true_iff, Qle_bool_iff. intros H.
  apply Qlt_le_weak, Qnot_le_lt. intros H'. apply Qle_bool_iff in H'. congruence.
Qed.

Lemma not_lt_le_fin x y :
  isFinite x = true -> isFinite y = true -> lt y x = false -> le x y = true.
Proof.
  destruct x, y; simpl; try done. intros _ _.
  rewrite negb_false_iff. done.
Qed.

Lemma Math_min_minimum l :
  l <> [] -> (forall v, In v l -> isFinite v = true) -> isMinimumOf (Math_min l) l.
Proof.
  induction l as [|x l IH]; [done|]. intros _ Hfin.
  assert (Hx : isFinite x = true) by (apply Hfin; left; done).
  destruct l as [|y l'].
  - simpl. destruct x; try discriminate. simpl. split; [by left|].
    intros y [<-|[]]. simpl. apply Qle_bool_iff, Qle_refl.
  - destruct IH as [Hin Hle]; [done|intros v Hv; apply Hfin; by right|].
    set (rest := y :: l') in *.
    change (Math_min (x :: rest)) with (min2 x (Math_min rest)).
    assert (Hm : isFinite (Math_min rest) = true) by (apply Hfin; by right).
    destruct x as [| |qx|]; try discriminate.
    destruct (Math_min rest) as [| |qm|] eqn:Em; try discriminate.
    unfold min2. destruct (lt (Fin qm) (Fin qx)) eqn:Hlt.
    + split; [by right|]. intros v [<-|Hv].
      * by apply lt_le_num.
      * by apply Hle.
    + split; [by left|]. intros v [<-|Hv].
      * by apply le_refl_fin.
      * apply le_trans_num with (Fin qm); [by apply not_lt_le_fin|by apply Hle].
Qed.

(** The result depends on the arguments and on the ranking data only. *)
Lemma filter_deterministic hosts mlt et tr1 out1 tr2 out2 :
  exec (filterHostsByLeadThreshold hosts mlt et) tr1 out1 ->
  exec (filterHostsByLeadThreshold hosts mlt et) tr2 out2 ->
  answers tr1 = answers tr2 ->
  out1 = out2.
Proof.
  destruct mlt as [m|].
  - intros H1 H2 Ha.
    apply filter_exec in H1, H2.
    destruct H1 as [(-> & -> & ->)|(Hne & r1 & -> & ->)],
             H2 as [(E & -> & ->)|(Hne' & r2 & -> & ->)]; try done.
    rewrite !answers_singleton in Ha. by injection Ha as ->.
  - simpl. intros [_ ->] [_ ->]. done.
Qed.

(** C4: with [maxLeadThreshold = null] the filter is the program that
    returns its hosts; run against any environment, it returns them
    unchanged, calls nothing (the ranking function included) and leaves the
    environment as it was. *)
Theorem disabled_filter_returns_hosts (hosts : list BaseHost) (et : EventType) :
  filterHostsByLeadThreshold hosts None et = Ret hosts /\
  forall (W : Type) (env : forall c : Call, W -> result (Resp c) * W) (w : W),
    run env (filterHostsByLeadThreshold hosts None et) w = (Ok hosts, [], w).
Proof. split; [reflexivity|]. intros W env w. reflexivity. Qed.

(** The weighted policy on every host of the call. *)
Lemma weighted_hosts hosts m et tr out lucky cs ws sfs :
  exec (filterHostsByLeadThreshold hosts (Some m) et) tr out ->
  isRRWeightsEnabled et = true ->
  In (Ok lucky) (answers tr) ->
  calibrations (perUserData lucky) = Some cs ->
  weights (perUserData lucky) = Some ws ->
  bookingShortfalls (perUserData lucky) = Some sfs ->
  exists kept, out = Ok kept /\
    forall host,
      In host kept <->
      In host hosts /\
      is_Some (bookingsCount (perUserData lucky) !! user_id (user host)) /\
      exceedsLead ws sfs m (user_id (user host)) = false.
Proof.
  intros Hexec Hrr Hans Hcs Hws Hsfs.
  apply filter_exec in Hexec.
  destruct Hexec as [(_ & -> & _)|(_ & r & -> & ->)]; [destruct Hans|].
  rewrite answers_singleton in Hans. destruct Hans as [->|[]].
  unfold afterRanking. rewrite Hrr, Hcs, Hws, Hsfs.
  eexists. split; [reflexivity|]. intros host.
  rewrite filter_In.
  destruct (bookingsCount (perUserData lucky) !! user_id (user host)) eqn:E.
  - rewrite negb_true_iff. split; [intros [? ?]; eauto|tauto].
  - split; [intros [_ ?]; discriminate|intros (_ & [? ?] & _); discriminate].
Qed.


(** C2, as the code has it: weights enabled, the ranking function answered
    with weights, calibrations and shortfalls all present.  Then the filter
    returns a host list, and a host of the call is excluded if and only if
    its user has no bookings count in the ranking or
    [-shortfall > maxLeadThreshold * (weight / totalWeight)], where
    [totalWeight] sums all weights of the ranking and sum, quotient and
    product are the rounded ones of the program. *)
Theorem weighted_policy_exclusion hosts m et tr out lucky cs ws sfs :
  exec (filterHostsByLeadThreshold hosts (Some m) et) tr out ->
  isRRWeightsEnabled et = true ->
  In (Ok lucky) (answers tr) ->
  calibrations (perUserData lucky) = Some cs ->
  weights (perUserData lucky) = Some ws ->
  bookingShortfalls (perUserData lucky) = Some sfs ->
  let totalWeight := fold_left (fun sum weight => add sum weight) (values ws) zero in
  exists kept, out = Ok kept /\
    (forall host, In host kept -> In host hosts) /\
    (forall host, In host hosts ->
       let shortfall := toNumber (sfs !! user_id (user host)) in
       let weight := toNumber (ws !! user_id (user host)) in
       let allowedLead := mul m (div weight totalWeight) in
       (~ In host kept <->
        bookingsCount (perUserData lucky) !! user_id (user host) = None \/
        gt (neg shortfall) allowedLead = true) /\
       (In host kept <->
        is_Some (bookingsCount (perUserData lucky) !! user_id (user host)) /\
        gt (neg shortfall) allowedLead = false)).
Proof.
  intros Hexec Hrr Hans Hcs Hws Hsfs totalWeight.
  destruct (weighted_hosts _ _ _ _ _ _ _ _ _ Hexec Hrr Hans Hcs Hws Hsfs)
    as (kept & -> & Hkept).
  exists kept. split; [reflexivity|]. split.
  - intros host Hin. apply Hkept in Hin. tauto.
  - intros host Hin shortfall weight allowedLead. rewrite Hkept.
    unfold exceedsLead, allowedLeadOf, totalWeightOf.
    fold totalWeight weight shortfall allowedLead.
    destruct (bookingsCount (perUserData lucky) !! user_id (user host)) as [count|].
    + destruct (gt (neg shortfall) allowedLead); split.
      * split; [auto|]. intros _ (_ & _ & ?). discriminate.
      * split; [intros (_ & _ & ?); discriminate|intros [_ ?]; discriminate].
      * split; [|intros [?|?]; discriminate]. intros H. exfalso. apply H. eauto.
      * split; [intros (_ & ? & ?); auto|intros [? ?]; auto].
    + split.
      * split; [auto|]. intros _ (_ & [? ?] & _). discriminate.
      * split; [intros (_ & [? ?] & _); discriminate|intros [[? ?] _]; discriminate].
Qed.

(** C2, on the figures of the specification: a shortfall of -5 against an
    allowed lead of 3 excludes the host, a shortfall of -2 keeps it. *)
Lemma weighted_policy_witness :
  allowedLeadOf (numMap [(1, 100); (2, 100)]) (ofZ 6) 1 = ofZ 3 /\
  allowedLeadOf (numMap [(1, 100); (2, 100)]) (ofZ 6) 2 = ofZ 3 /\
  exists kept, outcome weightedRun = Ok kept /\
    ~ In (mkHost 1) kept /\ In (mkHost 2) kept.
Proof.
  split; [vm_compute; reflexivity|]. split; [vm_compute; reflexivity|].
  destruct (weighted_policy_exclusion
              [mkHost 1; mkHost 2] (ofZ 6) (mkEventType true)
              (trace weightedRun) (outcome weightedRun) weightedData
              (numMap [(1, 0); (2, 0)]) (numMap [(1, 100); (2, 100)])
              (numMap [(1, -5); (2, -2)]))
    as (kept & E & _ & Hout).
  - apply (run_exec (rankingEnv (fun _ => Ok weightedData))).
  - reflexivity.
  - left. reflexivity.
  - reflexivity.
  - reflexivity.
  - reflexivity.
  - exists kept. split; [exact E|]. split.
    + apply (Hout (mkHost 1)); [left; reflexivity|]. right. vm_compute. reflexivity.
    + apply (Hout (mkHost 2)); [right; left; reflexivity|].
      split; [exists (ofZ 4)|]; vm_compute; reflexivity.
Defined.

(** C2 as stated fails: the third host has a shortfall of -1 against an
    allowed lead of 2, which it does not exceed, and is excluded all the
    same, for want of a bookings count. *)
Lemma uncounted_host_is_excluded_within_its_lead :
  outcome partlyCountedRun = Ok [mkHost 2] /\
  In (mkHost 3) [mkHost 1; mkHost 2; mkHost 3] /\
  ~ In (mkHost 3) [mkHost 2] /\
  allowedLeadOf (numMap [(1, 100); (2, 100); (3, 100)]) (ofZ 6) 3 = ofZ 2 /\
  gt (neg (ofZ (-1))) (ofZ 2) = false.
Proof.
  split; [vm_compute; reflexivity|].
  split; [right; right; left; reflexivity|].
  split; [intros [H|[]]; discriminate H|].
  split; vm_compute; reflexivity.
Qed.

(** The share of a weight is a rounded quotient: weight 1 of 49 under a
    threshold of 49 has an allowed lead just below 1, and a shortfall of -1
    exceeds it. *)
Lemma rounded_share_excludes :
  allowedLeadOf (numMap [(1, 1); (2, 48)]) (ofZ 49) 1
  = Fin (9007199254740991 # 9007199254740992) /\
  outcome unevenWeightsRun = Ok [mkHost 2].
Proof. split; vm_compute; reflexivity. Qed.




(** Beyond [2^53] the sum is a rounded one: the least count 9007199254740994
    plus a threshold of 1 is 9007199254740996, and both hosts are kept. *)
Lemma rounded_sum_retains :
  add (ofZ 9007199254740994) (ofZ 1) = ofZ 9007199254740996 /\
  outcome largeCountsRun = Ok [mkHost 1; mkHost 2].
Proof. split; vm_compute; reflexivity. Qed.

(** C5: weights enabled and the ranking function answered.  If one of
    calibrations, weights and shortfalls is null the filter throws
    "Calibrations, weights, or booking shortfalls are null" and returns no
    host list; if all three are present it returns a host list. *)
Theorem null_ranking_fields_throw hosts m et tr out lucky :
  exec (filterHostsByLeadThreshold hosts (Some m) et) tr out ->
  isRRWeightsEnabled et = true ->
  In (Ok lucky) (answers tr) ->
  ((calibrations (perUserData lucky) = None \/
    weights (perUserData lucky) = None \/
    bookingShortfalls (perUserData lucky) = None) ->
   out = Err nullFieldsError) /\
  ((is_Some (calibrations (perUserData lucky)) /\
    is_Some (weights (perUserData lucky)) /\
    is_Some (bookingShortfalls (perUserData lucky))) ->
   exists kept, out = Ok kept).
Proof.
  intros Hexec Hrr Hans.
  apply filter_exec in Hexec.
  destruct Hexec as [(-> & -> & _)|(_ & r & -> & ->)]; [destruct Hans|].
  rewrite answers_singleton in Hans. destruct Hans as [->|[]].
  unfold afterRanking. rewrite Hrr. split.
  - intros [H|[H|H]]; rewrite H; try done;
      destruct (calibrations (perUserData lucky)); try done;
      destruct (weights (perUserData lucky)); done.
  - intros ([cs ->] & [ws ->] & [sfs ->]). eauto.
Qed.

(** C5 on a ranking without weights, and on a complete one. *)
Lemma null_ranking_fields_witness :
  outcome missingWeightsRun = Err nullFieldsError /\
  exists kept, outcome weightedRun = Ok kept.
Proof.
  split.
  - apply (null_ranking_fields_throw
             [mkHost 1; mkHost 2] (ofZ 6) (mkEventType true)
             (trace missingWeightsRun) (outcome missingWeightsRun) missingWeightsData).
    + apply (run_exec (rankingEnv (fun _ => Ok missingWeightsData))).
    + reflexivity.
    + left. reflexivity.
    + right. left. reflexivity.
  - apply (null_ranking_fields_throw
             [mkHost 1; mkHost 2] (ofZ 6) (mkEventType true)
             (trace weightedRun) (outcome weightedRun) weightedData).
    + apply (run_exec (rankingEnv (fun _ => Ok weightedData))).
    + reflexivity.
    + left. reflexivity.
    + repeat split; eexists; reflexivity.
Defined.

(** C10: with a threshold and no host, reading [hosts[0].user] throws a
    TypeError before anything is called, against every environment; so an
    execution of the enabled filter that returns a host list had a
    non-empty host list to start from. *)
Theorem empty_hosts_fail_before_ranking (m : number) (et : EventType) :
  (filterHostsByLeadThreshold [] (Some m) et
   = Throw (TypeError "Cannot read properties of undefined (reading 'user')")) /\
  (forall (W : Type) (env : forall c : Call, W -> result (Resp c) * W) (w : W),
     run env (filterHostsByLeadThreshold [] (Some m) et) w
     = (Err (TypeError "Cannot read properties of undefined (reading 'user')"), [], w)) /\
  (forall hosts tr kept,
     exec (filterHostsByLeadThreshold hosts (Some m) et) tr (Ok kept) -> hosts <> []).
Proof.
  split; [reflexivity|]. split; [intros; reflexivity|].
  intros hosts tr kept H. apply filter_exec in H.
  destruct H as [(_ & _ & H)|(H & _)]; [discriminate|done].
Qed.

(** C10 on a run that returns two hosts. *)
Lemma empty_hosts_witness :
  outcome unweightedRun = Ok [mkHost 1; mkHost 2] /\
  [mkHost 1; mkHost 2; mkHost 3] <> [].
Proof.
  split; [vm_compute; reflexivity|].
  apply (proj2 (proj2 (empty_hosts_fail_before_ranking (ofZ 3) (mkEventType false)))
           [mkHost 1; mkHost 2; mkHost 3] (trace unweightedRun) [mkHost 1; mkHost 2]).
  apply (run_exec (rankingEnv (fun _ => Ok unweightedData))
                  (filterHostsByLeadThreshold [mkHost 1; mkHost 2; mkHost 3]
                     (Some (ofZ 3)) (mkEventType false)) 0%nat).
Defined.

End LeadThresholdProofs.

(** ** The threshold and the caller of the filter *)

Module LeadThresholdCallProofs.
Import JS LeadThreshold LeadThresholdCall LeadThresholdProofs.

(** An execution of the call is one of the body, and leaves the argument
    object as it was. *)
Lemma call_exec args tr out :
  exec (filterHostsByLeadThresholdOf args) tr out <->
  exists out',
    exec (filterHostsByLeadThreshold (hosts args) (maxLeadThreshold args) (eventType args))
         tr out' /\
    out = match out' with Ok kept => Ok (kept, args) | Err e => Err e end.
Proof.
  unfold filterHostsByLeadThresholdOf, andThen, read, body. cbn [bind fst snd].
  rewrite exec_bind. split.
  - intros [(tr1 & kept & tr2 & H & [-> ->] & ->)|(e & H & ->)].
    + rewrite app_nil_r. exists (Ok kept). auto.
    + exists (Err e). auto.
  - intros ([kept|e] & H & ->).
    + left. exists tr, kept, []. rewrite app_nil_r. repeat split; auto.
    + right. exists e. auto.
Qed.

(** The two calls of [successiveCalls], one after the other. *)
Lemma successiveCalls_exec args tr out :
  exec (successiveCalls args) tr out ->
  let filter :=
    filterHostsByLeadThreshold (hosts args) (maxLeadThreshold args) (eventType args) in
  (exists e, exec filter tr (Err e) /\ out = Err e) \/
  (exists tr1 first tr2 out2,
     exec filter tr1 (Ok first) /\ exec filter tr2 out2 /\ tr = tr1 ++ tr2 /\
     out = match out2 with Ok second => Ok ((first, second), args) | Err e => Err e end).
Proof.
  intros H filter. unfold successiveCalls, twice in H.
  unfold andThen at 1 in H. apply exec_bind in H.
  destruct H as [(tr1 & [first args1] & tr2 & H1 & H2 & Htr)|(e & H1 & Hout)].
  - apply call_exec in H1. destruct H1 as ([kept|e] & H1 & E); [|discriminate].
    injection E as -> ->. cbn [fst snd] in H2.
    unfold andThen in H2. apply exec_bind in H2.
    right. exists tr1, kept, tr2.
    destruct H2 as [(tr3 & [second args2] & tr4 & H3 & [Htr4 Hout] & Htr2)|(e & H3 & Hout)].
    + apply call_exec in H3. destruct H3 as ([kept2|e] & H3 & E); [|discriminate].
      injection E as -> ->. exists (Ok kept2).
      subst tr4. rewrite app_nil_r in Htr2. subst tr3. auto.
    + apply call_exec in H3. destruct H3 as ([kept2|e'] & H3 & E); [discriminate|].
      injection E as ->. exists (Err e'). auto.
  - apply call_exec in H1. destruct H1 as ([kept|e'] & H1 & E); [discriminate|].
    injection E as ->. left. eauto.
Qed.

(** Two calls on the same argument object, with the same ranking data,
    return the same hosts and leave the object as it was. *)
Lemma successive_calls_agree args tr first second args' :
  exec (successiveCalls args) tr (Ok ((first, second), args')) ->
  sameRankingData tr ->
  first = second /\ args' = args.
Proof.
  intros H Hsame. apply successiveCalls_exec in H.
  destruct H as [(e & _ & E)|(tr1 & kept & tr2 & out2 & H1 & H2 & -> & E)]; [discriminate|].
  destruct out2 as [kept2|e]; [|discriminate]. injection E as -> -> ->.
  split; [|reflexivity].
  assert (Ha : answers tr1 = answers tr2).
  { destruct (maxLeadThreshold args) as [m|].
    - apply filter_exec in H1, H2.
      destruct H1 as [(_ & _ & E)|(_ & r1 & -> & _)]; [discriminate|].
      destruct H2 as [(_ & _ & E)|(_ & r2 & -> & _)]; [discriminate|].
      rewrite !answers_singleton. f_equal. apply Hsame. reflexivity.
    - simpl in H1, H2. destruct H1 as [-> _], H2 as [-> _]. reflexivity. }
  pose proof (filter_deterministic _ _ _ _ _ _ _ H1 H2 Ha) as E.
  by injection E.
Qed.

(** C9, as the code has it: the threshold is read from the argument object
    and nothing is written, so of two successive calls on the same object,
    with the same ranking data, the second returns what the first returned,
    the object (threshold included) is as it was before the first, and
    the pair fails only when the first call fails. *)
Theorem threshold_survives_the_call args tr out :
  exec (successiveCalls args) tr out ->
  sameRankingData tr ->
  (forall first second args', out = Ok ((first, second), args') ->
     first = second /\ args' = args) /\
  (forall e, out = Err e -> exec (filterHostsByLeadThresholdOf args) tr (Err e)).
Proof.
  intros H Hsame. split.
  - intros first second args' ->. by apply (successive_calls_agree args tr).
  - intros e ->. apply call_exec. exists (Err e). split; [|reflexivity].
    apply successiveCalls_exec in H.
    destruct H as [(e' & H & E)|(tr1 & kept & tr2 & out2 & H1 & H2 & -> & E)].
    + injection E as ->. exact H.
    + destruct out2 as [kept2|e2]; [discriminate|]. injection E as ->.
      exfalso.
      destruct (maxLeadThreshold args) as [m|].
      * apply filter_exec in H1, H2.
        destruct H1 as [(_ & _ & E)|(Hne & r1 & -> & E1)]; [discriminate|].
        destruct H2 as [(Hnil & _)|(_ & r2 & -> & E2)]; [contradiction|].
        assert (r1 = r2) by (apply Hsame; reflexivity). subst r2. congruence.
      * simpl in H2. destruct H2 as [_ ?]. discriminate.
Qed.

(** C9 on the figures of the unweighted example: both calls return the
    first two hosts, and the caller still holds a threshold of 3. *)
Lemma threshold_survives_witness :
  exists first second args',
    outcome sampleCalls = Ok ((first, second), args') /\
    first = [mkHost 1; mkHost 2] /\
    first = second /\ args' = sampleArguments.
Proof.
  exists [mkHost 1; mkHost 2], [mkHost 1; mkHost 2], sampleArguments.
  split; [vm_compute; reflexivity|]. split; [reflexivity|].
  apply (proj1 (threshold_survives_the_call sampleArguments (trace sampleCalls)
                  (outcome sampleCalls)
                  (run_exec (rankingEnv (fun _ => Ok unweightedData)) _ 0%nat)
                  ltac:(intros a b E; vm_compute in E; congruence))).
  vm_compute. reflexivity.
Defined.

(** C9 as stated fails: no two successive calls on the same threshold,
    hosts and event type, with the same ranking data, differ in what they
    return, and none leaves another threshold behind. *)
Lemma threshold_is_not_consumed :
  ~ exists args tr first second args',
      exec (successiveCalls args) tr (Ok ((first, second), args')) /\
      sameRankingData tr /\
      (first <> second \/ maxLeadThreshold args' <> maxLeadThreshold args).
Proof.
  intros (args & tr & first & second & args' & H & Hsame & Hdiff).
  destruct (successive_calls_agree _ _ _ _ _ H Hsame) as [-> ->].
  destruct Hdiff as [Hne|Hne]; by apply Hne.
Qed.

(** A filter under the one-shot contract would behave otherwise: on the
    same example its second call finds no threshold and returns every
    host. *)
Lemma one_shot_filter_differs :
  outcome sampleOneShotCalls
  = Ok (([mkHost 1; mkHost 2], [mkHost 1; mkHost 2; mkHost 3]),
        {| hosts := [mkHost 1; mkHost 2; mkHost 3];
           maxLeadThreshold := None;
           eventType := mkEventType false |}) /\
  sameRankingData (trace sampleOneShotCalls).
Proof.
  split; [vm_compute; reflexivity|].
  intros a b E. vm_compute in E. discriminate E.
Qed.

End LeadThresholdCallProofs.


(** ** The onboarding finalizer *)

Module OnboardingProofs.
Import Onboarding OnboardingWorld.

Ltac run_onboarding H :=
  unfold createOrganizationFromOnboarding, createOrganizationWithOwner,
    inviteMembers, createOrMoveTeamsToOrganization, await in H;
  cbn in H; repeat exec_step H.

(** The slug handed to the creation is [null] exactly when
    [assertCanCreateOrg] reported a team of the owner with that slug. *)
Lemma deferred_slug_cases (conflict : option string) (slug : string) :
  let canSetSlug :=
    match conflict with
    | Some t => if String.eqb t "teamUserIsMemberOfExists" then false else true
    | None => true
    end in
  (conflict = Some "teamUserIsMemberOfExists" /\
   (if canSetSlug then Some slug else None) = None) \/
  (conflict <> Some "teamUserIsMemberOfExists" /\
   (if canSetSlug then Some slug else None) = Some slug).
Proof.
  destruct conflict as [t|]; cbn.
  - destruct (String.eqb_spec t "teamUserIsMemberOfExists") as [->|Hne].
    + left. done.
    + right. split; [congruence|done].
  - right. done.
Qed.

(** The finalizer returns as soon as the owner is found and every
    collaborator answers. *)
Lemma finalizer_returns ob sub tr out :
  exec (createOrganizationFromOnboarding ob sub) tr out ->
  forallb answeredOk tr = true ->
  (exists organization owner, out = Ok (organization, owner)) \/
  (tr = [Called (findUserToBeOrgOwner (orgOwnerEmail ob)) (Ok None)] /\
   out = Err (Error ("Owner not found with email: " ++ orgOwnerEmail ob))).
Proof.
  intros H Hok.
  run_onboarding H.
  all: cbn in Hok; try discriminate Hok.
  all: first [left; eauto; fail | right; subst; split; reflexivity].
Qed.

(** Every [target] event of a guarded trace has a [guard] event before it. *)
Lemma guarded_split (guard : Ev -> Prop) (target : Ev -> bool) (tr : list Ev) :
  forall seen, guarded guard target seen tr ->
  forall pre ev post, tr = pre ++ ev :: post -> target ev = true ->
  seen \/ Exists guard pre.
Proof.
  induction tr as [|x tr IH]; intros seen H pre ev post E Ht.
  - destruct pre; discriminate E.
  - destruct H as [Hx Hrest]. destruct pre as [|y pre]; simpl in E.
    + injection E as -> ->. left. auto.
    + injection E as -> ->.
      destruct (IH _ Hrest pre ev post eq_refl Ht) as [[Hs|Hg]|Hex].
      * left. exact Hs.
      * right. by apply Exists_cons_hd.
      * right. by apply Exists_cons_tl.
Qed.

Ltac find_guard :=
  first [ right; split; reflexivity | left; find_guard ].

Ltac find_lookup :=
  first [ apply Exists_cons_hd; eexists; split; reflexivity
        | apply Exists_cons_tl; find_lookup ].

(** C1, what the code does.  The finalizer looks the organization up by
    the stored id when the record has one and by slug otherwise: every run
    that returns has made that lookup, and no creation is attempted unless
    the lookup came back empty before.  When the lookup finds an
    organization, nothing is created and no creation e-mail is sent; the
    organization found is what is returned, and it is returned when every
    collaborator answers.  But the id of a created organization is recorded
    on the onboarding record only when the creation e-mail and the
    availability rows went through: if one of them fails, the run fails
    without any recording. *)
Theorem organization_id_is_recorded_only_after_mail_and_availability ob sub tr out :
  exec (createOrganizationFromOnboarding ob sub) tr out ->
  (isOk out = true -> Exists (fun ev => exists answer, lookedUp ob answer ev) tr) /\
  (forall pre ev post, tr = pre ++ ev :: post -> attemptsCreation ev = true ->
     Exists (lookedUp ob None) pre) /\
  (forall ev org, In ev tr -> lookedUp ob (Some org) ev ->
     Forall (fun c => isCreation c = false /\ isCreationEmail c = false) (calls tr) /\
     (forall organization owner, out = Ok (organization, owner) -> organization = org) /\
     (forallb answeredOk tr = true -> exists owner, out = Ok (org, owner))) /\
  (forall org, In org (creations tr) ->
     (creationFailures tr = [] <-> recordings tr = [(ob_id ob, team_id org)]) /\
     (creationFailures tr <> [] ->
      recordings tr = [] /\ exists e, creationFailures tr = [e] /\ out = Err e)).
Proof.
  intros H.
  run_onboarding H.
  all: unfold lookedUp, lookupFor.
  all: repeat match goal with E : truthyId _ = _ |- _ => rewrite E; clear E end.
  all: split; [|split; [|split]].
  all: lazymatch goal with
       | |- isOk _ = true -> _ =>
           cbn; intros Hok; try discriminate Hok; find_lookup
       | |- forall pre ev post, _ = pre ++ ev :: post -> _ =>
           intros pre ev post E Ht;
           refine (match guarded_split _ attemptsCreation _ False _ pre ev post E Ht with
                   | or_introl F => match F with end
                   | or_intror G => G
                   end);
           cbn; repeat split; intros Hc; try discriminate Hc; find_guard
       | |- forall ev org, In ev _ -> _ =>
           cbn; intros ev org Hin [Hc Ha];
           repeat (destruct Hin as [<-|Hin]; [try discriminate Hc; try discriminate Ha|]);
           try destruct Hin;
           cbn in Ha; injection Ha as ->;
           (split; [repeat constructor|split;
                    [intros ? ? E; congruence
                    |intros E; first [discriminate E|eauto]]])
       | |- forall org, In org _ -> _ =>
           cbn; intros org Hin; repeat absurd_leaf; subst;
           (split;
            [ split; intros E; first [discriminate E|reflexivity]
            | intros Hne; first [ exfalso; apply Hne; reflexivity
                                | split; [reflexivity|eexists; split; reflexivity] ] ])
       end.
Qed.

(** C1 on three deliveries of the payment webhook.  A first delivery looks
    the organization up by slug, creates it and records its id, and its
    redelivery finds it by that id.  But a first delivery whose creation
    e-mail fails, for an owner whose team still holds the slug, leaves an
    organization without slug and without recording; its redelivery looks
    the slug up, finds nothing, and creates a second organization. *)
Lemma unrecorded_organization_witness :
  Exists (lookedUp acmeOnboarding None) (take 6 (trace firstRun)) /\
  recordings (trace firstRun) = [(1, 1)] /\
  calls (trace secondRun) !! 4%nat = Some (OrganizationRepository_findById 1) /\
  (exists owner, outcome secondRun = Ok (acme, owner)) /\
  organizations (world secondRun) = [acme] /\
  creations (trace failedDelivery) = [acmePending] /\
  recordings (trace failedDelivery) = [] /\
  outcome failedDelivery = Err (Rejected "mail service unavailable") /\
  ob_organizationId (reread (world failedDelivery) migratingOnboarding) = None /\
  length (creations (trace redelivery)) = 1%nat /\
  length (organizations (world redelivery)) = 2%nat.
Proof.
  pose proof (organization_id_is_recorded_only_after_mail_and_availability
                acmeOnboarding "sub_1" (trace firstRun) (outcome firstRun)
                (run_exec env _ initial)) as (_ & Hguard & _ & Hrecord).
  pose proof (organization_id_is_recorded_only_after_mail_and_availability
                (reread (world firstRun) acmeOnboarding) "sub_1"
                (trace secondRun) (outcome secondRun)
                (run_exec env _ (world firstRun))) as (_ & _ & Hreuse & _).
  pose proof (organization_id_is_recorded_only_after_mail_and_availability
                migratingOnboarding "sub_1" (trace failedDelivery) (outcome failedDelivery)
                (run_exec env _ (withMailDown conflicting true))) as (_ & _ & _ & Hfail).
  split.
  { apply (Hguard (take 6 (trace firstRun))
                  (nth 6 (trace firstRun) (Called (getTranslation "" "") (Ok "")))
                  (drop 7 (trace firstRun))); vm_compute; reflexivity. }
  split.
  { apply (Hrecord acme); [vm_compute; left; reflexivity|]. vm_compute. reflexivity. }
  split; [vm_compute; reflexivity|].
  destruct (Hreuse (nth 4 (trace secondRun) (Called (getTranslation "" "") (Ok ""))) acme)
    as (_ & _ & Hreturn).
  { vm_compute. do 4 right. left. reflexivity. }
  { split; vm_compute; reflexivity. }
  split; [apply Hreturn; vm_compute; reflexivity|].
  split; [vm_compute; reflexivity|].
  split; [vm_compute; reflexivity|].
  destruct (Hfail acmePending) as [_ Hnone].
  { vm_compute. left. reflexivity. }
  destruct Hnone as (Hrec & e & He & Hout).
  { vm_compute. discriminate. }
  split; [exact Hrec|].
  split.
  { rewrite Hout. f_equal. vm_compute in He. by injection He. }
  repeat split; vm_compute; reflexivity.
Defined.

(** C6, what the code does: for every onboarding record, flagged
    platform-internal or not, the create-or-reuse step is run with
    [isPlatform: false]; whenever an organization is created, the creation
    e-mail is sent. *)
Theorem creation_email_ignores_platform_flag ob sub tr out org :
  exec (createOrganizationFromOnboarding ob sub) tr out ->
  In org (creations tr) ->
  Forall (fun flag => flag = false) (platformFlags tr) /\
  exists mail, In (sendOrganizationCreationEmail mail) (calls tr).
Proof.
  intros H Hin.
  run_onboarding H.
  all: cbn in Hin; repeat absurd_leaf.
  all: split; [cbn; repeat constructor|].
  all: eexists; cbn; repeat (first [left; reflexivity|right]).
Qed.

(** C6 on an onboarding record flagged platform-internal: the domain is set
    up as a platform domain, and the creation e-mail is sent all the same. *)
Lemma platform_creation_email_witness :
  ob_isPlatform platformOnboarding = true /\
  calls (trace platformRun) !! 2%nat
    = Some (setupDomain "acme" true "ada@acme.test" "en") /\
  Forall (fun flag => flag = false) (platformFlags (trace platformRun)) /\
  (exists mail, In (sendOrganizationCreationEmail mail) (calls (trace platformRun))) /\
  length (outbox (world platformRun)) = 1%nat.
Proof.
  split; [reflexivity|].
  split; [vm_compute; reflexivity|].
  destruct (creation_email_ignores_platform_flag
              platformOnboarding "sub_1" (trace platformRun) (outcome platformRun) acme
              (run_exec env _ initial)) as [Hflags Hmail].
  { vm_compute. left. reflexivity. }
  split; [exact Hflags|]. split; [exact Hmail|]. vm_compute. reflexivity.
Defined.

(** C7: when the finalizer returns, the organization it returns is the one
    it has held since the create-or-reuse step.  If the slug of that
    organization is unset, the last call of the run, after the teams were
    created or moved, sets the slug to the slug of the onboarding record,
    and it is the only such call; if the slug is set, the slug is never
    written.  An organization is created without a slug exactly when
    [assertCanCreateOrg] reported a team of the owner with that slug, and
    with the slug of the onboarding record otherwise. *)
Theorem slug_backfilled_only_when_unset ob sub tr out organization owner :
  exec (createOrganizationFromOnboarding ob sub) tr out ->
  out = Ok (organization, owner) ->
  (falsyString (team_slug organization) = true ->
     exists tr0,
       tr = tr0 ++ [Called (OrganizationRepository_setSlug (team_id organization) (ob_slug ob))
                           (Ok tt)] /\
       Forall (fun c => isSetSlug c = false) (calls tr0)) /\
  (falsyString (team_slug organization) = false ->
     Forall (fun c => isSetSlug c = false) (calls tr)) /\
  (forall s, In s (creationSlugs tr) ->
     (In (Some "teamUserIsMemberOfExists") (conflicts tr) /\ s = None) \/
     (~ In (Some "teamUserIsMemberOfExists") (conflicts tr) /\ s = Some (ob_slug ob))).
Proof.
  intros H Hout.
  run_onboarding H.
  all: try discriminate Hout.
  all: injection Hout as <- <-.
  all: repeat match goal with u : unit |- _ => destruct u end.
  all: split; [|split].
  all: lazymatch goal with
       | |- _ = true -> _ =>
           intros Hf;
           first [ congruence
                 | match goal with
                   | |- exists tr0, ?tr = _ /\ _ =>
                       exists (removelast tr); split;
                       [cbn; reflexivity|cbn; repeat constructor]
                   end ]
       | |- _ = false -> _ =>
           intros Hf; first [ congruence | cbn; repeat constructor ]
       | |- forall s, _ =>
           cbn; intros s Hs; repeat absurd_leaf;
           match goal with
           | Hs' : context [match ?a with Some _ => _ | None => _ end] |- _ =>
               destruct (deferred_slug_cases a (ob_slug ob)) as [[Ha E]|[Hne E]];
               cbv zeta in E; rewrite E in Hs'; subst s;
               [left; split; [left; exact Ha|reflexivity]
               |right; split; [intros [F|[]]; congruence|reflexivity]]
           end
       end.
Qed.

(** C7 on an owner who is a member of a team that has the slug: the
    organization is created without a slug, the team is moved, and the
    slug is set last; and on an organization created with its slug, which
    is not written again. *)
Lemma slug_backfill_witness :
  outcome migratingRun = Ok (acmePending, ada) /\
  creationSlugs (trace migratingRun) = [None] /\
  last (calls (trace migratingRun)) = Some (OrganizationRepository_setSlug 1 "acme") /\
  organizations (world migratingRun) = [acme] /\
  outcome firstRun = Ok (acme, ada) /\
  Forall (fun c => isSetSlug c = false) (calls (trace firstRun)).
Proof.
  destruct (slug_backfilled_only_when_unset
              migratingOnboarding "sub_1" (trace migratingRun) (outcome migratingRun)
              acmePending ada (run_exec env _ conflicting))
    as (Hset & _ & Hdefer).
  { vm_compute. reflexivity. }
  destruct (slug_backfilled_only_when_unset
              acmeOnboarding "sub_1" (trace firstRun) (outcome firstRun)
              acme ada (run_exec env _ initial))
    as (_ & Hkeep & _).
  { vm_compute. reflexivity. }
  split; [vm_compute; reflexivity|].
  split; [vm_compute; reflexivity|].
  split.
  { destruct (Hset eq_refl) as (tr0 & E & _). rewrite E.
    unfold calls. rewrite omap_app. cbn. apply last_snoc. }
  split; [vm_compute; reflexivity|].
  split; [vm_compute; reflexivity|].
  apply Hkeep. reflexivity.
Defined.

End OnboardingProofs.

(** ** Seat cancellation *)

Module SeatCancellationProofs.
Import SeatCancellation SeatCancellationWorld.

Lemma deliveries_app tr1 tr2 : deliveries (tr1 ++ tr2) = deliveries tr1 ++ deliveries tr2.
Proof. apply omap_app. Qed.

Lemma loggedUrls_app tr1 tr2 : loggedUrls (tr1 ++ tr2) = loggedUrls tr1 ++ loggedUrls tr2.
Proof. apply omap_app. Qed.

(** The loop over the booking references neither delivers nor logs,
    whatever the integration updates it starts settle with. *)
Lemma updateReferences_exec evt attendee references :
  forall integrationsToUpdate tr out,
    exec (updateReferences evt attendee references integrationsToUpdate) tr out ->
    deliveries tr = [] /\ loggedUrls tr = [].
Proof.
  induction references as [|reference rest IH]; intros acc tr out H.
  - cbn in H. destruct H as [-> ->]. cbn. eauto.
  - cbn [updateReferences] in H. apply exec_bind in H.
    destruct H as [(tr1 & a & tr2 & H1 & H2 & ->)|(e & H1 & ->)].
    + apply IH in H2. destruct H2 as (Hd & Hl).
      rewrite deliveries_app, loggedUrls_app, Hd, Hl, !app_nil_r.
      unfold await, begin in H1. cbn in H1.
      repeat exec_step H1.
      all: cbn; split; reflexivity.
    + unfold await, begin in H1. cbn in H1.
      repeat exec_step H1.
      all: cbn; split; reflexivity.
Qed.

(** The deliveries are started in the order of the webhooks and log
    nothing; when all of them could be started, every webhook has one. *)
Lemma startDeliveries_exec payload :
  forall hooks tr out,
    exec (startDeliveries hooks payload) tr out ->
    loggedUrls tr = [] /\
    forall ps, out = Ok ps ->
      List.map fst ps = hooks /\
      deliveries tr = List.map (fun p => (fst p, isOk (snd p))) ps.
Proof.
  induction hooks as [|webhook rest IH]; intros tr out H.
  - cbn in H. destruct H as [-> ->]. cbn. split; [done|]. intros ps E.
    injection E as <-. done.
  - cbn [startDeliveries] in H. unfold await, begin in H. cbn in H.
    destruct H as (r & tr' & -> & H). destruct r as [createdAt|e]; cbn in H.
    + destruct H as (p & tr'' & -> & H).
      apply exec_bind in H.
      destruct H as [(tr1 & ps & tr2 & H1 & [-> ->] & ->)|(e & H1 & ->)].
      * apply IH in H1. destruct H1 as [Hl Hs]. rewrite app_nil_r. cbn.
        split; [exact Hl|]. intros ps' E. injection E as <-.
        destruct (Hs ps eq_refl) as (Hm & Hd).
        cbn. unfold deliveries in Hd. rewrite Hm, Hd. done.
      * apply IH in H1. destruct H1 as [Hl _]. cbn. split; [exact Hl|].
        intros ps E. discriminate E.
    + destruct H as [-> ->]. cbn. split; [done|]. intros ps E. discriminate E.
Qed.

(** The [catch] handlers log the failed deliveries, one entry each, call
    nobody and leave fulfilled promises only. *)
Lemma catchDeliveries_exec evt :
  forall ps tr out,
    exec (catchDeliveries evt ps) tr out ->
    deliveries tr = [] /\
    loggedUrls tr = failedUrls (List.map (fun p => (fst p, isOk (snd p))) ps) /\
    exists qs, out = Ok qs /\ forallb isOk qs = true.
Proof.
  induction ps as [|[webhook [v|e]] rest IH]; intros tr out H; cbn in H.
  - destruct H as [-> ->]. cbn. repeat split; eauto.
  - apply exec_bind in H.
    destruct H as [(tr1 & qs & tr2 & H1 & [-> ->] & ->)|(e & H1 & ->)];
      apply IH in H1; destruct H1 as (Hd & Hl & qs' & E & Hok).
    + injection E as <-. rewrite app_nil_r. cbn. repeat split; eauto.
    + discriminate.
  - destruct H as (tr' & -> & H). apply exec_bind in H.
    destruct H as [(tr1 & qs & tr2 & H1 & [-> ->] & ->)|(e' & H1 & ->)];
      apply IH in H1; destruct H1 as (Hd & Hl & qs' & E & Hok).
    + injection E as <-. rewrite app_nil_r. cbn. unfold loggedUrls in Hl. rewrite Hl.
      repeat split; eauto.
    + discriminate.
Qed.

(** From the delivery of the webhooks to the end of the handler. *)
Lemma deliver_and_finish_exec hooks payload evt' reminders tr out :
  exec (started <- startDeliveries hooks payload ;;
        promises <- catchDeliveries evt' started ;;
        awaitAll promises ;;;
        await (WorkflowRepository_deleteAllWorkflowReminders reminders) ;;;
        Ret (Some {| success := true |}))%prog tr out ->
  (loggedUrls tr = [] \/ loggedUrls tr = failedUrls (deliveries tr)) /\
  (isOk out = true ->
   List.map fst (deliveries tr) = hooks /\ loggedUrls tr = failedUrls (deliveries tr)).
Proof.
  intros H.
  apply exec_bind in H.
  destruct H as [(tr1 & started & tr2 & H1 & H & ->)|(e & H1 & ->)];
    apply startDeliveries_exec in H1; destruct H1 as [Hl1 Hs1].
  - destruct (Hs1 started eq_refl) as (Hm & Hd).
    apply exec_bind in H.
    destruct H as [(tr3 & promises & tr4 & H3 & H & ->)|(e & H3 & ->)];
      apply catchDeliveries_exec in H3;
      destruct H3 as (Hd3 & Hl3 & qs & E & Hok); [injection E as <-|discriminate].
    destruct (@awaitAll_fulfilled Call Resp Output _ promises Hok) as [xs Exs].
    rewrite Exs in H. unfold await in H. cbn in H.
    destruct H as (r & tr5 & -> & H).
    assert (Etr5 : tr5 = []) by (destruct r as [[]|e]; cbn in H; by destruct H).
    subst tr5.
    set (finish := Called (WorkflowRepository_deleteAllWorkflowReminders reminders) r).
    assert (Hdel : deliveries (tr1 ++ tr3 ++ [finish]) = deliveries tr1).
    { rewrite !deliveries_app, Hd3. cbn. by rewrite app_nil_r. }
    assert (Hlog : loggedUrls (tr1 ++ tr3 ++ [finish]) = failedUrls (deliveries tr1)).
    { rewrite !loggedUrls_app, Hl1, Hl3, Hd. cbn. by rewrite app_nil_r. }
    rewrite Hdel, Hlog. split; [by right|]. intros _. split; [|done].
    rewrite Hd, map_map. exact Hm.
  - split; [left; exact Hl1|]. intros E. discriminate E.
Qed.

(** C8, what the code does.  In every execution of the handler the
    error-level log is written by the [catch] of the webhook deliveries
    only: it is empty, or it names the subscribers whose delivery failed,
    one entry each, in order.  No entry is ever written for an integration
    update, whether it fails or not.  When the handler returns, every
    webhook of the call had its delivery started, in order, however the
    deliveries before it settled. *)
Theorem only_failed_deliveries_are_logged req dataForWebhooks eventTypeMetadata tr out :
  exec (cancelAttendeeSeat req dataForWebhooks eventTypeMetadata) tr out ->
  (loggedUrls tr = [] \/ loggedUrls tr = failedUrls (deliveries tr)) /\
  (out = Ok (Some {| success := true |}) ->
   List.map fst (deliveries tr) = webhooks dataForWebhooks /\
   loggedUrls tr = failedUrls (deliveries tr)).
Proof.
  intros H.
  unfold cancelAttendeeSeat, await, begin in H. cbn in H.
  repeat exec_head H.
  all: try solve [cbn; split; [left; reflexivity|intros E; discriminate E]].
  - apply exec_bind in H.
    destruct H as [(tr1 & u & tr2 & H1 & H & ->)|(e & H1 & ->)].
    + apply exec_bind in H1.
      destruct H1 as [(tr3 & ints & tr4 & H3 & H1 & ->)|(e & H3 & ?)]; [|discriminate].
      apply updateReferences_exec in H3. destruct H3 as (Hd3 & Hl3).
      rewrite swallowed_rejections in H1. cbn in H1.
      repeat exec_head H1. cbn in H. repeat exec_head H.
      * eapply deliver_and_finish_exec in H. destruct H as (Hlog & Hret).
        cbn. rewrite !deliveries_app, !loggedUrls_app, Hd3, Hl3. cbn.
        split; [exact Hlog|]. intros E. apply Hret. rewrite E. reflexivity.
      * cbn. rewrite !deliveries_app, !loggedUrls_app, Hd3, Hl3. cbn.
        split; [left; reflexivity|intros E; discriminate E].
    + apply exec_bind in H1.
      destruct H1 as [(tr3 & ints & tr4 & H3 & H1 & ->)|(e' & H3 & _)].
      * apply updateReferences_exec in H3. destruct H3 as (Hd3 & Hl3).
        rewrite swallowed_rejections in H1. cbn in H1.
        repeat exec_head H1.
        all: cbn; rewrite !deliveries_app, !loggedUrls_app, Hd3, Hl3; cbn.
        all: split; [left; reflexivity|intros E; discriminate E].
      * apply updateReferences_exec in H3. destruct H3 as (Hd3 & Hl3).
        unfold loggedUrls in *. cbn. rewrite Hl3.
        split; [left; reflexivity|intros E; discriminate E].
  - eapply deliver_and_finish_exec in H. destruct H as (Hlog & Hret).
    cbn. split; [exact Hlog|]. intros E. apply Hret. rewrite E. reflexivity.
Qed.

(** C8 on a cancellation during which the calendar provider is down and
    the subscribers are reachable: the update of the calendar event is
    rejected, the handler goes on to the end, and the error-level log
    stays empty. *)
Lemma unlogged_integration_failure_witness :
  existsb failedIntegration (trace calendarDownRun) = true /\
  outcome calendarDownRun = Ok (Some {| success := true |}) /\
  List.map fst (deliveries (trace calendarDownRun)) = [hookA; hookB] /\
  loggedUrls (trace calendarDownRun) = [].
Proof.
  split; [vm_compute; reflexivity|]. split; [vm_compute; reflexivity|].
  destruct (only_failed_deliveries_are_logged
              seatRequest seatData "{}" (trace calendarDownRun) (outcome calendarDownRun)
              (run_exec env _ _)) as (_ & Hret).
  destruct Hret as (Hhooks & Hlog); [vm_compute; reflexivity|].
  split; [exact Hhooks|]. rewrite Hlog. vm_compute. reflexivity.
Defined.

(** The same with the first of the two subscribers down as well: the
    second delivery is made all the same, and the log names the
    unreachable subscriber, not the calendar provider. *)
Lemma failed_delivery_is_logged :
  existsb failedIntegration (trace degradedRun) = true /\
  deliveries (trace degradedRun) = [(hookA, false); (hookB, true)] /\
  loggedUrls (trace degradedRun) = ["https://a.test/hook"].
Proof. vm_compute. repeat split; reflexivity. Qed.

End SeatCancellationProofs.

(** ** More about the lead-threshold filter *)

Module LeadThresholdExtras.
Import JS LeadThreshold LeadThresholdCases LeadThresholdProofs.

Lemma filter_sublist {A} (f : A -> bool) (l : list A) : sublist (List.filter f l) l.
Proof.
  induction l as [|x l IH]; simpl; [constructor|].
  destruct (f x); by constructor.
Qed.

(** Every outcome of the filter, by cases on the threshold. *)
Lemma filter_returns hosts mlt et tr kept :
  exec (filterHostsByLeadThreshold hosts mlt et) tr (Ok kept) ->
  (mlt = None /\ kept = hosts) \/
  (exists m r, mlt = Some m /\ hosts <> [] /\ answers tr = [r] /\
               afterRanking hosts m et r = Ok kept).
Proof.
  destruct mlt as [m|].
  - intros H. apply filter_exec in H.
    destruct H as [(_ & _ & H)|(Hne & r & -> & H)]; [discriminate|].
    right. exists m, r. eauto.
  - simpl. intros [_ H]. left. split; [done|]. by injection H.
Qed.

(** What [afterRanking] keeps is chosen by user id among the hosts. *)
Lemma afterRanking_kept hosts m et r kept :
  afterRanking hosts m et r = Ok kept ->
  exists keep : Z -> bool,
    kept = List.filter (fun host => keep (user_id (user host))) hosts.
Proof.
  unfold afterRanking. destruct r as [lucky|e]; [|discriminate].
  destruct (isRRWeightsEnabled et).
  - destruct (calibrations (perUserData lucky)) as [cs|]; [|discriminate].
    destruct (weights (perUserData lucky)) as [ws|]; [|discriminate].
    destruct (bookingShortfalls (perUserData lucky)) as [sfs|]; [|discriminate].
    intros H. injection H as <-.
    exists (fun i => match bookingsCount (perUserData lucky) !! i with
                     | Some _ => negb (exceedsLead ws sfs m i)
                     | None => false
                     end). reflexivity.
  - intros H. injection H as <-.
    exists (fun i => match bookingsCount (perUserData lucky) !! i with
                     | Some _ => withinLead (bookingsCount (perUserData lucky)) m i
                     | None => false
                     end). reflexivity.
Qed.

(** X1: the hosts the filter returns are hosts it was given, in the order
    it was given them: nothing is added, duplicated or reordered. *)
Theorem kept_hosts_are_a_sublist hosts mlt et tr kept :
  exec (filterHostsByLeadThreshold hosts mlt et) tr (Ok kept) ->
  sublist kept hosts.
Proof.
  intros H. apply filter_returns in H.
  destruct H as [(_ & ->)|(m & r & _ & _ & _ & H)]; [reflexivity|].
  apply afterRanking_kept in H. destruct H as [keep ->]. apply filter_sublist.
Qed.

Lemma kept_hosts_sublist_witness :
  outcome strangerRun = Ok [mkHost 1; mkHost 2] /\
  sublist [mkHost 1; mkHost 2] [mkHost 1; mkHost 4; mkHost 2].
Proof.
  split; [vm_compute; reflexivity|].
  apply (kept_hosts_are_a_sublist
           [mkHost 1; mkHost 4; mkHost 2] (Some (ofZ 3)) (mkEventType false)
           (trace strangerRun)).
  apply (run_exec (rankingEnv (fun _ => Ok unweightedData))
                  (filterHostsByLeadThreshold [mkHost 1; mkHost 4; mkHost 2]
                     (Some (ofZ 3)) (mkEventType false)) 0%nat).
Defined.

(** X2: the filter decides per user: of two hosts it was given that have
    the same user id, either both are returned or neither is. *)
Theorem hosts_of_one_user_share_their_fate hosts mlt et tr kept h1 h2 :
  exec (filterHostsByLeadThreshold hosts mlt et) tr (Ok kept) ->
  In h1 hosts -> In h2 hosts ->
  user_id (user h1) = user_id (user h2) ->
  (In h1 kept <-> In h2 kept).
Proof.
  intros H H1 H2 Hid. apply filter_returns in H.
  destruct H as [(_ & ->)|(m & r & _ & _ & _ & H)]; [tauto|].
  apply afterRanking_kept in H. destruct H as [keep ->].
  rewrite !filter_In, Hid. tauto.
Qed.

Lemma shared_user_witness :
  outcome sharedUserRun = Ok [mkHostAt 2 10; mkHostAt 2 20] /\
  (In (mkHostAt 2 10) [mkHostAt 2 10; mkHostAt 2 20] <->
   In (mkHostAt 2 20) [mkHostAt 2 10; mkHostAt 2 20]).
Proof.
  split; [vm_compute; reflexivity|].
  apply (hosts_of_one_user_share_their_fate
           [mkHostAt 2 10; mkHost 3; mkHostAt 2 20] (Some (ofZ 3)) (mkEventType false)
           (trace sharedUserRun)).
  - apply (run_exec (rankingEnv (fun _ => Ok unweightedData))
                    (filterHostsByLeadThreshold [mkHostAt 2 10; mkHost 3; mkHostAt 2 20]
                       (Some (ofZ 3)) (mkEventType false)) 0%nat).
  - left. reflexivity.
  - right. right. left. reflexivity.
  - reflexivity.
Defined.

(** X3: with a threshold set the filter fails in three ways only: on an
    empty list of hosts, before the ranking is asked; with the error of the
    ranking itself; or, with weights enabled, with the error about missing
    calibrations, weights or shortfalls when the ranking left one of them
    out. *)
Theorem filter_failures hosts m et tr e :
  exec (filterHostsByLeadThreshold hosts (Some m) et) tr (Err e) ->
  (hosts = [] /\ tr = [] /\
   e = TypeError "Cannot read properties of undefined (reading 'user')") \/
  (hosts <> [] /\ answers tr = [Err e]) \/
  (hosts <> [] /\ isRRWeightsEnabled et = true /\ e = nullFieldsError /\
   exists lucky, answers tr = [Ok lucky] /\
     (calibrations (perUserData lucky) = None \/
      weights (perUserData lucky) = None \/
      bookingShortfalls (perUserData lucky) = None)).
Proof.
  intros H. apply filter_exec in H.
  destruct H as [(-> & -> & H)|(Hne & r & -> & H)].
  - left. injection H as <-. done.
  - right. destruct r as [lucky|e']; simpl in H.
    + right. destruct (isRRWeightsEnabled et); [|discriminate].
      destruct (calibrations (perUserData lucky)) as [cs|] eqn:Ec;
        [destruct (weights (perUserData lucky)) as [ws|] eqn:Ew;
         [destruct (bookingShortfalls (perUserData lucky)) as [sfs|] eqn:Es;
          [discriminate|]|]|];
        injection H as <-; repeat split; try done; exists lucky;
        rewrite ?Ec, ?Ew, ?Es; split; auto.
    + left. injection H as ->. done.
Qed.

Lemma filter_failures_witness :
  outcome rankingDownRun = Err (Rejected "ranking unavailable") /\
  answers (trace rankingDownRun) = [Err (Rejected "ranking unavailable")].
Proof.
  split; [vm_compute; reflexivity|].
  destruct (filter_failures
              [mkHost 1; mkHost 2] (ofZ 3) (mkEventType false)
              (trace rankingDownRun) (Rejected "ranking unavailable"))
    as [(H & _)|[(_ & H)|(_ & H & _)]].
  - apply (run_exec (rankingEnv (fun _ => Err (Rejected "ranking unavailable")))
                    (filterHostsByLeadThreshold [mkHost 1; mkHost 2]
                       (Some (ofZ 3)) (mkEventType false)) 0%nat).
  - discriminate H.
  - exact H.
  - discriminate H.
Defined.

(** X4: with a threshold set and at least one host, the ranking is asked
    exactly once, about all the hosts as available users and as round-robin
    hosts, for the event type of the call and without a routing-form
    response; its failure is the failure of the filter. *)
Theorem ranking_is_asked_once_about_all_hosts hosts m et tr out :
  hosts <> [] ->
  exec (filterHostsByLeadThreshold hosts (Some m) et) tr out ->
  exists r,
    tr = [Called (getOrderedListOfLuckyUsers
                    {| availableUsers := List.map toAvailableUser hosts;
                       arg_eventType := et;
                       allRRHosts := hosts;
                       routingFormResponse := None |}) r] /\
    (forall e, r = Err e -> out = Err e).
Proof.
  intros Hne H. apply filter_exec in H.
  destruct H as [(-> & _)|(_ & r & -> & ->)]; [done|].
  exists r. split; [reflexivity|]. intros e ->. reflexivity.
Qed.

Lemma ranking_asked_witness :
  exists r,
    trace zeroThresholdRun
    = [Called (getOrderedListOfLuckyUsers
                 {| availableUsers := List.map toAvailableUser [mkHost 1; mkHost 2; mkHost 3];
                    arg_eventType := mkEventType false;
                    allRRHosts := [mkHost 1; mkHost 2; mkHost 3];
                    routingFormResponse := None |}) r] /\
    (forall e, r = Err e -> outcome zeroThresholdRun = Err e).
Proof.
  apply (ranking_is_asked_once_about_all_hosts
           [mkHost 1; mkHost 2; mkHost 3] (ofZ 0) (mkEventType false)).
  - discriminate.
  - apply (run_exec (rankingEnv (fun _ => Ok unweightedData))
                    (filterHostsByLeadThreshold [mkHost 1; mkHost 2; mkHost 3]
                       (Some (ofZ 0)) (mkEventType false)) 0%nat).
Defined.


(** *** The unweighted policy *)

Lemma unweighted_kept hosts m et tr kept lucky host :
  exec (filterHostsByLeadThreshold hosts (Some m) et) tr (Ok kept) ->
  isRRWeightsEnabled et = false ->
  In (Ok lucky) (answers tr) ->
  (In host kept <->
   In host hosts /\
   is_Some (bookingsCount (perUserData lucky) !! user_id (user host)) /\
   withinLead (bookingsCount (perUserData lucky)) m (user_id (user host)) = true).
Proof.
  intros H Hrr Hans. apply filter_exec in H.
  destruct H as [(_ & _ & H)|(_ & r & -> & H)]; [discriminate|].
  rewrite answers_singleton in Hans. destruct Hans as [->|[]].
  unfold afterRanking in H. rewrite Hrr in H. injection H as H. subst kept.
  rewrite filter_In.
  destruct (bookingsCount (perUserData lucky) !! user_id (user host)) eqn:E.
  - split; [intros [? ?]; eauto|tauto].
  - split; [intros [_ ?]; discriminate|intros (_ & [? ?] & _); discriminate].
Qed.

Lemma le_add_monotone c x (m m' : Q) :
  (m <= m')%Q -> le c (add x (Fin m)) = true -> le c (add x (Fin m')) = true.
Proof.
  intros Hm. destruct x as [| |a|]; cbn [add]; try done.
  intros H. apply (JSFacts.le_trans _ _ _ H), JSFacts.round_mono.
  apply Qplus_le_r. exact Hm.
Qed.

(** X5: without weights, the filter is monotone in the threshold: on the
    same answer of the ranking, a host kept under a threshold is kept under
    every larger one. *)
Theorem wider_threshold_keeps_more hosts (m m' : Q) et tr kept tr' kept' :
  exec (filterHostsByLeadThreshold hosts (Some (Fin m)) et) tr (Ok kept) ->
  exec (filterHostsByLeadThreshold hosts (Some (Fin m')) et) tr' (Ok kept') ->
  answers tr = answers tr' ->
  isRRWeightsEnabled et = false ->
  (m <= m')%Q ->
  forall host, In host kept -> In host kept'.
Proof.
  intros H H' Ha Hrr Hm host Hin.
  pose proof H as Hr. apply filter_returns in Hr.
  destruct Hr as [(? & _)|(m0 & r & _ & _ & Hr & Hk)]; [discriminate|].
  destruct r as [lucky|e]; [|discriminate].
  assert (Hans : In (Ok lucky) (answers tr)) by (rewrite Hr; by left).
  assert (Hans' : In (Ok lucky) (answers tr')) by (rewrite <- Ha; exact Hans).
  apply (unweighted_kept _ _ _ _ _ lucky host H Hrr Hans) in Hin.
  apply (unweighted_kept _ _ _ _ _ lucky host H' Hrr Hans').
  destruct Hin as (Hh & Hs & Hw). repeat split; try done.
  unfold withinLead in *. by apply le_add_monotone with m.
Qed.

Lemma wider_threshold_witness :
  outcome zeroThresholdRun = Ok [mkHost 1] /\
  outcome wideThresholdRun = Ok [mkHost 1; mkHost 2; mkHost 3] /\
  In (mkHost 1) [mkHost 1; mkHost 2; mkHost 3].
Proof.
  split; [vm_compute; reflexivity|]. split; [vm_compute; reflexivity|].
  apply (wider_threshold_keeps_more
           [mkHost 1; mkHost 2; mkHost 3] 0 6 (mkEventType false)
           (trace zeroThresholdRun) [mkHost 1] (trace wideThresholdRun)).
  - apply (run_exec (rankingEnv (fun _ => Ok unweightedData))
                    (filterHostsByLeadThreshold [mkHost 1; mkHost 2; mkHost 3]
                       (Some (ofZ 0)) (mkEventType false)) 0%nat).
  - apply (run_exec (rankingEnv (fun _ => Ok unweightedData))
                    (filterHostsByLeadThreshold [mkHost 1; mkHost 2; mkHost 3]
                       (Some (ofZ 6)) (mkEventType false)) 0%nat).
  - reflexivity.
  - reflexivity.
  - vm_compute. discriminate.
  - left. reflexivity.
Defined.

Lemma least_booked_host_witness_data :
  forall v, In v (values (numMap [(1, 2); (2, 5); (3, 8)])) -> isFinite v = true.
Proof.
  intros v Hv. vm_compute in Hv.
  destruct Hv as [<-|[<-|[<-|[]]]]; reflexivity.
Qed.

(** X6: without weights and with a threshold that is not negative, a host
    whose user has the least of the finite booking counts is always
    kept. *)
Theorem least_booked_host_is_kept hosts (m : Q) et tr out lucky host count :
  exec (filterHostsByLeadThreshold hosts (Some (Fin m)) et) tr out ->
  isRRWeightsEnabled et = false ->
  In (Ok lucky) (answers tr) ->
  (0 <= m)%Q ->
  (forall v, In v (values (bookingsCount (perUserData lucky))) -> isFinite v = true) ->
  In host hosts ->
  bookingsCount (perUserData lucky) !! user_id (user host) = Some count ->
  (forall v, In v (values (bookingsCount (perUserData lucky))) -> le count v = true) ->
  exists kept, out = Ok kept /\ In host kept.
Proof.
  intros H Hrr Hans Hm Hfin Hin Hcount Hleast.
  assert (Hout : exists kept, out = Ok kept).
  { apply filter_exec in H. destruct H as [(-> & _)|(_ & r & -> & ->)]; [destruct Hin|].
    rewrite answers_singleton in Hans. destruct Hans as [->|[]].
    unfold afterRanking. rewrite Hrr. eauto. }
  destruct Hout as [kept ->]. exists kept. split; [reflexivity|].
  apply (unweighted_kept _ _ _ _ _ lucky host H Hrr Hans).
  split; [exact Hin|]. split; [eauto|].
  unfold withinLead. rewrite Hcount. simpl.
  assert (Hv : In count (values (bookingsCount (perUserData lucky))))
    by (apply elem_of_values; eauto).
  destruct (Math_min_minimum (values (bookingsCount (perUserData lucky)))) as [Hmem _].
  { intros E. rewrite E in Hv. destruct Hv. }
  { exact Hfin. }
  pose proof (Hleast _ Hmem) as Hle.
  pose proof (Hfin _ Hmem) as Hf.
  pose proof (Hfin _ Hv) as Hc.
  destruct (Math_min (values (bookingsCount (perUserData lucky)))) as [| |a|];
    try discriminate.
  destruct count as [| |c|]; try discriminate.
  cbn [add]. cbn [isFinite] in Hc. cbn [le] in Hle. apply Qle_bool_iff in Hle.
  rewrite <- (JSFacts.le_double c) by exact Hc.
  apply JSFacts.round_mono.
  eapply Qle_trans; [exact Hle|].
  rewrite <- (Qplus_0_r a) at 1. apply Qplus_le_r. exact Hm.
Qed.

Lemma least_booked_host_witness :
  exists kept, outcome zeroThresholdRun = Ok kept /\ In (mkHost 1) kept.
Proof.
  apply (least_booked_host_is_kept
           [mkHost 1; mkHost 2; mkHost 3] 0 (mkEventType false)
           (trace zeroThresholdRun) (outcome zeroThresholdRun) unweightedData
           (mkHost 1) (ofZ 2)).
  - apply (run_exec (rankingEnv (fun _ => Ok unweightedData))
                    (filterHostsByLeadThreshold [mkHost 1; mkHost 2; mkHost 3]
                       (Some (ofZ 0)) (mkEventType false)) 0%nat).
  - reflexivity.
  - left. reflexivity.
  - vm_compute. discriminate.
  - exact least_booked_host_witness_data.
  - left. reflexivity.
  - vm_compute. reflexivity.
  - intros v Hv. vm_compute in Hv.
    destruct Hv as [<-|[<-|[<-|[]]]]; vm_compute; reflexivity.
Defined.

(** *** The weighted policy *)

Lemma weighted_kept hosts m et tr kept lucky cs ws sfs host :
  exec (filterHostsByLeadThreshold hosts (Some m) et) tr (Ok kept) ->
  isRRWeightsEnabled et = true ->
  In (Ok lucky) (answers tr) ->
  calibrations (perUserData lucky) = Some cs ->
  weights (perUserData lucky) = Some ws ->
  bookingShortfalls (perUserData lucky) = Some sfs ->
  (In host kept <->
   In host hosts /\
   is_Some (bookingsCount (perUserData lucky) !! user_id (user host)) /\
   exceedsLead ws sfs m (user_id (user host)) = false).
Proof.
  intros H Hrr Hans Hcs Hws Hsfs. apply filter_exec in H.
  destruct H as [(_ & _ & H)|(_ & r & -> & H)]; [discriminate|].
  rewrite answers_singleton in Hans. destruct Hans as [->|[]].
  unfold afterRanking in H. rewrite Hrr, Hcs, Hws, Hsfs in H.
  injection H as H. subst kept.
  rewrite filter_In.
  destruct (bookingsCount (perUserData lucky) !! user_id (user host)) eqn:E.
  - rewrite negb_true_iff. split; [intros [? ?]; eauto|tauto].
  - split; [intros [_ ?]; discriminate|intros (_ & [? ?] & _); discriminate].
Qed.

Lemma weighted_returns hosts m et tr out lucky cs ws sfs :
  exec (filterHostsByLeadThreshold hosts (Some m) et) tr out ->
  isRRWeightsEnabled et = true ->
  In (Ok lucky) (answers tr) ->
  calibrations (perUserData lucky) = Some cs ->
  weights (perUserData lucky) = Some ws ->
  bookingShortfalls (perUserData lucky) = Some sfs ->
  exists kept, out = Ok kept.
Proof.
  intros H Hrr Hans Hcs Hws Hsfs. apply filter_exec in H.
  destruct H as [(_ & -> & _)|(_ & r & -> & ->)]; [destruct Hans|].
  rewrite answers_singleton in Hans. destruct Hans as [->|[]].
  unfold afterRanking. rewrite Hrr, Hcs, Hws, Hsfs. eauto.
Qed.

Lemma gt_NaN_r x : gt x NaN = false.
Proof. by destruct x. Qed.

Lemma mul_NaN_r x : mul x NaN = NaN.
Proof. by destruct x. Qed.

(** X7: with weights enabled, a host whose user has a booking count but no
    shortfall or no weight in the answer of the ranking is kept: the
    comparison against a missing number is false. *)
Theorem missing_ranking_entry_keeps_host hosts m et tr out lucky cs ws sfs host :
  exec (filterHostsByLeadThreshold hosts (Some m) et) tr out ->
  isRRWeightsEnabled et = true ->
  In (Ok lucky) (answers tr) ->
  calibrations (perUserData lucky) = Some cs ->
  weights (perUserData lucky) = Some ws ->
  bookingShortfalls (perUserData lucky) = Some sfs ->
  In host hosts ->
  is_Some (bookingsCount (perUserData lucky) !! user_id (user host)) ->
  sfs !! user_id (user host) = None \/ ws !! user_id (user host) = None ->
  exists kept, out = Ok kept /\ In host kept.
Proof.
  intros H Hrr Hans Hcs Hws Hsfs Hin Hcount Hmiss.
  destruct (weighted_returns _ _ _ _ _ _ _ _ _ H Hrr Hans Hcs Hws Hsfs) as [kept ->].
  exists kept. split; [reflexivity|].
  apply (weighted_kept _ _ _ _ _ lucky cs ws sfs host H Hrr Hans Hcs Hws Hsfs).
  split; [exact Hin|]. split; [exact Hcount|].
  unfold exceedsLead, allowedLeadOf. destruct Hmiss as [E|E]; rewrite E; simpl.
  - unfold gt. by destruct (mul m _).
  - rewrite mul_NaN_r. apply gt_NaN_r.
Qed.

Lemma missing_ranking_entry_witness :
  (exists kept, outcome patchyRun = Ok kept /\ In (mkHost 1) kept) /\
  (exists kept, outcome patchyRun = Ok kept /\ In (mkHost 2) kept).
Proof.
  assert (Hexec : exec (filterHostsByLeadThreshold [mkHost 1; mkHost 2]
                          (Some (ofZ 6)) (mkEventType true))
                       (trace patchyRun) (outcome patchyRun))
    by apply (run_exec (rankingEnv (fun _ => Ok patchyData))).
  split.
  - apply (missing_ranking_entry_keeps_host _ _ _ _ _ patchyData
             (numMap [(1, 0); (2, 0)]) (numMap [(1, 100)]) (numMap [(2, -50)])
             (mkHost 1) Hexec); try reflexivity.
    + left. reflexivity.
    + left. reflexivity.
    + exists (ofZ 7). vm_compute. reflexivity.
    + left. vm_compute. reflexivity.
  - apply (missing_ranking_entry_keeps_host _ _ _ _ _ patchyData
             (numMap [(1, 0); (2, 0)]) (numMap [(1, 100)]) (numMap [(2, -50)])
             (mkHost 2) Hexec); try reflexivity.
    + left. reflexivity.
    + right. left. reflexivity.
    + exists (ofZ 4). vm_compute. reflexivity.
    + right. vm_compute. reflexivity.
Defined.

(** X8: a host whose user has no booking count in the answer of the
    ranking is never returned, with or without weights: only the users the
    ranking counted are considered. *)
Theorem unranked_host_is_excluded hosts m et tr kept lucky host :
  exec (filterHostsByLeadThreshold hosts (Some m) et) tr (Ok kept) ->
  In (Ok lucky) (answers tr) ->
  bookingsCount (perUserData lucky) !! user_id (user host) = None ->
  ~ In host kept.
Proof.
  intros H Hans Hnone Hin. apply filter_exec in H.
  destruct H as [(_ & _ & H)|(_ & r & -> & H)]; [discriminate|].
  rewrite answers_singleton in Hans. destruct Hans as [->|[]].
  unfold afterRanking in H.
  destruct (isRRWeightsEnabled et).
  - destruct (calibrations (perUserData lucky)); [|discriminate].
    destruct (weights (perUserData lucky)); [|discriminate].
    destruct (bookingShortfalls (perUserData lucky)); [|discriminate].
    injection H as H. subst kept. apply filter_In in Hin.
    rewrite Hnone in Hin. destruct Hin as [_ Hin]. discriminate.
  - injection H as H. subst kept. apply filter_In in Hin.
    rewrite Hnone in Hin. destruct Hin as [_ Hin]. discriminate.
Qed.

Lemma unranked_host_witness :
  outcome strangerRun = Ok [mkHost 1; mkHost 2] /\
  ~ In (mkHost 4) [mkHost 1; mkHost 2].
Proof.
  split; [vm_compute; reflexivity|].
  apply (unranked_host_is_excluded
           [mkHost 1; mkHost 4; mkHost 2] (ofZ 3) (mkEventType false)
           (trace strangerRun) [mkHost 1; mkHost 2] unweightedData (mkHost 4)).
  - apply (run_exec (rankingEnv (fun _ => Ok unweightedData))
                    (filterHostsByLeadThreshold [mkHost 1; mkHost 4; mkHost 2]
                       (Some (ofZ 3)) (mkEventType false)) 0%nat).
  - left. reflexivity.
  - vm_compute. reflexivity.
Defined.

(** *** Weights that sum to zero, and weights that are not negative *)

Lemma sum_zero (l : list number) (acc : number) :
  isZero acc = true ->
  (forall v, In v l -> isZero v = true) ->
  isZero (fold_left (fun sum weight => add sum weight) l acc) = true.
Proof.
  revert acc. induction l as [|x l IH]; intros acc Hacc Hl; simpl; [exact Hacc|].
  apply IH.
  - assert (Hx : isZero x = true) by (apply Hl; by left).
    destruct acc as [| |a|], x as [| |b|]; try discriminate. cbn [add isZero] in *.
    apply Qeq_bool_iff in Hacc, Hx.
    rewrite JSFacts.round_zero; [reflexivity|]. rewrite Hacc, Hx. reflexivity.
  - intros v Hv. apply Hl. by right.
Qed.

Lemma allowedLead_of_zero_weights ws m userId :
  (forall v, In v (values ws) -> isZero v = true) ->
  allowedLeadOf ws m userId = NaN.
Proof.
  intros Hz. unfold allowedLeadOf.
  assert (Ht : isZero (totalWeightOf ws) = true).
  { unfold totalWeightOf. apply sum_zero; [reflexivity|exact Hz]. }
  assert (Hp : div (toNumber (ws !! userId)) (totalWeightOf ws) = NaN).
  { destruct (ws !! userId) as [w|] eqn:E; simpl.
    - assert (Hw : isZero w = true) by (apply Hz, elem_of_values; eauto).
      destruct w as [| |q|]; try discriminate.
      destruct (totalWeightOf ws) as [| |t|]; try discriminate. simpl in *.
      rewrite Ht. unfold sgn. apply Qeq_bool_iff in Hw.
      apply Qeq_alt in Hw. rewrite Hw. reflexivity.
    - reflexivity. }
  rewrite Hp. apply mul_NaN_r.
Qed.

(** X9: with weights enabled and every weight zero, the allowed lead is
    not a number and every host whose user has a booking count is kept. *)
Theorem zero_total_weight_keeps_every_ranked_host
    hosts m et tr out lucky cs ws sfs host :
  exec (filterHostsByLeadThreshold hosts (Some m) et) tr out ->
  isRRWeightsEnabled et = true ->
  In (Ok lucky) (answers tr) ->
  calibrations (perUserData lucky) = Some cs ->
  weights (perUserData lucky) = Some ws ->
  bookingShortfalls (perUserData lucky) = Some sfs ->
  (forall v, In v (values ws) -> isZero v = true) ->
  In host hosts ->
  is_Some (bookingsCount (perUserData lucky) !! user_id (user host)) ->
  exists kept, out = Ok kept /\ In host kept.
Proof.
  intros H Hrr Hans Hcs Hws Hsfs Hz Hin Hcount.
  destruct (weighted_returns _ _ _ _ _ _ _ _ _ H Hrr Hans Hcs Hws Hsfs) as [kept ->].
  exists kept. split; [reflexivity|].
  apply (weighted_kept _ _ _ _ _ lucky cs ws sfs host H Hrr Hans Hcs Hws Hsfs).
  split; [exact Hin|]. split; [exact Hcount|].
  unfold exceedsLead. rewrite allowedLead_of_zero_weights by exact Hz.
  apply gt_NaN_r.
Qed.

Lemma zero_total_weight_witness :
  exists kept, outcome weightlessRun = Ok kept /\ In (mkHost 1) kept.
Proof.
  apply (zero_total_weight_keeps_every_ranked_host
           [mkHost 1; mkHost 2] (ofZ 6) (mkEventType true)
           (trace weightlessRun) (outcome weightlessRun) weightlessData
           (numMap [(1, 0); (2, 0)]) (numMap [(1, 0); (2, 0)])
           (numMap [(1, -5); (2, -2)]) (mkHost 1)); try reflexivity.
  - apply (run_exec (rankingEnv (fun _ => Ok weightlessData))).
  - left. reflexivity.
  - intros v Hv. vm_compute in Hv. destruct Hv as [<-|[<-|[]]]; reflexivity.
  - left. reflexivity.
  - exists (ofZ 7). vm_compute. reflexivity.
Defined.


(** A sum of numbers that are not negative is not negative; it may be
    [+Infinity]. *)
Lemma sum_nonNegative (l : list number) (acc : number) :
  shareLike acc = true /\ acc <> NaN ->
  (forall v, In v l -> nonNegative v = true) ->
  let total := fold_left (fun sum weight => add sum weight) l acc in
  shareLike total = true /\ total <> NaN.
Proof.
  revert acc. induction l as [|x l IH]; intros acc Hacc Hl; simpl; [exact Hacc|].
  apply IH.
  - assert (Hx : nonNegative x = true) by (apply Hl; by left).
    destruct Hacc as [Hacc Hnan].
    destruct acc as [| |a|], x as [| |b|]; try discriminate; try done.
    cbn [add shareLike nonNegative] in *. apply Qle_bool_iff in Hacc, Hx.
    destruct (JSFacts.round_nonneg (a + b)) as [->|(r & -> & Hr)].
    + rewrite <- (Qplus_0_r 0). by apply Qplus_le_compat.
    + done.
    + split; [by apply Qle_bool_iff|done].
  - intros v Hv. apply Hl. by right.
Qed.

(** A share of the total weight is never negative when no weight is. *)
Lemma share_of_nonNegative_weights ws userId :
  (forall v, In v (values ws) -> nonNegative v = true) ->
  shareLike (div (toNumber (ws !! userId)) (totalWeightOf ws)) = true.
Proof.
  intros Hnn.
  assert (Ht : shareLike (totalWeightOf ws) = true /\ totalWeightOf ws <> NaN).
  { unfold totalWeightOf. apply sum_nonNegative; [|exact Hnn].
    split; [reflexivity|discriminate]. }
  destruct Ht as [Ht Hnan].
  destruct (ws !! userId) as [w|] eqn:E; simpl; [|reflexivity].
  assert (Hw : nonNegative w = true) by (apply Hnn, elem_of_values; eauto).
  destruct w as [| |q|]; try discriminate.
  destruct (totalWeightOf ws) as [| |t|]; try discriminate; try done.
  cbn [div shareLike nonNegative] in *.
  apply Qle_bool_iff in Hw, Ht.
  destruct (Qeq_bool t 0) eqn:Et.
  - unfold sgn. destruct (q ?= 0)%Q eqn:Ec; simpl; try reflexivity.
    assert (Hneg : (q < 0)%Q) by (apply Qlt_alt; exact Ec).
    exfalso. eapply Qlt_not_le; eauto.
  - destruct (JSFacts.round_nonneg (q / t)) as [->|(r & -> & Hr)].
    + unfold Qdiv. apply Qmult_le_0_compat; [exact Hw|]. by apply Qinv_le_0_compat.
    + reflexivity.
    + by apply Qle_bool_iff.
Qed.

Lemma exceeds_narrower (x p : number) (m m' : Q) :
  shareLike p = true -> (m <= m')%Q ->
  gt x (mul (Fin m') p) = true -> gt x (mul (Fin m) p) = true.
Proof.
  intros Hp Hm. destruct p as [| |q|]; try discriminate.
  - cbn [mul shareLike] in *. apply Qle_bool_iff in Hp.
    unfold gt. apply JSFacts.le_lt_trans, JSFacts.round_mono.
    by apply Qmult_le_compat_r.
  - change (mul (Fin m') PosInf) with (inf_of (sgn m')).
    change (mul (Fin m) PosInf) with (inf_of (sgn m)).
    unfold sgn. destruct (m' ?= 0)%Q eqn:E'.
    + destruct x; simpl; discriminate.
    + assert (Hlt' : (m' < 0)%Q) by (apply Qlt_alt; exact E').
      assert (Hlt : (m < 0)%Q) by (eapply Qle_lt_trans; eauto).
      assert (Hc : (m ?= 0)%Q = Lt) by (apply Qlt_alt; exact Hlt).
      rewrite Hc. intros H. exact H.
    + destruct x; simpl; discriminate.
Qed.

(** X10: with weights enabled and no negative weight, the filter is
    monotone in the threshold: on the same answer of the ranking, a host
    kept under a threshold is kept under every larger one. *)
Theorem wider_threshold_keeps_more_weighted
    hosts (m m' : Q) et tr kept tr' kept' lucky cs ws sfs :
  exec (filterHostsByLeadThreshold hosts (Some (Fin m)) et) tr (Ok kept) ->
  exec (filterHostsByLeadThreshold hosts (Some (Fin m')) et) tr' (Ok kept') ->
  isRRWeightsEnabled et = true ->
  In (Ok lucky) (answers tr) ->
  In (Ok lucky) (answers tr') ->
  calibrations (perUserData lucky) = Some cs ->
  weights (perUserData lucky) = Some ws ->
  bookingShortfalls (perUserData lucky) = Some sfs ->
  (forall v, In v (values ws) -> nonNegative v = true) ->
  (m <= m')%Q ->
  forall host, In host kept -> In host kept'.
Proof.
  intros H H' Hrr Hans Hans' Hcs Hws Hsfs Hnn Hm host Hin.
  apply (weighted_kept _ _ _ _ _ lucky cs ws sfs host H Hrr Hans Hcs Hws Hsfs) in Hin.
  apply (weighted_kept _ _ _ _ _ lucky cs ws sfs host H' Hrr Hans' Hcs Hws Hsfs).
  destruct Hin as (Hh & Hs & Hx). repeat split; try done.
  unfold exceedsLead, allowedLeadOf in *.
  destruct (gt _ (mul (Fin m') _)) eqn:E; [|reflexivity].
  apply (exceeds_narrower _ _ m m') in E;
    [congruence|by apply share_of_nonNegative_weights|exact Hm].
Qed.


Lemma wider_threshold_weighted_witness :
  outcome weightedRun = Ok [mkHost 2] /\
  outcome weightedWideRun = Ok [mkHost 1; mkHost 2] /\
  In (mkHost 2) [mkHost 1; mkHost 2].
Proof.
  split; [vm_compute; reflexivity|]. split; [vm_compute; reflexivity|].
  apply (wider_threshold_keeps_more_weighted
           [mkHost 1; mkHost 2] 6 12 (mkEventType true)
           (trace weightedRun) [mkHost 2] (trace weightedWideRun) [mkHost 1; mkHost 2]
           weightedData (numMap [(1, 0); (2, 0)]) (numMap [(1, 100); (2, 100)])
           (numMap [(1, -5); (2, -2)])); try reflexivity.
  - apply (run_exec (rankingEnv (fun _ => Ok weightedData))
                    (filterHostsByLeadThreshold [mkHost 1; mkHost 2]
                       (Some (ofZ 6)) (mkEventType true)) 0%nat).
  - apply (run_exec (rankingEnv (fun _ => Ok weightedData))
                    (filterHostsByLeadThreshold [mkHost 1; mkHost 2]
                       (Some (ofZ 12)) (mkEventType true)) 0%nat).
  - left. reflexivity.
  - left. reflexivity.
  - intros v Hv. vm_compute in Hv. destruct Hv as [<-|[<-|[]]]; reflexivity.
  - vm_compute. discriminate.
  - left. reflexivity.
Defined.

End LeadThresholdExtras.

(** ** More about the onboarding finalizer *)

Module OnboardingExtras.
Import Onboarding OnboardingWorld OnboardingTraces OnboardingProofs.

(** X11: when no user is found for the owner e-mail of the onboarding,
    the finalizer stops there: the search is its only call and it fails
    with the error that names the e-mail. *)
Theorem unknown_owner_stops_the_finalizer ob sub tr out :
  exec (createOrganizationFromOnboarding ob sub) tr out ->
  In None (ownerAnswers tr) ->
  tr = [Called (findUserToBeOrgOwner (orgOwnerEmail ob)) (Ok None)] /\
  out = Err (Error ("Owner not found with email: " ++ orgOwnerEmail ob)).
Proof.
  intros H Hin.
  run_onboarding H.
  all: cbn in Hin; repeat absurd_leaf.
  all: subst; split; reflexivity.
Qed.

Lemma unknown_owner_witness :
  trace unknownOwnerRun = [Called (findUserToBeOrgOwner "nobody") (Ok None)] /\
  outcome unknownOwnerRun = Err (Error "Owner not found with email: nobody").
Proof.
  apply (unknown_owner_stops_the_finalizer strangerOnboarding "sub_1").
  - apply (run_exec env _ initial).
  - vm_compute. left. reflexivity.
Defined.

(** X12: the domain is set up before anything else is done about the
    organization: whenever a call other than the search for the owner and
    the translations is made, the set-up of the domain, with the slug, the
    platform flag and the owner e-mail of the onboarding, was answered
    before it. *)
Theorem domain_is_set_up_first ob sub tr out c :
  exec (createOrganizationFromOnboarding ob sub) tr out ->
  In c (calls tr) ->
  touchesOrganization c = true ->
  exists t pre post,
    tr = pre ++ Called (setupDomain (ob_slug ob) (ob_isPlatform ob) (orgOwnerEmail ob) t)
                       (Ok tt) :: post /\
    Forall (fun c' => touchesOrganization c' = false) (calls pre).
Proof.
  intros H Hin Hc.
  run_onboarding H.
  all: cbn in Hin.
  all: try solve [repeat (destruct Hin as [<-|Hin]; [discriminate Hc|]); destruct Hin].
  all: repeat match goal with u : unit |- _ => destruct u end.
  all: match goal with
       | |- exists _ _ _, (?e1 :: ?e2 :: Called (setupDomain _ _ _ ?t0) _ :: ?rest) = _ /\ _ =>
           exists t0, [e1; e2], rest; split; [reflexivity|cbn; repeat constructor]
       end.
Qed.

Lemma domain_first_witness :
  exists t pre post,
    trace firstRun
    = pre ++ Called (setupDomain "acme" false "ada@acme.test" t) (Ok tt) :: post /\
    Forall (fun c' => touchesOrganization c' = false) (calls pre).
Proof.
  apply (domain_is_set_up_first acmeOnboarding "sub_1" (trace firstRun) (outcome firstRun)
           (OrganizationRepository_findBySlug "acme")).
  - apply (run_exec env _ initial).
  - vm_compute. right. right. right. right. left. reflexivity.
  - reflexivity.
Defined.

(** X13: a failure of the creation, of the creation e-mail or of the
    default availability is logged once at error level, naming the e-mail
    of the owner, and rethrown unchanged; the onboarding is not linked and
    nobody is invited, no team is created and no slug is set after it. *)
Theorem failed_creation_is_logged_and_rethrown ob sub tr out e :
  exec (createOrganizationFromOnboarding ob sub) tr out ->
  In e (creationFailures tr) ->
  out = Err e /\
  (exists owner,
     In (Some owner) (ownerAnswers tr) /\
     errorLogs tr
     = [ {| log_message := "RecoverableError: Error creating organization for owner "
                           ++ owner_email owner ++ ".";
            log_error := e |} ]) /\
  Forall (fun c => followsCreation c = false) (calls tr).
Proof.
  intros H Hin.
  run_onboarding H.
  all: cbn in Hin; repeat absurd_leaf.
  all: subst; split; [reflexivity|]; split;
    [eexists; split; [left; reflexivity|reflexivity]|cbn; repeat constructor].
Qed.

Lemma failed_creation_witness :
  outcome mailDownRun = Err (Rejected "mail service unavailable") /\
  organizations (world mailDownRun) = [acme] /\
  onboardingOrganization (world mailDownRun) !! 1 = None /\
  length (errorLogs (trace mailDownRun)) = 1%nat /\
  Forall (fun c => followsCreation c = false) (calls (trace mailDownRun)).
Proof.
  destruct (failed_creation_is_logged_and_rethrown
              acmeOnboarding "sub_1" (trace mailDownRun) (outcome mailDownRun)
              (Rejected "mail service unavailable")) as (Hout & (owner & _ & Hlog) & Hnone).
  - apply (run_exec env _ (withMailDown initial true)).
  - vm_compute. left. reflexivity.
  - split; [exact Hout|]. split; [vm_compute; reflexivity|].
    split; [vm_compute; reflexivity|]. split; [rewrite Hlog; reflexivity|exact Hnone].
Defined.

(** A log entry is written for a failed creation only. *)
Lemma quiet_without_failure ob sub tr out :
  exec (createOrganizationFromOnboarding ob sub) tr out ->
  creationFailures tr = [] ->
  errorLogs tr = [].
Proof.
  intros H Hnone.
  run_onboarding H.
  all: cbn in Hnone; try discriminate Hnone.
  all: reflexivity.
Qed.


(** X14: invitations go out at most once, without an inviter name, to the
    organization that was found or created, one per parsed member with the
    role of a member; no invitation is sent for an empty list of
    members. *)
Theorem invitations_follow_the_parsed_members ob sub tr out :
  exec (createOrganizationFromOnboarding ob sub) tr out ->
  (forall inviterName teamId invitations,
     In (inviterName, teamId, invitations) (invites tr) ->
     inviterName = None /\
     (exists members,
        In members (parsedMembers tr) /\ members <> [] /\
        invitations = List.map invitationOf members) /\
     (exists org,
        (In (Some org) (lookups tr) \/ In org (creations tr)) /\ teamId = team_id org)) /\
  (In [] (parsedMembers tr) -> invites tr = []) /\
  (length (invites tr) <= 1)%nat.
Proof.
  intros H.
  run_onboarding H.
  all: split; [|split].
  all: lazymatch goal with
       | |- forall inviterName teamId invitations, _ =>
           cbn; intros inviterName teamId invitations Hin;
           first [ solve [repeat absurd_leaf]
                 | destruct Hin as [Hin|[]]; injection Hin as <- <- <-;
                   split; [reflexivity|]; split;
                   [eexists; split; [left; reflexivity|split; [discriminate|reflexivity]]
                   |eexists; split; [first [left; left; reflexivity|right; left; reflexivity]
                                    |reflexivity]] ]
       | |- In [] _ -> _ =>
           cbn; intros Hin; first [reflexivity|repeat absurd_leaf; discriminate]
       | |- (_ <= _)%nat => cbn; lia
       end.
Qed.

Lemma invitations_witness :
  invites (trace firstRun) = [(None, 1, [invitationOf bob])] /\
  parsedMembers (trace firstRun) = [[bob]] /\
  creations (trace firstRun) = [acme].
Proof.
  destruct (invitations_follow_the_parsed_members
              acmeOnboarding "sub_1" (trace firstRun) (outcome firstRun)
              (run_exec env _ initial)) as (Hinv & _ & _).
  destruct (Hinv None 1 [invitationOf bob]) as (_ & _ & _).
  { vm_compute. left. reflexivity. }
  repeat split; vm_compute; reflexivity.
Defined.

(** Every team is asked to be created or to be moved. *)
Lemma teams_partition (teams : list TeamData) :
  let names := List.map td_name (List.filter (fun team => negb (isBeingMigrated team)) teams) in
  let moves := List.map moveOf (List.filter (fun team => isBeingMigrated team) teams) in
  (length names + length moves = length teams)%nat /\
  (forall team, In team teams ->
     if isBeingMigrated team then In (moveOf team) moves else In (td_name team) names) /\
  Forall (fun m => shouldMove m = true) moves.
Proof.
  cbv zeta. split; [|split].
  - rewrite !length_map. induction teams as [|t l IH]; simpl; [reflexivity|].
    destruct (isBeingMigrated t); simpl; lia.
  - intros team Hin. destruct (isBeingMigrated team) eqn:E.
    + apply in_map, filter_In. split; [exact Hin|exact E].
    + apply in_map, filter_In. split; [exact Hin|]. by rewrite E.
  - apply List.Forall_forall. intros m Hm. apply in_map_iff in Hm.
    destruct Hm as (t & <- & _). reflexivity.
Qed.

(** X15: every request to create teams splits the parsed teams in two:
    the teams being migrated are moved, with their id and slug, and the
    others are created by name; none is dropped, and the request is made
    under the organization that was found or created. *)
Theorem teams_are_created_or_moved ob sub tr out names orgId moves :
  exec (createOrganizationFromOnboarding ob sub) tr out ->
  In (names, orgId, moves) (teamsRequests tr) ->
  exists teams,
    In teams (parsedTeams tr) /\ teams <> [] /\
    (length names + length moves = length teams)%nat /\
    (forall team, In team teams ->
       if isBeingMigrated team then In (moveOf team) moves else In (td_name team) names) /\
    Forall (fun m => shouldMove m = true) moves /\
    (exists org,
       (In (Some org) (lookups tr) \/ In org (creations tr)) /\ orgId = team_id org).
Proof.
  intros H Hin.
  run_onboarding H.
  all: cbn in Hin; repeat absurd_leaf.
  all: injection Hin as <- <- <-.
  all: match goal with
       | |- context [Called (parseTeams _) (Ok ?parsed)] =>
           exists parsed;
           destruct (teams_partition parsed) as (Hlen & Hall & Hmove);
           split; [cbn; left; reflexivity|];
           split; [discriminate|];
           split; [exact Hlen|];
           split; [exact Hall|];
           split; [exact Hmove|];
           eexists; split; [first [left; cbn; left; reflexivity|right; cbn; left; reflexivity]
                           |reflexivity]
       end.
Qed.

Lemma teams_witness :
  teamsRequests (trace mixedTeamsRun)
  = [(["Sales"], 1, [ {| mt_id := 3; newSlug := "support"; shouldMove := true |} ])] /\
  exists teams,
    In teams (parsedTeams (trace mixedTeamsRun)) /\ length teams = 2%nat.
Proof.
  split; [vm_compute; reflexivity|].
  destruct (teams_are_created_or_moved
              mixedTeamsOnboarding "sub_1" (trace mixedTeamsRun) (outcome mixedTeamsRun)
              ["Sales"] 1 [ {| mt_id := 3; newSlug := "support"; shouldMove := true |} ])
    as (teams & Hin & _ & Hlen & _).
  - apply (run_exec env _ initial).
  - vm_compute. left. reflexivity.
  - exists teams. split; [exact Hin|]. rewrite <- Hlen. reflexivity.
Defined.

(** X16: when a stored payload (members or teams) does not pass its
    schema, the finalizer fails with the schema error before any invitation
    is sent, any team is created or moved and any slug is set. *)
Theorem broken_payload_stops_before_its_use ob sub tr out e :
  exec (createOrganizationFromOnboarding ob sub) tr out ->
  In e (parseFailures tr) ->
  out = Err e /\
  Forall (fun c => usesPayload c = false) (calls tr).
Proof.
  intros H Hin.
  run_onboarding H.
  all: cbn in Hin; repeat absurd_leaf.
  all: subst; split; [reflexivity|cbn; repeat constructor].
Qed.

Lemma broken_payload_witness :
  outcome brokenTeamsRun = Err (ZodError "Expected array") /\
  Forall (fun c => usesPayload c = false) (calls (trace brokenTeamsRun)) /\
  parsedMembers (trace brokenTeamsRun) = [[bob]] /\
  organizations (world brokenTeamsRun) = [acme].
Proof.
  destruct (broken_payload_stops_before_its_use
              (onboardingOf false (JString "teams")) "sub_1"
              (trace brokenTeamsRun) (outcome brokenTeamsRun) (ZodError "Expected array"))
    as (Hout & Hnone).
  - apply (run_exec env _ initial).
  - vm_compute. left. reflexivity.
  - repeat split; try assumption; vm_compute; reflexivity.
Defined.

(** X17: a run that finds the organization of the onboarding already
    there invites the parsed members again, exactly as a first run
    does. *)
Theorem reused_organization_is_invited_again ob sub tr out org members teams :
  exec (createOrganizationFromOnboarding ob sub) tr out ->
  In (Some org) (lookups tr) ->
  In members (parsedMembers tr) ->
  In teams (parsedTeams tr) ->
  members <> [] ->
  invites tr = [(None, team_id org, List.map invitationOf members)].
Proof.
  intros H Hl Hm Ht Hne.
  run_onboarding H.
  all: cbn in Hl, Hm, Ht; repeat absurd_leaf.
  all: try (injection Hl as <-); try (injection Hm as <-).
  all: try (subst; contradiction).
  all: subst; reflexivity.
Qed.

Lemma reinvitation_witness :
  invites (trace firstRun) = [(None, 1, [invitationOf bob])] /\
  invites (trace secondRun) = [(None, 1, [invitationOf bob])].
Proof.
  split; [vm_compute; reflexivity|].
  apply (reused_organization_is_invited_again
           (reread (world firstRun) acmeOnboarding) "sub_1"
           (trace secondRun) (outcome secondRun) acme [bob] []).
  - apply (run_exec env _ (world firstRun)).
  - vm_compute. left. reflexivity.
  - vm_compute. left. reflexivity.
  - vm_compute. left. reflexivity.
  - discriminate.
Defined.


Lemma split_not_nil sep s : split sep s <> [].
Proof.
  destruct s as [|a rest]; simpl; [discriminate|].
  destruct (Ascii.eqb a sep); [discriminate|].
  destruct (split sep rest); discriminate.
Qed.

Lemma split_without_separator sep s : occurs sep s = false -> split sep s = [s].
Proof.
  induction s as [|a rest IH]; simpl; [reflexivity|].
  destruct (Ascii.eqb a sep); [discriminate|].
  intros H. rewrite (IH H). reflexivity.
Qed.

Lemma split_at_first_separator sep first rest :
  occurs sep first = false ->
  split sep (first ++ String sep rest)%string = first :: split sep rest.
Proof.
  induction first as [|a first' IH]; simpl.
  - intros _. rewrite Ascii.eqb_refl. reflexivity.
  - destruct (Ascii.eqb a sep); [discriminate|].
    intros H. rewrite (IH H). reflexivity.
Qed.

Lemma split_second sep first second rest :
  occurs sep first = false ->
  occurs sep second = false ->
  separated sep rest = true ->
  split sep (first ++ String sep (second ++ rest))%string !! 1%nat = Some second.
Proof.
  intros Hf Hs Hr. rewrite (split_at_first_separator _ _ _ Hf). simpl.
  destruct rest as [|a rest'].
  - replace (second ++ "")%string with second.
    + rewrite (split_without_separator _ _ Hs). reflexivity.
    + clear. induction second as [|c second' IH]; [reflexivity|].
      change (String c second' = String c (second' ++ "")%string). f_equal. exact IH.
  - simpl in Hr. apply Ascii.eqb_eq in Hr. subst a.
    rewrite (split_at_first_separator _ _ _ Hs). reflexivity.
Qed.

(** X18: the domain whose e-mails are accepted automatically is what
    stands between the first and the second [@] of the owner e-mail (to the
    end when there is one [@] only), and is undefined when the e-mail has
    no [@]. *)
Theorem auto_accepted_domain_is_the_second_part ob sub tr out data :
  exec (createOrganizationFromOnboarding ob sub) tr out ->
  In data (creationData tr) ->
  (forall first second rest,
     orgOwnerEmail ob = (first ++ String "@" (second ++ rest))%string ->
     occurs "@" first = false ->
     occurs "@" second = false ->
     separated "@" rest = true ->
     autoAcceptEmail data = Some second) /\
  (occurs "@" (orgOwnerEmail ob) = false -> autoAcceptEmail data = None).
Proof.
  intros H Hin.
  assert (Hd : autoAcceptEmail data = split "@" (orgOwnerEmail ob) !! 1%nat).
  { run_onboarding H.
    all: cbn in Hin; repeat absurd_leaf.
    all: subst data; reflexivity. }
  rewrite Hd. split.
  - intros first second rest -> Hf Hs Hr. apply split_second; assumption.
  - intros Hno. rewrite (split_without_separator _ _ Hno). reflexivity.
Qed.

Lemma auto_accepted_domain_witness :
  Forall (fun data => autoAcceptEmail data = Some "acme.test") (creationData (trace firstRun)) /\
  length (creationData (trace firstRun)) = 1%nat.
Proof.
  split; [|vm_compute; reflexivity].
  apply List.Forall_forall. intros data Hin.
  destruct (auto_accepted_domain_is_the_second_part
              acmeOnboarding "sub_1" (trace firstRun) (outcome firstRun) data
              (run_exec env _ initial) Hin) as (Hsome & _).
  apply (Hsome "ada" "acme.test" ""); reflexivity.
Defined.

End OnboardingExtras.

(** ** More about the seat cancellation *)

Module SeatCancellationExtras.
Import SeatCancellation SeatCancellationWorld SeatCancellationTraces SeatCancellationProofs.

Lemma calls_app (tr1 tr2 : list Ev) : calls (tr1 ++ tr2) = calls tr1 ++ calls tr2.
Proof. apply omap_app. Qed.

Lemma outputs_app (tr1 tr2 : list Ev) : outputs (tr1 ++ tr2) = outputs tr1 ++ outputs tr2.
Proof. apply omap_app. Qed.

Lemma foundCredentials_app (tr1 tr2 : list Ev) :
  foundCredentials (tr1 ++ tr2) = foundCredentials tr1 ++ foundCredentials tr2.
Proof. apply omap_app. Qed.

Lemma foundCalendars_app (tr1 tr2 : list Ev) :
  foundCalendars (tr1 ++ tr2) = foundCalendars tr1 ++ foundCalendars tr2.
Proof. apply omap_app. Qed.

(** [loopCall] grows with the references and with the trace. *)
Lemma loopCall_mono evt attendee refs refs' tr tr' c :
  (forall reference, In reference refs -> In reference refs') ->
  (forall x, In x (foundCredentials tr) -> In x (foundCredentials tr')) ->
  (forall x, In x (foundCalendars tr) -> In x (foundCalendars tr')) ->
  loopCall evt attendee refs tr c -> loopCall evt attendee refs' tr' c.
Proof.
  intros Hr Hc Hk. destruct c; cbn; try solve [intros []].
  - intros (reference & Hin & Hid). exists reference. split; [apply Hr; exact Hin|exact Hid].
  - intros (Hin & Hv & He & id' & Hid & Hf).
    split; [apply Hr; exact Hin|]. split; [exact Hv|]. split; [exact He|].
    exists id'. split; [exact Hid|apply Hc; exact Hf].
  - intros (reference & id' & Hin & Hv & Hid & Hf).
    exists reference, id'. split; [apply Hr; exact Hin|]. split; [exact Hv|].
    split; [exact Hid|apply Hc; exact Hf].
  - intros (reference & id' & credential' & Hin & Hv & Hu & Hx & He & Hid & Hf & Hg).
    exists reference, id', credential'.
    split; [apply Hr; exact Hin|]. split; [exact Hv|]. split; [exact Hu|].
    split; [exact Hx|]. split; [exact He|]. split; [exact Hid|].
    split; [apply Hc; exact Hf|apply Hk; exact Hg].
Qed.

Lemma loop_calls evt attendee references :
  forall integrationsToUpdate tr out,
    exec (updateReferences evt attendee references integrationsToUpdate) tr out ->
    Forall (loopCall evt attendee references tr) (calls tr) /\ outputs tr = [].
Proof.
  induction references as [|reference rest IH]; intros acc tr out H.
  - cbn in H. destruct H as [-> ->]. cbn. split; [constructor|reflexivity].
  - cbn [updateReferences] in H. apply exec_bind in H.
    destruct H as [(tr1 & a & tr2 & H1 & H2 & ->)|(e & H1 & ->)].
    + apply IH in H2. destruct H2 as (Hc2 & Ho2).
      rewrite calls_app, outputs_app, Ho2, app_nil_r.
      assert (Hc2' : Forall (loopCall evt attendee (reference :: rest) (tr1 ++ tr2)) (calls tr2)).
      { eapply List.Forall_impl; [|exact Hc2]. intros c. apply loopCall_mono.
        - intros x Hx. right. exact Hx.
        - intros x Hx. rewrite foundCredentials_app. apply in_or_app. right. exact Hx.
        - intros x Hx. rewrite foundCalendars_app. apply in_or_app. right. exact Hx. }
      assert (Hc1 : Forall (loopCall evt attendee [reference] tr1) (calls tr1) /\ outputs tr1 = []).
      { clear - H1. unfold await, begin in H1. cbn in H1.
        repeat exec_step H1.
        all: cbn; split; [|reflexivity].
        all: repeat (apply List.Forall_cons || apply List.Forall_nil); cbn.
        all: repeat first [split | eexists | left; reflexivity | eassumption]. }
      destruct Hc1 as (Hc1 & Ho1). split; [|exact Ho1].
      apply Forall_app. split; [|exact Hc2'].
      eapply List.Forall_impl; [|exact Hc1]. intros c. apply loopCall_mono.
      * intros x [<-|[]]. left. reflexivity.
      * intros x Hx. rewrite foundCredentials_app. apply in_or_app. left. exact Hx.
      * intros x Hx. rewrite foundCalendars_app. apply in_or_app. left. exact Hx.
    + assert (Hc1 : Forall (loopCall evt attendee [reference] tr) (calls tr) /\ outputs tr = []).
      { clear - H1. unfold await, begin in H1. cbn in H1.
        repeat exec_step H1.
        all: cbn; split; [|reflexivity].
        all: repeat (apply List.Forall_cons || apply List.Forall_nil); cbn.
        all: repeat first [split | eexists | left; reflexivity | eassumption]. }
      destruct Hc1 as (Hc1 & Ho1). split; [|exact Ho1].
      eapply List.Forall_impl; [|exact Hc1]. intros c. apply loopCall_mono; try tauto.
      intros x [<-|[]]. left. reflexivity.
Qed.

Lemma start_calls payload reminders :
  forall hooks tr out,
    exec (startDeliveries hooks payload) tr out ->
    Forall (deliveryCall hooks payload reminders) (calls tr) /\ outputs tr = [].
Proof.
  induction hooks as [|webhook rest IH]; intros tr out H.
  - cbn in H. destruct H as [-> ->]. cbn. split; [constructor|reflexivity].
  - assert (Hrest : forall tr' out', exec (startDeliveries rest payload) tr' out' ->
              Forall (deliveryCall (webhook :: rest) payload reminders) (calls tr') /\
              outputs tr' = []).
    { intros tr' out' H'. apply IH in H'. destruct H' as (Hc & Ho). split; [|exact Ho].
      eapply List.Forall_impl; [|exact Hc]. intros c. destruct c; cbn; try tauto. }
    cbn [startDeliveries] in H. unfold await, begin in H. cbn in H.
    destruct H as (r & tr' & -> & H). destruct r as [createdAt|e]; cbn in H.
    + destruct H as (p & tr'' & -> & H).
      apply exec_bind in H.
      destruct H as [(tr1 & ps & tr2 & H1 & [-> ->] & ->)|(e & H1 & ->)];
        apply Hrest in H1; destruct H1 as (Hc & Ho).
      * rewrite app_nil_r. cbn. split; [|exact Ho].
        constructor; [exact I|]. constructor; [|exact Hc]. cbn. auto.
      * cbn. split; [|exact Ho].
        constructor; [exact I|]. constructor; [|exact Hc]. cbn. auto.
    + destruct H as [-> ->]. cbn. split; [|reflexivity]. constructor; [exact I|constructor].
Qed.

Lemma catch_calls evt :
  forall ps tr out,
    exec (catchDeliveries evt ps) tr out ->
    calls tr = [] /\ forallb isErrorLog (outputs tr) = true.
Proof.
  induction ps as [|[webhook [v|e]] rest IH]; intros tr out H; cbn in H.
  - destruct H as [-> ->]. split; reflexivity.
  - apply exec_bind in H.
    destruct H as [(tr1 & qs & tr2 & H1 & [-> ->] & ->)|(e & H1 & ->)];
      apply IH in H1; destruct H1 as (Hc & Ho).
    + rewrite app_nil_r. split; assumption.
    + split; assumption.
  - destruct H as (tr' & -> & H). apply exec_bind in H.
    destruct H as [(tr1 & qs & tr2 & H1 & [-> ->] & ->)|(e' & H1 & ->)];
      apply IH in H1; destruct H1 as (Hc & Ho).
    + rewrite app_nil_r. cbn. split; assumption.
    + cbn. split; assumption.
Qed.

(** From the delivery of the webhooks to the end of the handler. *)
Lemma deliver_calls hooks payload evt' reminders tr out :
  exec (started <- startDeliveries hooks payload ;;
        promises <- catchDeliveries evt' started ;;
        awaitAll promises ;;;
        await (WorkflowRepository_deleteAllWorkflowReminders reminders) ;;;
        Ret (Some {| success := true |}))%prog tr out ->
  Forall (deliveryCall hooks payload reminders) (calls tr) /\
  forallb isErrorLog (outputs tr) = true.
Proof.
  intros H.
  apply exec_bind in H.
  destruct H as [(tr1 & started & tr2 & H1 & H & ->)|(e & H1 & ->)];
    apply (start_calls payload reminders) in H1; destruct H1 as (Hc1 & Ho1).
  - rewrite calls_app, outputs_app, Ho1. cbn [app].
    apply exec_bind in H.
    destruct H as [(tr3 & promises & tr4 & H3 & H & ->)|(e & H3 & ->)];
      apply catch_calls in H3; destruct H3 as (Hc3 & Ho3).
    + rewrite calls_app, outputs_app, Hc3, forallb_app, Ho3. cbn [app andb].
      destruct (@awaitAll_shape Call Resp Output _ promises) as [[xs Exs]|[e Exs]];
        rewrite Exs in H; unfold await in H; cbn in H.
      * destruct H as (r & tr5 & -> & H). destruct r as [[]|e]; cbn in H;
          destruct H as [-> ->]; cbn; (split; [|reflexivity]);
          apply Forall_app; (split; [exact Hc1|]); constructor; [reflexivity|constructor|reflexivity|constructor].
      * destruct H as [-> ->]. cbn. split; [|reflexivity]. rewrite app_nil_r. exact Hc1.
    + rewrite Hc3, app_nil_r. split; assumption.
  - split; [exact Hc1|]. rewrite Ho1. reflexivity.
Qed.

Lemma tail_of_loop data meta booking uid attendee tr rest cs :
  Forall (loopCall (evt data) attendee (references booking) tr) cs ->
  Forall (tailCall data meta booking uid (Some attendee) (tr ++ rest)) cs.
Proof.
  apply List.Forall_impl. intros c Hc. left.
  eapply loopCall_mono; [| | |exact Hc].
  - tauto.
  - intros x Hx. rewrite foundCredentials_app. apply in_or_app. left. exact Hx.
  - intros x Hx. rewrite foundCalendars_app. apply in_or_app. left. exact Hx.
Qed.

Lemma tail_of_delivery data meta booking uid attendee translate tr cs :
  Forall (deliveryCall (webhooks data) (payloadOf data booking [toPerson attendee translate])
                       (remindersOf booking uid)) cs ->
  Forall (tailCall data meta booking uid (Some attendee) tr) cs.
Proof.
  apply List.Forall_impl. intros c Hc. right. right. exists translate. exact Hc.
Qed.

Lemma tail_of_logs attendee os :
  forallb isErrorLog os = true -> Forall (tailOutput attendee) os.
Proof.
  induction os as [|o os IH]; cbn; intros H; [constructor|].
  apply andb_true_iff in H. destruct H as [Ho Hos].
  constructor; [|exact (IH Hos)]. destruct o; try discriminate. exact I.
Qed.

(** Every trace of the handler: the schema check; then, past the guards,
    the two deletes; then, when both are done, the status code and what
    [tailCall] and [tailOutput] allow. *)
Lemma cancel_exec req data meta tr out :
  exec (cancelAttendeeSeat req data meta) tr out ->
  exists r0 tr0,
    tr = Called (bookingCancelAttendeeSeatSchema_safeParse (bodyOf req)) r0 :: tr0 /\
    (tr0 = [] \/
     exists uid booking seat d1 d2 tr1,
       r0 = Ok (Some uid) /\
       bookingToDelete req = Some booking /\
       (2 <= length (attendees booking))%nat /\
       truthyId (userId booking) <> None /\
       seatOf booking uid = Some seat /\
       tr0 = Called (prisma_bookingSeat_delete uid) d1
             :: Called (prisma_attendee_delete (attendeeId seat)) d2 :: tr1 /\
       ((tr1 = [] /\ isOk d1 && isOk d2 = false /\ exists e, out = Err e) \/
        (isOk d1 = true /\ isOk d2 = true /\
         exists tr2,
           tr1 = Emitted (req_statusCode 200) :: tr2 /\
           Forall (tailCall data meta booking uid (attendeeOf booking seat) tr2) (calls tr2) /\
           Forall (tailOutput (attendeeOf booking seat)) (outputs tr2)))).
Proof.
  intros H.
  unfold cancelAttendeeSeat, await, begin in H. cbn in H.
  repeat exec_head H.
  all: eexists _, _; (split; [reflexivity|]).
  all: try (left; reflexivity).
  all: right; eexists _, _, _, _, _, _.
  all: split; [reflexivity|].
  all: split; [first [reflexivity|eassumption]|].
  all: split; [match goal with Hl : (_ <=? _)%nat = false |- _ => apply Nat.leb_gt in Hl; lia end|].
  all: split; [congruence|].
  all: split; [unfold seatOf; eassumption|].
  all: split; [reflexivity|].
  all: try (left; split; [reflexivity|]; split; [reflexivity|]; eexists; reflexivity).
  all: right; split; [reflexivity|]; split; [reflexivity|]; eexists; split; [reflexivity|].
  all: unfold attendeeOf;
    match goal with Ha : find _ (attendees _) = _ |- _ => rewrite Ha end.
  - (* the attendee of the seat is one of the booking *)
    apply exec_bind in H.
    destruct H as [(tr1 & u & tr2 & H1 & H & ->)|(e & H1 & ->)].
    + apply exec_bind in H1.
      destruct H1 as [(tr3 & ints & tr4 & H3 & H1 & ->)|(e & H3 & ?)]; [|discriminate].
      apply loop_calls in H3. destruct H3 as (Hc3 & Ho3).
      rewrite swallowed_rejections in H1. cbn in H1.
      repeat exec_head H1. cbn in H. repeat exec_head H.
      * match type of H with
        | context [catchDeliveries (withAttendees _ [toPerson ?who ?t])] =>
            apply (deliver_calls (webhooks data) (payloadOf data b [toPerson who t])
                     (withAttendees (evt data) [toPerson who t]) (remindersOf b s)) in H
        end.
        destruct H as (Hc & Ho).
        rewrite <- !app_assoc, !calls_app, !outputs_app, Ho3. cbn. split.
        -- apply Forall_app. split; [apply tail_of_loop; exact Hc3|].
           constructor; [right; left; cbn; auto|].
           constructor; [right; left; cbn; eauto|].
           constructor; [right; left; cbn; auto|].
           eapply tail_of_delivery. exact Hc.
        -- constructor; [cbn; eauto|]. apply tail_of_logs. exact Ho.
      * rewrite <- !app_assoc, !calls_app, !outputs_app, Ho3. cbn. split; [|constructor].
        apply Forall_app. split; [apply tail_of_loop; exact Hc3|].
        constructor; [right; left; cbn; auto|].
        constructor; [right; left; cbn; eauto|].
        constructor; [right; left; cbn; auto|]. constructor.
    + apply exec_bind in H1.
      destruct H1 as [(tr3 & ints & tr4 & H3 & H1 & ->)|(e' & H3 & _)].
      * apply loop_calls in H3. destruct H3 as (Hc3 & Ho3).
        rewrite swallowed_rejections in H1. cbn in H1.
        repeat exec_head H1.
        all: rewrite !calls_app, !outputs_app, Ho3; cbn; (split; [|constructor]).
        all: apply Forall_app; (split; [apply tail_of_loop; exact Hc3|]).
        all: repeat (constructor; [right; left; cbn; eauto|]); constructor.
      * apply loop_calls in H3. destruct H3 as (Hc3 & Ho3). rewrite Ho3.
        split; [|constructor].
        rewrite <- (app_nil_r tr) at 1. apply tail_of_loop. exact Hc3.
  - (* the seat names an attendee who is not one of the booking *)
    apply (deliver_calls (webhooks data) (payloadOf data b [])
             (withAttendees (evt data) []) (remindersOf b s)) in H.
    destruct H as (Hc & Ho). cbn. split; [exact Hc|].
    constructor; [reflexivity|]. apply tail_of_logs. exact Ho.
Qed.

Ltac cancel_cases H :=
  let r0 := fresh "r0" in
  let uid := fresh "uid" in
  let booking := fresh "booking" in
  let seat := fresh "seat" in
  let d1 := fresh "d1" in
  let d2 := fresh "d2" in
  let tr2 := fresh "tr2" in
  let e := fresh "e" in
  let Hb := fresh "Hbooking" in
  let Hlen := fresh "Hlen" in
  let Hid := fresh "Huser" in
  let Hseat := fresh "Hseat" in
  let Hfail := fresh "Hfail" in
  let Hd1 := fresh "Hd1" in
  let Hd2 := fresh "Hd2" in
  let Hcalls := fresh "Hcalls" in
  let Houts := fresh "Houts" in
  apply cancel_exec in H;
  destruct H as
    (r0 & ? & -> &
     [-> | (uid & booking & seat & d1 & d2 & ? & -> & Hb & Hlen & Hid & Hseat & -> &
            [(-> & Hfail & e & ->) | (Hd1 & Hd2 & tr2 & -> & Hcalls & Houts)])]).

(** The calls before the status code are the schema check and the deletes. *)
Ltac skip_head Hin :=
  repeat (destruct Hin as [Hin|Hin]; [discriminate Hin|]);
  try solve [destruct Hin].

Ltac pick := first [left; reflexivity | right; pick].

Lemma in_omap {A B} (f : A -> option B) (l : list A) (y : B) :
  In y (omap f l) -> exists x, In x l /\ f x = Some y.
Proof.
  induction l as [|x l IH]; cbn; [intros []|].
  destruct (f x) as [y'|] eqn:E; cbn.
  - intros [<-|H]; [eauto|]. destruct (IH H) as (x' & Hin & Hx'). eauto.
  - intros H. destruct (IH H) as (x' & Hin & Hx'). eauto.
Qed.

Lemma truthyId_Some (i : option Z) (id : Z) :
  truthyId i = Some id <-> i = Some id /\ id <> 0.
Proof.
  destruct i as [n|]; cbn.
  - destruct (Z.eqb_spec n 0) as [->|Hn]; split.
    + discriminate.
    + intros [E Hne]. injection E as <-. contradiction.
    + intros E. injection E as <-. auto.
    + intros [E _]. exact E.
  - split; [discriminate|]. intros [E _]. discriminate.
Qed.

Lemma cancelled_past_guards req body uid booking seat r rest :
  bookingToDelete req = Some booking ->
  seatOf booking uid = Some seat ->
  r = Ok (Some uid) ->
  cancelled req (Called (bookingCancelAttendeeSeatSchema_safeParse body) r :: rest)
  = attendeeOf booking seat.
Proof. intros Hb Hs ->. unfold cancelled. cbn. rewrite Hb, Hs. reflexivity. Qed.

Lemma tailCall_cases data meta booking uid attendee tr c :
  tailCall data meta booking uid attendee tr c ->
  match attendee with
  | Some who =>
      loopCall (evt data) who (references booking) tr c \/
      attendeeCall (evt data) meta who c \/
      exists translate,
        deliveryCall (webhooks data) (payloadOf data booking [toPerson who translate])
                     (remindersOf booking uid) c
  | None =>
      deliveryCall (webhooks data) (payloadOf data booking []) (remindersOf booking uid) c
  end.
Proof. destruct attendee; exact (fun H => H). Qed.

Lemma tailCall_not_write data meta booking uid attendee tr c :
  tailCall data meta booking uid attendee tr c -> isWrite c = false.
Proof.
  destruct attendee as [who|]; cbn.
  - intros [H|[H|[t H]]]; destruct c; cbn in H; try reflexivity; destruct H.
  - intros H. destruct c; cbn in H; try reflexivity; destruct H.
Qed.

Lemma deleteOutcomes_none (tr : list Ev) :
  Forall (fun c => isWrite c = false) (calls tr) -> deleteOutcomes tr = [].
Proof.
  induction tr as [|[c r|o] tr IH]; cbn; intros H; [reflexivity| |exact (IH H)].
  apply List.Forall_cons_iff in H. destruct H as [Hc H].
  destruct c; cbn in Hc; try discriminate; cbn; exact (IH H).
Qed.

(** X19: a seat or an attendee is deleted only past the guards: if a
    delete is started at all, the body parsed to a seat reference, the
    booking has at least two attendees and a user, the seat reference is
    one of the booking, and the two deletes, of that seat and of its
    attendee, come right after the schema check. *)
Theorem seat_is_deleted_only_past_the_guards req data meta tr out :
  exec (cancelAttendeeSeat req data meta) tr out ->
  existsb isWrite (calls tr) = true ->
  exists uid booking seat rest,
    requested tr = Some uid /\
    bookingToDelete req = Some booking /\
    (2 <= length (attendees booking))%nat /\
    (exists id, userId booking = Some id /\ id <> 0) /\
    In seat (seatsReferences booking) /\ referenceUid seat = uid /\
    calls tr = bookingCancelAttendeeSeatSchema_safeParse (bodyOf req)
               :: prisma_bookingSeat_delete uid
               :: prisma_attendee_delete (attendeeId seat) :: rest.
Proof.
  intros H Hw.
  cancel_cases H; cbn in Hw; try discriminate Hw.
  all: exists uid, booking, seat; eexists.
  all: split; [reflexivity|]; split; [exact Hbooking|]; split; [exact Hlen|].
  all: split;
    [destruct (truthyId (userId booking)) as [id|] eqn:E; [|contradiction];
     exists id; apply truthyId_Some; exact E|].
  all: apply find_some in Hseat; destruct Hseat as [Hin Heq]; apply String.eqb_eq in Heq.
  all: split; [exact Hin|]; split; [exact Heq|]; reflexivity.
Qed.

Lemma guards_passed_witness :
  requested (trace benLeavesRun) = Some "seat-2" /\
  outcome benLeavesRun = Ok (Some {| success := true |}).
Proof.
  destruct (seat_is_deleted_only_past_the_guards
              (withBooking seatRequest (bookingOf (Some 7) [ann; ben] seats)) seatData "{}"
              (trace benLeavesRun) (outcome benLeavesRun))
    as (uid & booking & seat & rest & Hreq & Hb & _ & _ & _ & Huid & _).
  - apply (run_exec env _ allUp).
  - vm_compute. reflexivity.
  - split; [|vm_compute; reflexivity].
    rewrite Hreq. vm_compute in Hreq. exact (eq_sym Hreq).
Defined.

(** X20: a request that does not get to the deletes ends after the
    schema check with nothing written: silently when the body does not
    parse or the booking has fewer than two attendees (whether or not it
    has a user), with [400 User not found] when it has no user, and
    otherwise with [400 User not a part of this booking], the seat
    reference not being one of the booking. *)
Theorem guards_stop_without_writing req data meta tr out input :
  exec (cancelAttendeeSeat req data meta) tr out ->
  existsb isWrite (calls tr) = false ->
  hd_error (parsed tr) = Some input ->
  calls tr = [bookingCancelAttendeeSeatSchema_safeParse (bodyOf req)] /\
  outputs tr = [] /\
  (input = None \/ (attendeeCount req < 2)%nat -> out = Ok None) /\
  (forall uid booking,
     input = Some uid -> bookingToDelete req = Some booking ->
     (2 <= length (attendees booking))%nat ->
     (truthyId (userId booking) = None -> out = Err (HttpError 400 "User not found")) /\
     (truthyId (userId booking) <> None ->
      seatOf booking uid = None /\
      out = Err (HttpError 400 "User not a part of this booking"))).
Proof.
  intros H Hw Hp.
  unfold cancelAttendeeSeat, await, begin in H. cbn in H.
  repeat exec_head H.
  all: cbn in Hw; try discriminate Hw.
  all: cbn in Hp; try discriminate Hp.
  all: injection Hp as <-.
  all: split; [reflexivity|]; split; [reflexivity|].
  all: unfold attendeeCount, seatOf.
  all: repeat match goal with
              | Hl : (_ <=? _)%nat = true |- _ => apply Nat.leb_le in Hl
              | Hl : (_ <=? _)%nat = false |- _ => apply Nat.leb_gt in Hl
              | Hx : ?x = _ |- context [?x] => rewrite Hx
              end.
  all: split; [intros [Hi|Hi]; first [reflexivity|discriminate Hi|cbn in Hi; lia]|].
  all: intros uid booking Hi Hb Hlen.
  all: try discriminate Hi; try discriminate Hb.
  all: injection Hi as <-; injection Hb as <-.
  all: try lia.
  all: repeat match goal with
              | Hx : ?x = _ |- context [?x] => rewrite Hx
              end.
  all: split; [intros Hu|intros Hu]; try reflexivity; try discriminate Hu;
    try contradiction; try (split; reflexivity).
Qed.

Lemma guards_stop_witness :
  outcome soloRun = Ok None /\
  outcome ownerlessRun = Err (HttpError 400 "User not found") /\
  outcome foreignSeatRun = Err (HttpError 400 "User not a part of this booking").
Proof.
  split; [|split].
  - destruct (guards_stop_without_writing
                (withBooking seatRequest (bookingOf None [ben] seats)) seatData "{}"
                (trace soloRun) (outcome soloRun) (Some "seat-2"))
      as (_ & _ & Hfew & _).
    + apply (run_exec env _ allUp).
    + vm_compute. reflexivity.
    + vm_compute. reflexivity.
    + apply Hfew. right. vm_compute. lia.
  - destruct (guards_stop_without_writing
                (withBooking seatRequest (bookingOf None [ann; ben] seats)) seatData "{}"
                (trace ownerlessRun) (outcome ownerlessRun) (Some "seat-2"))
      as (_ & _ & _ & Hrest).
    + apply (run_exec env _ allUp).
    + vm_compute. reflexivity.
    + vm_compute. reflexivity.
    + destruct (Hrest "seat-2" (bookingOf None [ann; ben] seats)) as (Hnone & _);
        [reflexivity|reflexivity|cbn; lia|].
      apply Hnone. reflexivity.
  - destruct (guards_stop_without_writing
                (withBooking seatRequest
                   (bookingOf (Some 7) [ann; ben]
                      [ {| referenceUid := "seat-1"; attendeeId := 1 |} ]))
                seatData "{}"
                (trace foreignSeatRun) (outcome foreignSeatRun) (Some "seat-2"))
      as (_ & _ & _ & Hrest).
    + apply (run_exec env _ allUp).
    + vm_compute. reflexivity.
    + vm_compute. reflexivity.
    + destruct (Hrest "seat-2"
                  (bookingOf (Some 7) [ann; ben]
                     [ {| referenceUid := "seat-1"; attendeeId := 1 |} ]))
        as (_ & Hsome); [reflexivity|reflexivity|cbn; lia|].
      apply Hsome. discriminate.
Defined.

(** X21: when one of the two deletes fails, the cancellation fails; both
    deletes were started all the same, and nothing follows them: no status
    code is set, no integration is updated, nobody is mailed and no webhook
    is sent. *)
Theorem failed_delete_stops_the_cancellation req data meta tr out :
  exec (cancelAttendeeSeat req data meta) tr out ->
  In false (deleteOutcomes tr) ->
  (exists e, out = Err e) /\
  outputs tr = [] /\
  exists uid seat,
    calls tr = [bookingCancelAttendeeSeatSchema_safeParse (bodyOf req);
                prisma_bookingSeat_delete uid;
                prisma_attendee_delete (attendeeId seat)].
Proof.
  intros H Hf.
  cancel_cases H.
  - cbn in Hf. destruct Hf.
  - split; [eauto|]. split; [reflexivity|]. exists uid, seat. reflexivity.
  - exfalso.
    assert (Hnone : deleteOutcomes tr2 = []).
    { apply deleteOutcomes_none. eapply List.Forall_impl; [|exact Hcalls].
      intros c. apply tailCall_not_write. }
    destruct d1 as [[]|]; [|discriminate Hd1]. destruct d2 as [[]|]; [|discriminate Hd2].
    unfold deleteOutcomes in Hnone. cbn in Hf. rewrite Hnone in Hf.
    destruct Hf as [Hf|[Hf|[]]]; discriminate Hf.
Qed.

Lemma failed_delete_witness :
  deleteOutcomes (trace seatTableDownRun) = [false; true] /\
  (exists e, outcome seatTableDownRun = Err e) /\
  outputs (trace seatTableDownRun) = [].
Proof.
  split; [vm_compute; reflexivity|].
  destruct (failed_delete_stops_the_cancellation
              seatRequest seatData "{}" (trace seatTableDownRun) (outcome seatTableDownRun))
    as (Hout & Hnone & _).
  - apply (run_exec envDuring _ {| seatTableDown := true; services := allUp |}).
  - vm_compute. left. reflexivity.
  - split; assumption.
Defined.

Lemma withoutAttendee_attendees evt attendee p :
  In p (evt_attendees (withoutAttendee evt attendee)) <->
  In p (evt_attendees evt) /\ person_email p <> attendee_email attendee.
Proof.
  unfold withoutAttendee. cbn. rewrite filter_In, negb_true_iff.
  destruct (String.eqb_spec (attendee_email attendee) (person_email p)) as [E|E].
  - split; [intros [_ Hf]; discriminate Hf|]. intros [_ Hne]. congruence.
  - split; [|tauto]. intros [Hin _]. split; [exact Hin|congruence].
Qed.

(** X22: every update of a video meeting or of a calendar event is
    handed the event of the call without the attendees that have the e-mail
    of the attendee who leaves, and otherwise unchanged. *)
Theorem integrations_get_the_event_without_the_attendee req data meta tr out updatedEvt :
  exec (cancelAttendeeSeat req data meta) tr out ->
  In updatedEvt (updatedEvents tr) ->
  exists attendee,
    cancelled req tr = Some attendee /\
    (forall p, In p (evt_attendees updatedEvt) <->
               In p (evt_attendees (evt data)) /\ person_email p <> attendee_email attendee) /\
    evt_bookingId updatedEvt = evt_bookingId (evt data) /\
    evt_uid updatedEvt = evt_uid (evt data) /\
    evt_title updatedEvt = evt_title (evt data).
Proof.
  intros H Hin.
  cancel_cases H; cbn in Hin; try destruct Hin.
  erewrite cancelled_past_guards; [|exact Hbooking|exact Hseat|reflexivity].
  apply in_omap in Hin. destruct Hin as (c & Hc & Hevt).
  rewrite List.Forall_forall in Hcalls. apply Hcalls, tailCall_cases in Hc.
  destruct (attendeeOf booking seat) as [who|].
  - assert (E : updatedEvt = withoutAttendee (evt data) who).
    { destruct Hc as [Hc|[Hc|[t Hc]]]; destruct c; cbn in Hc, Hevt;
        try discriminate Hevt; try destruct Hc; injection Hevt as <-.
      - tauto.
      - destruct H as (id & credential' & _ & _ & _ & _ & He & _). exact He. }
    subst updatedEvt. exists who. split; [reflexivity|].
    split; [intros p; apply withoutAttendee_attendees|]. repeat split.
  - destruct c; cbn in Hc, Hevt; try discriminate Hevt; destruct Hc.
Qed.

Lemma integrations_witness :
  List.map (fun e => List.map person_email (evt_attendees e)) (updatedEvents (trace benLeavesRun))
  = [["ann@x.test"]; ["ann@x.test"]] /\
  cancelled (withBooking seatRequest (bookingOf (Some 7) [ann; ben] seats)) (trace benLeavesRun)
  = Some ben.
Proof.
  split; [vm_compute; reflexivity|].
  destruct (integrations_get_the_event_without_the_attendee
              (withBooking seatRequest (bookingOf (Some 7) [ann; ben] seats)) seatData "{}"
              (trace benLeavesRun) (outcome benLeavesRun)
              (withoutAttendee (evt seatData) ben))
    as (attendee & Hwho & _).
  - apply (run_exec env _ allUp).
  - vm_compute. left. reflexivity.
  - rewrite Hwho. vm_compute in Hwho. exact (eq_sym Hwho).
Defined.

(** X23: every webhook delivery goes to a webhook of the call, signed
    with that webhook's secret, with the status [CANCELLED], the event-type
    information of the call and no empty reminder number; the attendees of
    its event are the attendee who leaves alone, or nobody when the seat
    names no attendee of the booking. *)
Theorem webhooks_are_told_about_the_attendee_only
    req data meta tr out secret' trigger createdAt webhook payload :
  exec (cancelAttendeeSeat req data meta) tr out ->
  In (sendPayload secret' trigger createdAt webhook payload) (calls tr) ->
  In webhook (webhooks data) /\
  secret' = secret webhook /\
  status payload = "CANCELLED" /\
  payload_eventTypeInfo payload = eventTypeInfo data /\
  payload_smsReminderNumber payload <> Some "" /\
  evt_uid (payload_evt payload) = evt_uid (evt data) /\
  match cancelled req tr with
  | Some attendee =>
      exists translate, evt_attendees (payload_evt payload) = [toPerson attendee translate]
  | None => evt_attendees (payload_evt payload) = []
  end.
Proof.
  intros H Hin.
  cancel_cases H; cbn in Hin; skip_head Hin.
  erewrite cancelled_past_guards; [|exact Hbooking|exact Hseat|reflexivity].
  rewrite List.Forall_forall in Hcalls. apply Hcalls, tailCall_cases in Hin.
  assert (Hsms : forall l, payload_smsReminderNumber (payloadOf data booking l) <> Some "").
  { intros l. cbn. destruct (smsReminderNumber booking) as [[|a s]|]; discriminate. }
  destruct (attendeeOf booking seat) as [who|].
  - destruct Hin as [Hin|[Hin|[t Hin]]]; cbn in Hin; try solve [destruct Hin].
    destruct Hin as (Hw & -> & ->).
    split; [exact Hw|]. split; [reflexivity|]. split; [reflexivity|]. split; [reflexivity|].
    split; [apply Hsms|]. split; [reflexivity|]. exists t. reflexivity.
  - cbn in Hin. destruct Hin as (Hw & -> & ->).
    split; [exact Hw|]. split; [reflexivity|]. split; [reflexivity|]. split; [reflexivity|].
    split; [apply Hsms|]. split; reflexivity.
Qed.

Lemma webhooks_witness :
  calls (trace benLeavesRun) <> [] /\
  smsReminderNumber (bookingOf (Some 7) [ann; ben] seats) = Some "" /\
  payload_smsReminderNumber
    (payloadOf seatData (bookingOf (Some 7) [ann; ben] seats) [toPerson ben "fr"]) <> Some "" /\
  Some "s" = secret hookB.
Proof.
  split; [vm_compute; discriminate|]. split; [reflexivity|].
  destruct (webhooks_are_told_about_the_attendee_only
              (withBooking seatRequest (bookingOf (Some 7) [ann; ben] seats)) seatData "{}"
              (trace benLeavesRun) (outcome benLeavesRun)
              (Some "s") BOOKING_CANCELLED "2024-01-01T00:00:00.000Z" hookB
              (payloadOf seatData (bookingOf (Some 7) [ann; ben] seats) [toPerson ben "fr"]))
    as (_ & Hsecret & _ & _ & Hsms & _).
  - apply (run_exec env _ allUp).
  - vm_compute. pick.
  - split; [exact Hsms|exact Hsecret].
Defined.

Lemma found_later (head : list Ev) (tr : list Ev) :
  (forall x, In x (foundCredentials tr) -> In x (foundCredentials (head ++ tr))) /\
  (forall x, In x (foundCalendars tr) -> In x (foundCalendars (head ++ tr))).
Proof.
  split; intros x Hx.
  - rewrite foundCredentials_app. apply in_or_app. right. exact Hx.
  - rewrite foundCalendars_app. apply in_or_app. right. exact Hx.
Qed.

(** X24: a video meeting is updated only for a reference of the booking
    whose type contains [_video], whose credential id is set and not zero
    and whose credential was found; a calendar event only for a reference
    whose type contains [_calendar], with the uid and the external calendar
    of that reference, and whose credential and calendar were found. *)
Theorem integrations_are_updated_for_references_with_a_credential req data meta tr out :
  exec (cancelAttendeeSeat req data meta) tr out ->
  (forall credential updatedEvt reference,
     In (updateMeeting credential updatedEvt reference) (calls tr) ->
     exists booking id,
       bookingToDelete req = Some booking /\
       In reference (references booking) /\
       includesString (ref_type reference) "_video" = true /\
       credentialId reference = Some id /\ id <> 0 /\
       In (id, credential) (foundCredentials tr)) /\
  (forall calendar uid updatedEvt externalId,
     In (calendar_updateEvent calendar uid updatedEvt externalId) (calls tr) ->
     exists booking reference id credential,
       bookingToDelete req = Some booking /\
       In reference (references booking) /\
       includesString (ref_type reference) "_calendar" = true /\
       uid = ref_uid reference /\ externalId = externalCalendarId reference /\
       credentialId reference = Some id /\ id <> 0 /\
       In (id, credential) (foundCredentials tr) /\
       In (credential, calendar) (foundCalendars tr)).
Proof.
  intros H.
  cancel_cases H.
  1,2: split; intros * Hin; cbn in Hin; skip_head Hin.
  rewrite List.Forall_forall in Hcalls.
  match goal with
  | |- context [foundCredentials (?e1 :: ?e2 :: ?e3 :: ?e4 :: tr2)] =>
      destruct (found_later [e1; e2; e3; e4] tr2) as (Hcred & Hcal)
  end.
  cbn [app] in Hcred, Hcal.
  split; intros * Hin; cbn in Hin; skip_head Hin.
  all: apply Hcalls, tailCall_cases in Hin.
  all: destruct (attendeeOf booking seat) as [who|]; [|destruct Hin].
  all: destruct Hin as [Hin|[Hin|[t Hin]]]; cbn in Hin; try solve [destruct Hin].
  - destruct Hin as (Href & Hv & _ & id & Hid & Hf).
    apply truthyId_Some in Hid. destruct Hid as [Hid Hne].
    exists booking, id. auto 10.
  - destruct Hin as (reference & id & credential' & Href & Hv & Hu & Hx & _ & Hid & Hf & Hg).
    apply truthyId_Some in Hid. destruct Hid as [Hid Hne].
    exists booking, reference, id, credential'. auto 12.
Qed.

Lemma integrations_for_references_witness :
  List.map ref_type (references (bookingOf (Some 7) [ann; ben] seats))
  = ["daily_video"; "google_calendar"; "zoom_video"] /\
  exists booking id,
    bookingToDelete (withBooking seatRequest (bookingOf (Some 7) [ann; ben] seats))
    = Some booking /\
    credentialId {| ref_type := "daily_video"; ref_uid := "v1";
                    credentialId := Some 11; externalCalendarId := None |} = Some id /\
    In (id, 11) (foundCredentials (trace benLeavesRun)).
Proof.
  split; [reflexivity|].
  destruct (integrations_are_updated_for_references_with_a_credential
              (withBooking seatRequest (bookingOf (Some 7) [ann; ben] seats)) seatData "{}"
              (trace benLeavesRun) (outcome benLeavesRun) (run_exec env _ allUp))
    as (Hvideo & _).
  destruct (Hvideo 11 (withoutAttendee (evt seatData) ben)
              {| ref_type := "daily_video"; ref_uid := "v1";
                 credentialId := Some 11; externalCalendarId := None |})
    as (booking & id & Hb & _ & _ & Hid & _ & Hfound).
  { vm_compute. pick. }
  exists booking, id. split; [exact Hb|]. split; [exact Hid|exact Hfound].
Defined.

(** X25: when the seat of the request names no attendee of the booking
    (or the request stops at a guard), no credential is looked up, no
    integration is updated, no translation is fetched and nobody is mailed,
    and the attendees of the event are only ever overwritten with the empty
    list. *)
Theorem missing_attendee_is_not_reached req data meta tr out :
  exec (cancelAttendeeSeat req data meta) tr out ->
  cancelled req tr = None ->
  Forall (fun c => reachesAttendee c = false) (calls tr) /\
  (forall newAttendees, In (evt_attendees_assign newAttendees) (outputs tr) -> newAttendees = []).
Proof.
  intros H Hnone.
  cancel_cases H.
  1,2: split; [repeat constructor|intros l Hin; cbn in Hin; destruct Hin].
  erewrite cancelled_past_guards in Hnone; [|exact Hbooking|exact Hseat|reflexivity].
  rewrite Hnone in Hcalls, Houts. cbn. split.
  - repeat (constructor; [reflexivity|]).
    eapply List.Forall_impl; [|exact Hcalls].
    intros c Hc. destruct c; cbn in Hc; try destruct Hc; reflexivity.
  - intros l [Hin|Hin]; [discriminate Hin|].
    rewrite List.Forall_forall in Houts. apply Houts in Hin. exact Hin.
Qed.

Lemma missing_attendee_witness :
  deleteOutcomes (trace danglingSeatRun) = [true; true] /\
  outcome danglingSeatRun = Ok (Some {| success := true |}) /\
  Forall (fun c => reachesAttendee c = false) (calls (trace danglingSeatRun)).
Proof.
  split; [vm_compute; reflexivity|]. split; [vm_compute; reflexivity|].
  apply (missing_attendee_is_not_reached
           (withBooking seatRequest
              (bookingOf (Some 7) [ann; ben] [ {| referenceUid := "seat-2"; attendeeId := 9 |} ]))
           seatData "{}" (trace danglingSeatRun) (outcome danglingSeatRun)).
  - apply (run_exec env _ allUp).
  - vm_compute. reflexivity.
Defined.

(** X26: the cancellation mail is about the event as the caller gave it,
    with all of its attendees, and the event-type metadata of the call; it
    is addressed to the attendee who leaves, in the locale of that attendee
    or in [en]. *)
Theorem attendee_is_mailed_about_the_whole_event req data meta tr out evt' person meta' :
  exec (cancelAttendeeSeat req data meta) tr out ->
  In (sendCancelledSeatEmailsAndSMS evt' person meta') (calls tr) ->
  evt' = evt data /\ meta' = meta /\
  exists attendee,
    cancelled req tr = Some attendee /\
    person_email person = attendee_email attendee /\
    person_name person = attendee_name attendee /\
    person_locale person = nullishString (attendee_locale attendee) "en".
Proof.
  intros H Hin.
  cancel_cases H; cbn in Hin; skip_head Hin.
  erewrite cancelled_past_guards; [|exact Hbooking|exact Hseat|reflexivity].
  rewrite List.Forall_forall in Hcalls. apply Hcalls, tailCall_cases in Hin.
  destruct (attendeeOf booking seat) as [who|]; [|destruct Hin].
  destruct Hin as [Hin|[Hin|[t Hin]]]; cbn in Hin; try solve [destruct Hin].
  destruct Hin as (-> & -> & t & ->).
  split; [reflexivity|]. split; [reflexivity|]. exists who. repeat split.
Qed.

Lemma mailed_attendee_witness :
  List.map person_email (evt_attendees (evt seatData)) = ["ann@x.test"; "ben@x.test"] /\
  cancelled (withBooking seatRequest (bookingOf (Some 7) [ann; ben] seats)) (trace benLeavesRun)
  = Some ben.
Proof.
  split; [reflexivity|].
  destruct (attendee_is_mailed_about_the_whole_event
              (withBooking seatRequest (bookingOf (Some 7) [ann; ben] seats)) seatData "{}"
              (trace benLeavesRun) (outcome benLeavesRun)
              (evt seatData) (toPerson ben "fr") "{}")
    as (_ & _ & attendee & Hwho & _).
  - apply (run_exec env _ allUp).
  - vm_compute. pick.
  - rewrite Hwho. vm_compute in Hwho. exact (eq_sym Hwho).
Defined.

(** X27: the workflow reminders that are deleted are exactly the
    reminders of the booking whose seat reference is the one of the
    request. *)
Theorem reminders_of_the_seat_are_deleted req data meta tr out reminders :
  exec (cancelAttendeeSeat req data meta) tr out ->
  In (WorkflowRepository_deleteAllWorkflowReminders reminders) (calls tr) ->
  exists uid booking,
    requested tr = Some uid /\
    bookingToDelete req = Some booking /\
    forall reminder,
      In reminder reminders <->
      In reminder (workflowReminders booking) /\ seatReferenceId reminder = Some uid.
Proof.
  intros H Hin.
  cancel_cases H; cbn in Hin; skip_head Hin.
  rewrite List.Forall_forall in Hcalls. apply Hcalls, tailCall_cases in Hin.
  assert (E : reminders = remindersOf booking uid).
  { destruct (attendeeOf booking seat) as [who|].
    - destruct Hin as [Hin|[Hin|[t Hin]]]; cbn in Hin; try solve [destruct Hin]. exact Hin.
    - exact Hin. }
  subst reminders. exists uid, booking. split; [reflexivity|]. split; [exact Hbooking|].
  intros reminder. unfold remindersOf. rewrite filter_In.
  destruct (seatReferenceId reminder) as [s|].
  - rewrite String.eqb_eq. split; intros [Hr E]; (split; [exact Hr|congruence]).
  - split; intros [_ E]; discriminate E.
Qed.

Lemma reminders_witness :
  length (workflowReminders (bookingOf (Some 7) [ann; ben] seats)) = 3%nat /\
  exists uid booking,
    requested (trace benLeavesRun) = Some uid /\
    bookingToDelete (withBooking seatRequest (bookingOf (Some 7) [ann; ben] seats))
    = Some booking /\
    forall reminder,
      In reminder [ {| reminder_id := 1; seatReferenceId := Some "seat-2" |} ] <->
      In reminder (workflowReminders booking) /\ seatReferenceId reminder = Some uid.
Proof.
  split; [reflexivity|].
  apply (reminders_of_the_seat_are_deleted
           (withBooking seatRequest (bookingOf (Some 7) [ann; ben] seats)) seatData "{}"
           (trace benLeavesRun) (outcome benLeavesRun)
           [ {| reminder_id := 1; seatReferenceId := Some "seat-2" |} ]).
  - apply (run_exec env _ allUp).
  - vm_compute. pick.
Defined.

End SeatCancellationExtras.

(** ** The availability of a team member *)

Module MemberAvailabilityProofs.
Import MemberAvailability.

Ltac run_handler H :=
  unfold getMemberAvailabilityHandler, throwTRPC, await in H;
  cbn in H; repeat exec_step H;
  repeat match goal with
         | Hn : negb ?a = false |- _ => apply negb_false_iff in Hn; subst a
         | Hn : negb ?a = true |- _ => apply negb_true_iff in Hn; subst a
         | Hm : match ?a0 with Some _ => _ | None => _ end = Some _ |- _ =>
             destruct a0; [|discriminate Hm]
         end.

(** X28: the availability is asked only once the caller was found to be
    a member of the team, the members of the team were listed and one of
    them has the requested id and a username that is not empty; it is asked
    for that username and the dates of the input, with date overrides,
    without bypassing busy calendar times, without booking-limit busy times
    and for what the enrichment of that member's user answered. *)
Theorem availability_is_asked_for_a_member_of_the_team ctx_user_id input tr out query initialData :
  exec (getMemberAvailabilityHandler ctx_user_id input) tr out ->
  In (getUserAvailability query initialData) (calls tr) ->
  In (ctx_user_id, teamId input, true) (memberships tr) /\
  (exists members member,
     In (teamId input, Some members) (memberLists tr) /\
     In member members /\
     userId member = memberId input /\
     username (user member) = Some (query_username query) /\
     query_username query <> "" /\
     In (user member, initial_user initialData) (enrichedUsers tr)) /\
  query_dateFrom query = dateFrom input /\
  query_dateTo query = dateTo input /\
  returnDateOverrides query = true /\
  bypassBusyCalendarTimes query = false /\
  busyTimesFromLimitsBookings initialData = [].
Proof.
  intros H Hin.
  run_handler H.
  all: cbn in Hin; repeat absurd_leaf; try discriminate Hin.
  all: repeat (destruct Hin as [Hin|Hin]; [try discriminate Hin|]); try solve [destruct Hin].
  all: injection Hin as <- <-.
  all: (split; [left; reflexivity|]).
  all: (split; [|repeat split]).
  all: match goal with
       | Hf : find _ ?l = Some ?m |- _ =>
           apply find_some in Hf; destruct Hf as [Hm Hid]; apply Z.eqb_eq in Hid;
           exists l, m
       end.
  all: cbn; repeat split; auto; try discriminate.
Qed.

Lemma colleague_availability_witness :
  outcome colleagueRun = Ok (inr "bob") /\
  memberships (trace colleagueRun) = [(1, 5, true)] /\
  enrichedUsers (trace colleagueRun) = [(user (memberOf 2 (Some "bob")), 2)].
Proof.
  split; [vm_compute; reflexivity|].
  destruct (availability_is_asked_for_a_member_of_the_team
              1 {| teamId := 5; memberId := 2; dateFrom := "2024-01-01"; dateTo := "2024-01-31" |}
              (trace colleagueRun) (outcome colleagueRun)
              {| query_username := "bob"; query_dateFrom := "2024-01-01";
                 query_dateTo := "2024-01-31"; returnDateOverrides := true;
                 bypassBusyCalendarTimes := false |}
              {| initial_user := 2; busyTimesFromLimitsBookings := [] |})
    as (Hteam & _).
  - apply (run_exec env _ team).
  - vm_compute. right. right. right. left. reflexivity.
  - split; vm_compute; reflexivity.
Defined.

(** X29: when every collaborator answers, the handler refuses in this
    order and stops at the refusal: [UNAUTHORIZED] after the membership
    check alone when the caller is not in the team; [NOT_FOUND] after the
    listing when no member has the requested id; [BAD_REQUEST] after the
    listing when the first member with that id has no username or an empty
    one; otherwise it returns the availability it asked for. *)
Theorem refusals_come_first_and_end_the_request ctx_user_id input tr out :
  exec (getMemberAvailabilityHandler ctx_user_id input) tr out ->
  forallb answered tr = true ->
  match thrown out with
  | Some UNAUTHORIZED =>
      memberships tr = [(ctx_user_id, teamId input, false)] /\
      calls tr = [isTeamMember ctx_user_id (teamId input)]
  | Some NOT_FOUND =>
      memberships tr = [(ctx_user_id, teamId input, true)] /\
      (exists members,
         memberLists tr = [(teamId input, members)] /\
         forall l, members = Some l -> Forall (fun m => userId m <> memberId input) l) /\
      length (calls tr) = 2%nat
  | Some BAD_REQUEST =>
      memberships tr = [(ctx_user_id, teamId input, true)] /\
      (exists l member,
         memberLists tr = [(teamId input, Some l)] /\
         List.find (fun m => Z.eqb (userId m) (memberId input)) l = Some member /\
         (username (user member) = None \/ username (user member) = Some "")) /\
      length (calls tr) = 2%nat
  | None =>
      (exists availability, out = Ok (inr availability)) /\
      existsb isAvailabilityQuery (calls tr) = true
  end.
Proof.
  intros H Ha.
  run_handler H.
  all: cbn in Ha; try discriminate Ha.
  all: cbn.
  all: try (split; [reflexivity|]; split; [|reflexivity]).
  - split; reflexivity.
  - exists l, m. auto.
  - split; [eauto|reflexivity].
  - exists l, m. auto.
  - exists a0. split; [reflexivity|]. intros l' ->.
    apply List.Forall_forall. intros m Hm.
    apply (find_none _ _ Heqo) in Hm. apply Z.eqb_neq in Hm. exact Hm.
Qed.

Lemma refusals_witness :
  thrown (outcome outsiderRun) = Some UNAUTHORIZED /\
  thrown (outcome strangerMemberRun) = Some NOT_FOUND /\
  thrown (outcome namelessRun) = Some BAD_REQUEST /\
  thrown (outcome emptyNameRun) = Some BAD_REQUEST /\
  calls (trace outsiderRun) = [isTeamMember 9 5].
Proof.
  repeat (split; [vm_compute; reflexivity|]).
  assert (H := refusals_come_first_and_end_the_request
                 9 {| teamId := 5; memberId := 2;
                      dateFrom := "2024-01-01"; dateTo := "2024-01-31" |}
                 (trace outsiderRun) (outcome outsiderRun) (run_exec env _ team)).
  change (thrown (outcome outsiderRun)) with (Some UNAUTHORIZED) in H.
  apply H. vm_compute. reflexivity.
Defined.

End MemberAvailabilityProofs.
